(** * SplitWise: split allocation, balances and settlement suggestions

    A shallow embedding of the money-handling core of the backend:

    - [app/utils/helpers.py]     : [round_decimal], [split_amount_equally]
    - [app/utils/validators.py]  : [validate_splits_equal_total]
    - [app/schemas/expense.py]   : the [amount] field of [ExpenseBase], the
                                   validation of [ExpenseCreate]
    - [app/api/expenses.py]      : [validate_and_create_splits],
                                   [create_expense] and its route,
                                   [delete_expense]
    - [app/api/participants.py]  : [add_participant]
    - [app/services/balance_service.py] : [BalanceService]
    - [app/api/balances.py]      : the totals of [get_settlement_suggestions]

    Representation.  Every monetary [Decimal] of the program has two
    fractional digits ([Numeric(10, 2)] columns, [decimal_places=2]
    fields), so an amount is the integer number of cents it denotes
    ([Decimal("33.34")] is [3334]); a percentage likewise is an integer
    number of hundredths of a percent ([Decimal("49.99")] is [4999]).  The
    constant [Decimal("0.01")] is therefore [1] and [Decimal("100")],
    as a percentage, is [10000].  A Python [dict] is the list of its items
    in insertion order, which is the order in which the program iterates
    over it. *)

From Stdlib Require Import ZArith Lia Sorted.
From stdpp Require Import base list strings pretty.

Local Open Scope Z_scope.

(** ** Identifiers, messages and exceptions *)

Definition UUID := N.
Bind Scope N_scope with UUID.

(** An f-string is kept as the sequence of its pieces, so that the values
    interpolated into a message stay visible. *)
Inductive piece :=
  | Text (s : string)
  | Dec (cents : Z)
  | Dec2f (cents : Z)
  | Uuid (u : UUID).

Definition message := list piece.

Inductive exn :=
  | ValueError (msg : message)
  | TypeError
  | IndexError
  | ValidationError (field : string)
  | HTTPException (status_code : Z) (detail : message).

Definition HTTP_400_BAD_REQUEST : Z := 400.

Inductive result (A : Type) :=
  | Ok (a : A)
  | Raise (e : exn).
Arguments Ok {A} a.
Arguments Raise {A} e.

#[global] Instance result_ret : MRet result := λ A a, Ok a.
#[global] Instance result_bind : MBind result := λ A B k r,
  match r with
  | Ok a => k a
  | Raise e => Raise e
  end.

(** [sum(xs)] over a list of amounts. *)
Definition sum (xs : list Z) : Z := foldl Z.add 0 xs.

(** [xs[k]] on a Python list: a negative index counts from the end, an index
    out of range raises [IndexError]. *)
Definition list_getitem {A : Type} (xs : list A) (k : Z) : result A :=
  let n := Z.of_nat (length xs) in
  let k' := if k <? 0 then k + n else k in
  if (k' <? 0) || (n <=? k') then Raise IndexError
  else match xs !! Z.to_nat k' with
       | Some x => Ok x
       | None => Raise IndexError
       end.

(** ** app/utils/helpers.py *)

Module Helpers.

(** [Decimal.quantize(..., rounding=ROUND_HALF_EVEN)] of the rational
    [num / den] ([den > 0]) to an integer: the nearest integer, and the
    even one of the two on a tie. *)
Definition round_half_even (num den : Z) : Z :=
  let q := num / den in
  let r := num mod den in
  if 2 * r <? den then q
  else if den <? 2 * r then q + 1
  else if Z.even q then q else q + 1.

(** [round_decimal(value)] with [places = 2]; [value] is the quotient
    [num / den] of an amount in cents, the result is in cents.  The program
    forms the quotient with 28 significant digits before it quantizes; for
    the amounts of at most ten digits that the schema admits, this
    intermediate rounding neither reaches nor crosses a tie, so the result
    is the half-even rounding of the exact quotient. *)
Definition round_decimal (num den : Z) : Z := round_half_even num den.

Definition split_amount_equally (amount : Z) (num_participants : Z)
  : result (list Z) :=
  if num_participants <=? 0 then
    Raise (ValueError [Text "Number of participants must be positive"])
  else
    let base_amount := round_decimal amount num_participants in
    let splits := replicate (Z.to_nat num_participants) base_amount in
    let total_splits := sum splits in
    if negb (total_splits =? amount) then
      let difference := amount - total_splits in
      match splits with
      | first :: others => Ok ((first + difference) :: others)
      | [] => Raise IndexError
      end
    else Ok splits.

(** [calculate_percentage_amount(total, percentage)]. *)
Definition calculate_percentage_amount (total percentage : Z) : result Z :=
  if (percentage <? 0) || (10000 <? percentage) then
    Raise (ValueError [Text "Percentage must be between 0 and 100"])
  else Ok (round_decimal (total * percentage) 10000).

(** The palette of [get_color_for_index]. *)
Definition colors : list string :=
  ["#2DD4BF"; "#FCD34D"; "#F43F5E"; "#3B82F6"].

(** [colors[index % len(colors)]]; the remainder of Python's [%] has the
    sign of the divisor. *)
Definition get_color_for_index (index : Z) : result string :=
  list_getitem colors (index `mod` Z.of_nat (length colors)).

End Helpers.

(** ** app/utils/validators.py *)

Module Validators.

Definition validate_positive_amount (amount : Z) : result Z :=
  if amount <=? 0 then Raise (ValueError [Text "Amount must be positive"])
  else Ok amount.

Definition validate_splits_equal_total (splits : list Z) (total : Z)
  : result bool :=
  let splits_sum := sum splits in
  if negb (splits_sum =? total) then
    Raise (ValueError [Text "Splits sum ("; Dec splits_sum;
                       Text ") doesn't match total ("; Dec total; Text ")"])
  else Ok true.

Definition validate_percentage_total (percentages : list Z) : result bool :=
  let total := sum percentages in
  if negb (total =? 10000) then
    Raise (ValueError [Text "Percentages must sum to 100, got "; Dec total])
  else Ok true.

Definition validate_participant_limit (current_count max_count : Z) : result bool :=
  if max_count <=? current_count then
    Raise (ValueError [Text "Maximum "; Text (pretty max_count);
                       Text " participants allowed per group"])
  else Ok true.

End Validators.

(** ** app/schemas/expense.py *)

Module Schemas.

Record ExpenseSplitCreate := {
  sc_participant_id : UUID;
  sc_amount : Z;
  sc_percentage : option Z
}.

(** The [field_validator] of [ExpenseBase.amount]. *)
Definition validate_amount (v : Z) : result Z :=
  if v <=? 0 then Raise (ValueError [Text "Amount must be positive"])
  else Ok v.

(** The field [amount: Decimal = Field(..., gt=0, decimal_places=2)]: the
    declared constraint, then the validator; a failure of either rejects
    the request with a validation error on the field. *)
Definition ExpenseBase_amount (v : Z) : result Z :=
  if 0 <? v then
    match validate_amount v with
    | Ok v' => Ok v'
    | Raise _ => Raise (ValidationError "amount")
    end
  else Raise (ValidationError "amount").

(** The [field_validator] of [ExpenseSplitCreate.amount]. *)
Definition ExpenseSplitCreate_validate_amount (v : Z) : result Z :=
  if v <=? 0 then Raise (ValueError [Text "Split amount must be positive"])
  else Ok v.

(** The field [amount: Decimal = Field(..., gt=0, decimal_places=2)] of
    [ExpenseSplitCreate]. *)
Definition ExpenseSplitCreate_amount (v : Z) : result Z :=
  if 0 <? v then
    match ExpenseSplitCreate_validate_amount v with
    | Ok v' => Ok v'
    | Raise _ => Raise (ValidationError "amount")
    end
  else Raise (ValidationError "amount").

(** The field [percentage: Optional[Decimal] = Field(None, ge=0, le=100,
    decimal_places=2)]: a missing percentage passes. *)
Definition ExpenseSplitCreate_percentage (v : option Z) : result (option Z) :=
  match v with
  | None => Ok None
  | Some p =>
      if (0 <=? p) && (p <=? 10000) then Ok (Some p)
      else Raise (ValidationError "percentage")
  end.

(** [ParticipantCreate]. *)
Record ParticipantCreate := {
  pc_name : string;
  pc_color : option string;
  pc_avatar_url : option string
}.

End Schemas.

(** ** app/models: the rows the core reads and writes *)

Inductive SplitMode := EQUAL | CUSTOM_AMOUNT | PERCENTAGE.

Record Participant := {
  p_id : UUID;
  p_group_id : UUID;
  p_name : string
}.

Record Expense := {
  e_id : UUID;
  e_group_id : UUID;
  e_amount : Z;
  e_payer_id : UUID;
  e_split_mode : SplitMode
}.

Record ExpenseSplit := {
  s_expense_id : UUID;
  s_participant_id : UUID;
  s_amount : Z;
  s_percentage : option Z
}.

(** The database session: the three tables the core touches.  [db.add] of a
    split appends a row. *)
Record Session := {
  participants : list Participant;
  expenses : list Expense;
  expense_splits : list ExpenseSplit
}.

Definition db_add_split (s : ExpenseSplit) (db : Session) : Session :=
  {| participants := participants db;
     expenses := expenses db;
     expense_splits := expense_splits db ++ [s] |}.

(** [db.add] of an expense and of a participant. *)
Definition db_add_expense (e : Expense) (db : Session) : Session :=
  {| participants := participants db;
     expenses := expenses db ++ [e];
     expense_splits := expense_splits db |}.

Definition db_add_participant (p : Participant) (db : Session) : Session :=
  {| participants := participants db ++ [p];
     expenses := expenses db;
     expense_splits := expense_splits db |}.

(** [db.delete(expense)]: the row of that primary key goes, and with it, by
    the cascade of [Expense.splits], the splits that point to it. *)
Definition db_delete_expense (e : Expense) (db : Session) : Session :=
  {| participants := participants db;
     expenses := filter (λ e', e_id e' ≠ e_id e) (expenses db);
     expense_splits := filter (λ s, s_expense_id s ≠ e_id e) (expense_splits db) |}.

(** [db.query(Participant).filter(Participant.group_id == group_id).all()] *)
Definition query_participants (group_id : UUID) (db : Session) : list Participant :=
  filter (λ p, p_group_id p = group_id) (participants db).

(** [db.query(Expense).filter(Expense.group_id == group_id).all()] *)
Definition query_expenses (group_id : UUID) (db : Session) : list Expense :=
  filter (λ e, e_group_id e = group_id) (expenses db).

(** [db.query(ExpenseSplit).join(Expense).filter(Expense.group_id == group_id).all()]:
    the inner join of the splits with the expenses on the foreign key, one
    row per matching pair. *)
Definition query_splits (group_id : UUID) (db : Session) : list ExpenseSplit :=
  s ← expense_splits db;
  e ← expenses db;
  if decide (e_id e = s_expense_id s ∧ e_group_id e = group_id) then [s] else [].

(** ** app/api/expenses.py *)

Module Expenses.
Import Schemas.

(** [for pid in split_participant_ids: if pid not in valid_participant_ids: raise ...] *)
Fixpoint check_participants (valid_participant_ids pids : list UUID) : result () :=
  match pids with
  | [] => Ok ()
  | pid :: rest =>
      if decide (pid ∈ valid_participant_ids) then
        check_participants valid_participant_ids rest
      else
        Raise (HTTPException HTTP_400_BAD_REQUEST
                 [Text "Participant "; Uuid pid; Text " not found in this group"])
  end.

(** [for i, split_data in enumerate(splits_data): db.add(ExpenseSplit(..., amount=equal_splits[i], percentage=None))] *)
Fixpoint add_equal_splits (expense : Expense) (equal_splits : list Z) (i : nat)
    (splits_data : list ExpenseSplitCreate) (db : Session) : result Session :=
  match splits_data with
  | [] => Ok db
  | split_data :: rest =>
      match equal_splits !! i with
      | Some a =>
          add_equal_splits expense equal_splits (S i) rest
            (db_add_split
               {| s_expense_id := e_id expense;
                  s_participant_id := sc_participant_id split_data;
                  s_amount := a;
                  s_percentage := None |} db)
      | None => Raise IndexError
      end
  end.

(** [for split_data in splits_data: db.add(ExpenseSplit(..., amount=split_data.amount, percentage=None))] *)
Fixpoint add_custom_splits (expense : Expense)
    (splits_data : list ExpenseSplitCreate) (db : Session) : Session :=
  match splits_data with
  | [] => db
  | split_data :: rest =>
      add_custom_splits expense rest
        (db_add_split
           {| s_expense_id := e_id expense;
              s_participant_id := sc_participant_id split_data;
              s_amount := sc_amount split_data;
              s_percentage := None |} db)
  end.

(** [sum(percentages)]: the request's [percentage] is optional, and adding
    a missing one raises [TypeError]. *)
Fixpoint sum_percentages (acc : Z) (percentages : list (option Z)) : result Z :=
  match percentages with
  | [] => Ok acc
  | Some p :: rest => sum_percentages (acc + p) rest
  | None :: rest => Raise TypeError
  end.

(** [amount = (expense.amount * split_data.percentage) / 100] followed by
    [amount.quantize(Decimal('0.01'))]: the product and its quotient by 100
    are exact, and the quantize rounds half to even (the rounding of the
    default decimal context).  In cents this is amount * percentage / 10000. *)
Definition percentage_amount (amount percentage : Z) : Z :=
  Helpers.round_half_even (amount * percentage) 10000.

(** [for split_data in splits_data: amount = ...; db.add(ExpenseSplit(..., amount=amount, percentage=split_data.percentage))] *)
Fixpoint add_percentage_splits (expense : Expense)
    (splits_data : list ExpenseSplitCreate) (db : Session) : result Session :=
  match splits_data with
  | [] => Ok db
  | split_data :: rest =>
      match sc_percentage split_data with
      | Some percentage =>
          add_percentage_splits expense rest
            (db_add_split
               {| s_expense_id := e_id expense;
                  s_participant_id := sc_participant_id split_data;
                  s_amount := percentage_amount (e_amount expense) percentage;
                  s_percentage := Some percentage |} db)
      | None => Raise TypeError
      end
  end.

Definition validate_and_create_splits
    (expense : Expense) (splits_data : list ExpenseSplitCreate) (db : Session)
  : result Session :=
  let valid_participant_ids :=
    p_id <$> query_participants (e_group_id expense) db in
  let split_participant_ids := sc_participant_id <$> splits_data in
  _ ← check_participants valid_participant_ids split_participant_ids;
  match e_split_mode expense with
  | EQUAL =>
      let num_participants := Z.of_nat (length splits_data) in
      equal_splits ← Helpers.split_amount_equally (e_amount expense) num_participants;
      add_equal_splits expense equal_splits 0 splits_data db
  | CUSTOM_AMOUNT =>
      let split_amounts := sc_amount <$> splits_data in
      match Validators.validate_splits_equal_total split_amounts (e_amount expense) with
      | Raise (ValueError e) => Raise (HTTPException HTTP_400_BAD_REQUEST e)
      | Raise e => Raise e
      | Ok _ => Ok (add_custom_splits expense splits_data db)
      end
  | PERCENTAGE =>
      let percentages := sc_percentage <$> splits_data in
      total_percentage ← sum_percentages 0 percentages;
      if Z.abs (total_percentage - 10000) >? 1 then
        Raise (HTTPException HTTP_400_BAD_REQUEST
                 [Text "Percentages must sum to 100, got "; Dec total_percentage])
      else add_percentage_splits expense splits_data db
  end.

(** [ExpenseCreate], with the fields of the request that the rows keep. *)
Record ExpenseCreate := {
  ec_amount : Z;
  ec_payer_id : UUID;
  ec_split_mode : SplitMode;
  ec_splits : list ExpenseSplitCreate
}.

Definition HTTP_403_FORBIDDEN : Z := 403.
Definition HTTP_404_NOT_FOUND : Z := 404.

(** [create_expense]: the payer check, the new row (whose primary key
    [new_id] is the one drawn by [uuid.uuid4]), its splits, and the commit.
    An exception leaves the request uncommitted, so only a success yields a
    session.  The commit itself is taken to succeed: the unique constraint
    on (expense, participant) that it enforces is not modelled, so a request
    naming a participant twice succeeds here. *)
Definition create_expense (group_id new_id : UUID) (expense_data : ExpenseCreate)
    (db : Session) : result (Expense * Session) :=
  let payer :=
    head (filter (λ p, p_id p = ec_payer_id expense_data ∧ p_group_id p = group_id)
                 (participants db)) in
  match payer with
  | None =>
      Raise (HTTPException HTTP_400_BAD_REQUEST [Text "Payer not found in this group"])
  | Some _ =>
      let new_expense :=
        {| e_id := new_id; e_group_id := group_id;
           e_amount := ec_amount expense_data;
           e_payer_id := ec_payer_id expense_data;
           e_split_mode := ec_split_mode expense_data |} in
      let db := db_add_expense new_expense db in
      db ← validate_and_create_splits new_expense (ec_splits expense_data) db;
      Ok (new_expense, db)
  end.

(** The place of an error in a request, as the framework reports it:
    [("body", "amount")], [("body", "splits", 0, "amount")]. *)
Inductive loc_item :=
  | Key (name : string)
  | Index (i : nat).

Definition loc := list loc_item.

(** The errors of one item of [splits], in the order of the fields of
    [ExpenseSplitCreate]. *)
Definition ExpenseSplitCreate_errors (i : nat) (split_data : ExpenseSplitCreate)
  : list loc :=
  (match ExpenseSplitCreate_amount (sc_amount split_data) with
   | Ok _ => []
   | Raise _ => [[Key "body"; Key "splits"; Index i; Key "amount"]]
   end)
  ++ (match ExpenseSplitCreate_percentage (sc_percentage split_data) with
      | Ok _ => []
      | Raise _ => [[Key "body"; Key "splits"; Index i; Key "percentage"]]
      end).

(** The validation of a request body against [ExpenseCreate]: every field
    is validated and the errors are collected in the order of the fields,
    those of [ExpenseBase] first.  [splits: List[ExpenseSplitCreate] =
    Field(..., min_length=1)] refuses the empty list and otherwise collects
    the errors of its items.  The record keeps the fields that the rows
    keep: [description], [expense_date] and [category] are taken to have
    passed their own checks, which can only add errors to the list. *)
Definition ExpenseCreate_errors (body : ExpenseCreate) : list loc :=
  (match ExpenseBase_amount (ec_amount body) with
   | Ok _ => []
   | Raise _ => [[Key "body"; Key "amount"]]
   end)
  ++ (match ec_splits body with
      | [] => [[Key "body"; Key "splits"]]
      | splits => mjoin (imap ExpenseSplitCreate_errors splits)
      end).

(** What a request to a route comes to: the value the function returns, the
    422 answer of the framework to a body that fails validation, or the
    exception raised by a dependency or by the function. *)
Inductive response (A : Type) :=
  | Returned (a : A)
  | RequestValidationError (errors : list loc)
  | Raised (e : exn).
Arguments Returned {A} a.
Arguments RequestValidationError {A} errors.
Arguments Raised {A} e.

(** The route [POST /groups/{group_id}/expenses] that the decorator of
    [create_expense] declares.  The framework first resolves the
    dependencies ([group_access] is what [Depends(verify_group_access)]
    comes to), then validates the body against [ExpenseCreate], and calls
    the function only when no error was found. *)
Definition create_expense_route (group_access : result ()) (group_id new_id : UUID)
    (body : ExpenseCreate) (db : Session) : response (Expense * Session) :=
  match group_access with
  | Raise e => Raised e
  | Ok _ =>
      match ExpenseCreate_errors body with
      | [] =>
          match create_expense group_id new_id body db with
          | Ok created => Returned created
          | Raise e => Raised e
          end
      | errors => RequestValidationError errors
      end
  end.

(** [delete_expense]; [owner_id] gives, for a group id, the owner that
    [expense.group.owner_id] reads. *)
Definition delete_expense (expense_id current_user_id : UUID)
    (owner_id : UUID → UUID) (db : Session) : result Session :=
  match head (filter (λ e, e_id e = expense_id) (expenses db)) with
  | None => Raise (HTTPException HTTP_404_NOT_FOUND [Text "Expense not found"])
  | Some expense =>
      if decide (owner_id (e_group_id expense) ≠ current_user_id) then
        Raise (HTTPException HTTP_403_FORBIDDEN
                 [Text "You don't have access to this expense"])
      else Ok (db_delete_expense expense db)
  end.

End Expenses.

(** ** Python dictionaries, in insertion order *)

Abbreviation dict V := (list (UUID * V)).

Section dict.
Context {V : Type}.

(** [k in d] *)
Definition dict_in (k : UUID) (d : dict V) : bool := bool_decide (k ∈ d.*1).

(** [d[k] = v]: overwrite in place, or append a new item. *)
Fixpoint dict_set (k : UUID) (v : V) (d : dict V) : dict V :=
  match d with
  | [] => [(k, v)]
  | (k', v') :: rest =>
      if decide (k' = k) then (k', v) :: rest else (k', v') :: dict_set k v rest
  end.

(** [d[k]] mutated in place by [f], for a key that is present. *)
Fixpoint dict_update (k : UUID) (f : V → V) (d : dict V) : dict V :=
  match d with
  | [] => []
  | (k', v') :: rest =>
      if decide (k' = k) then (k', f v') :: rest else (k', v') :: dict_update k f rest
  end.
End dict.

(** ** app/services/balance_service.py *)

Module BalanceService.

Record BalanceData := {
  participant : Participant;
  total_paid : Z;
  total_share : Z;
  net_balance : Z
}.

Definition add_total_paid (a : Z) (b : BalanceData) : BalanceData :=
  {| participant := participant b; total_paid := total_paid b + a;
     total_share := total_share b; net_balance := net_balance b |}.

Definition add_total_share (a : Z) (b : BalanceData) : BalanceData :=
  {| participant := participant b; total_paid := total_paid b;
     total_share := total_share b + a; net_balance := net_balance b |}.

Definition set_net_balance (b : BalanceData) : BalanceData :=
  {| participant := participant b; total_paid := total_paid b;
     total_share := total_share b;
     net_balance := total_paid b - total_share b |}.

Definition calculate_participant_balances (group_id : UUID) (db : Session)
  : dict BalanceData :=
  let participants := query_participants group_id db in
  let balances :=
    foldl (λ balances participant,
             dict_set (p_id participant)
               {| participant := participant; total_paid := 0;
                  total_share := 0; net_balance := 0 |} balances)
          [] participants in
  let expenses := query_expenses group_id db in
  let balances :=
    foldl (λ balances expense,
             if dict_in (e_payer_id expense) balances then
               dict_update (e_payer_id expense) (add_total_paid (e_amount expense)) balances
             else balances)
          balances expenses in
  let splits := query_splits group_id db in
  let balances :=
    foldl (λ balances split,
             if dict_in (s_participant_id split) balances then
               dict_update (s_participant_id split) (add_total_share (s_amount split)) balances
             else balances)
          balances splits in
  foldl (λ balances participant_id,
           dict_update participant_id set_net_balance balances)
        balances (balances.*1).

(** The items of [creditors] and [debtors]. *)
Record Entry := {
  en_id : UUID;
  en_name : string;
  en_amount : Z
}.

Definition set_amount (a : Z) (x : Entry) : Entry :=
  {| en_id := en_id x; en_name := en_name x; en_amount := a |}.

Record SettlementDict := {
  from_participant_id : UUID;
  from_participant_name : string;
  to_participant_id : UUID;
  to_participant_name : string;
  amount : Z;
  description : message
}.

(** [for participant_id, balance_data in balances.items(): ...]: the loop
    that appends each participant to the creditors or to the debtors. *)
Fixpoint separate (items : dict BalanceData) (creditors debtors : list Entry)
  : list Entry * list Entry :=
  match items with
  | [] => (creditors, debtors)
  | (participant_id, balance_data) :: rest =>
      let net_balance := net_balance balance_data in
      let participant := participant balance_data in
      if net_balance >? 1 then
        separate rest
          (creditors ++ [{| en_id := participant_id; en_name := p_name participant;
                            en_amount := net_balance |}])
          debtors
      else if net_balance <? -1 then
        separate rest creditors
          (debtors ++ [{| en_id := participant_id; en_name := p_name participant;
                          en_amount := Z.abs net_balance |}])
      else separate rest creditors debtors
  end.

(** [xs.sort(key=lambda x: x["amount"], reverse=True)]: the stable sort by
    decreasing amount, items of equal amount keeping their order. *)
Fixpoint insert_desc (x : Entry) (xs : list Entry) : list Entry :=
  match xs with
  | [] => [x]
  | y :: ys =>
      if en_amount x <? en_amount y then y :: insert_desc x ys else x :: y :: ys
  end.

Definition sort_desc (xs : list Entry) : list Entry := foldr insert_desc [] xs.

(** The variables of the two-pointer loop. *)
Record LoopState := {
  creditors : list Entry;
  debtors : list Entry;
  i : nat;
  j : nat;
  settlements : list SettlementDict
}.

(** One iteration of [while i < len(creditors) and j < len(debtors)];
    [None] when the loop condition is false. *)
Definition iteration (st : LoopState) : option LoopState :=
  match creditors st !! i st, debtors st !! j st with
  | Some creditor, Some debtor =>
      let settle_amount := Z.min (en_amount creditor) (en_amount debtor) in
      let settlements :=
        settlements st ++
          [{| from_participant_id := en_id debtor;
              from_participant_name := en_name debtor;
              to_participant_id := en_id creditor;
              to_participant_name := en_name creditor;
              amount := settle_amount;
              description := [Text (en_name debtor); Text " pays ";
                              Text (en_name creditor); Text " $";
                              Dec2f settle_amount] |}] in
      let creditor := set_amount (en_amount creditor - settle_amount) creditor in
      let debtor := set_amount (en_amount debtor - settle_amount) debtor in
      Some {| creditors := <[i st := creditor]> (creditors st);
              debtors := <[j st := debtor]> (debtors st);
              i := if en_amount creditor <? 1 then S (i st) else i st;
              j := if en_amount debtor <? 1 then S (j st) else j st;
              settlements := settlements |}
  | _, _ => None
  end.

(** The loop, run for at most [fuel] iterations: [None] if the condition
    still holds when the fuel is spent. *)
Fixpoint while (fuel : nat) (st : LoopState) : option LoopState :=
  match iteration st with
  | None => Some st
  | Some st' =>
      match fuel with
      | O => None
      | S fuel' => while fuel' st'
      end
  end.

Definition generate_settlement_suggestions (balances : dict BalanceData)
  : option (list SettlementDict) :=
  let '(creditors, debtors) := separate balances [] [] in
  let creditors := sort_desc creditors in
  let debtors := sort_desc debtors in
  st ← while (length creditors + length debtors)
         {| creditors := creditors; debtors := debtors;
            i := 0; j := 0; settlements := [] |};
  Some (settlements st).

Fixpoint is_group_settled (balances : dict BalanceData) : bool :=
  match balances with
  | [] => true
  | (_, balance_data) :: rest =>
      if Z.abs (net_balance balance_data) >? 1 then false
      else is_group_settled rest
  end.

End BalanceService.

(** [BalanceService.generate_balance_matrix]. *)
Module BalanceMatrix.
Import BalanceService.

Record Edge := {
  from_participant_id : UUID;
  from_participant_name : string;
  to_participant_id : UUID;
  to_participant_name : string;
  amount : Z
}.

(** [for creditor in creditors: ...] for one debtor: the creditors are the
    same objects for every debtor, so their amounts are handed on. *)
Fixpoint for_creditors (debtor : Entry) (creditors : list Entry) (edges : list Edge)
  : Entry * list Entry * list Edge :=
  match creditors with
  | [] => (debtor, [], edges)
  | creditor :: rest =>
      if (en_amount debtor >? 1) && (en_amount creditor >? 1) then
        let transfer_amount := Z.min (en_amount debtor) (en_amount creditor) in
        let edges :=
          edges ++ [{| from_participant_id := en_id debtor;
                       from_participant_name := en_name debtor;
                       to_participant_id := en_id creditor;
                       to_participant_name := en_name creditor;
                       amount := transfer_amount |}] in
        let debtor := set_amount (en_amount debtor - transfer_amount) debtor in
        let creditor := set_amount (en_amount creditor - transfer_amount) creditor in
        let '(debtor, rest, edges) := for_creditors debtor rest edges in
        (debtor, creditor :: rest, edges)
      else
        let '(debtor, rest, edges) := for_creditors debtor rest edges in
        (debtor, creditor :: rest, edges)
  end.

(** [for debtor in debtors: for creditor in creditors: ...] *)
Fixpoint for_debtors (debtors creditors : list Entry) (edges : list Edge)
  : list Entry * list Entry * list Edge :=
  match debtors with
  | [] => ([], creditors, edges)
  | debtor :: rest =>
      let '(debtor, creditors, edges) := for_creditors debtor creditors edges in
      let '(rest, creditors, edges) := for_debtors rest creditors edges in
      (debtor :: rest, creditors, edges)
  end.

Definition generate_balance_matrix (balances : dict BalanceData) : list Edge :=
  let '(creditors, debtors) := separate balances [] [] in
  (for_debtors debtors creditors []).2.

End BalanceMatrix.

(** ** app/api/balances.py *)

Module Balances.
Import BalanceService.

Record SettlementSuggestion := {
  sg_settlements : list SettlementDict;
  total_transactions : nat;
  total_amount : Z
}.

(** The response built from the settlements: [total_amount] accumulates
    the amounts from [Decimal("0.00")]. *)
Definition build_suggestion (settlement_data : list SettlementDict)
  : SettlementSuggestion :=
  {| sg_settlements := settlement_data;
     total_transactions := length settlement_data;
     total_amount := foldl (λ total settlement, total + amount settlement)
                           0 settlement_data |}.

Definition get_settlement_suggestions (group_id : UUID) (db : Session)
  : option SettlementSuggestion :=
  let balances := calculate_participant_balances group_id db in
  settlement_data ← generate_settlement_suggestions balances;
  Some (build_suggestion settlement_data).

End Balances.

(** ** app/api/participants.py *)

Module Participants.
Import Schemas.

(** [add_participant].  The rows of this development keep the columns that
    the balance computations read, so the colour given to the new row is
    returned beside it.  [new_id] is the primary key drawn by [uuid.uuid4]. *)
Definition add_participant (group_id new_id : UUID)
    (participant_data : ParticipantCreate) (db : Session)
  : result (Participant * string * Session) :=
  let current_count := Z.of_nat (length (query_participants group_id db)) in
  match Validators.validate_participant_limit current_count 4 with
  | Raise (ValueError e) => Raise (HTTPException HTTP_400_BAD_REQUEST e)
  | Raise e => Raise e
  | Ok _ =>
      let existing_participant :=
        head (filter (λ p, p_group_id p = group_id ∧ p_name p = pc_name participant_data)
                     (participants db)) in
      match existing_participant with
      | Some _ =>
          Raise (HTTPException HTTP_400_BAD_REQUEST
                   [Text "Participant with name '"; Text (pc_name participant_data);
                    Text "' already exists in this group"])
      | None =>
          color ← match pc_color participant_data with
                  | None => Helpers.get_color_for_index current_count
                  | Some color => Ok color
                  end;
          let new_participant :=
            {| p_id := new_id; p_group_id := group_id;
               p_name := pc_name participant_data |} in
          Ok (new_participant, color, db_add_participant new_participant db)
      end
  end.

End Participants.

(** ** Vocabulary of the statements *)

(** The sum of one numeric field over the values of a dictionary. *)
Definition dict_total {V : Type} (f : V → Z) (d : dict V) : Z :=
  sum ((λ item, f item.2) <$> d).

(** The two accumulation loops of [calculate_participant_balances] have the
    same shape: for each row, a field is increased at the row's key when the
    key is in the dictionary. *)
Definition accumulate {A : Type} (key : A → UUID) (amt : A → Z)
    (g : Z → BalanceService.BalanceData → BalanceService.BalanceData)
    (d : dict BalanceService.BalanceData) (rows : list A)
  : dict BalanceService.BalanceData :=
  foldl (λ b x, if dict_in (key x) b then dict_update (key x) (g (amt x)) b else b)
        d rows.

(** The part of each list that the two-pointer loop has not passed yet. *)
Definition remaining_creditors (st : BalanceService.LoopState) : list BalanceService.Entry :=
  drop (BalanceService.i st) (BalanceService.creditors st).

Definition remaining_debtors (st : BalanceService.LoopState) : list BalanceService.Entry :=
  drop (BalanceService.j st) (BalanceService.debtors st).

(** The settlement that one iteration appends. *)
Definition settlement_of (debtor creditor : BalanceService.Entry) (settle_amount : Z)
  : BalanceService.SettlementDict :=
  {| BalanceService.from_participant_id := BalanceService.en_id debtor;
     BalanceService.from_participant_name := BalanceService.en_name debtor;
     BalanceService.to_participant_id := BalanceService.en_id creditor;
     BalanceService.to_participant_name := BalanceService.en_name creditor;
     BalanceService.amount := settle_amount;
     BalanceService.description :=
       [Text (BalanceService.en_name debtor); Text " pays ";
        Text (BalanceService.en_name creditor); Text " $"; Dec2f settle_amount] |}.

(** The creditors and the debtors of a balance dictionary, in its order. *)
Definition creditors_of (balances : dict BalanceService.BalanceData)
  : list BalanceService.Entry :=
  (λ item, {| BalanceService.en_id := item.1;
              BalanceService.en_name := p_name (BalanceService.participant item.2);
              BalanceService.en_amount := BalanceService.net_balance item.2 |})
    <$> filter (λ item, 1 < BalanceService.net_balance item.2) balances.

Definition debtors_of (balances : dict BalanceService.BalanceData)
  : list BalanceService.Entry :=
  (λ item, {| BalanceService.en_id := item.1;
              BalanceService.en_name := p_name (BalanceService.participant item.2);
              BalanceService.en_amount := Z.abs (BalanceService.net_balance item.2) |})
    <$> filter (λ item, BalanceService.net_balance item.2 < -1) balances.

(** What the creditors are owed, what the debtors owe, and the sum of
    max(0, net_balance) over all participants. *)
Definition owed_to_creditors (balances : dict BalanceService.BalanceData) : Z :=
  sum ((λ item, BalanceService.net_balance item.2)
         <$> filter (λ item, 1 < BalanceService.net_balance item.2) balances).

Definition owed_by_debtors (balances : dict BalanceService.BalanceData) : Z :=
  sum ((λ item, - BalanceService.net_balance item.2)
         <$> filter (λ item, BalanceService.net_balance item.2 < -1) balances).

Definition total_owed (balances : dict BalanceService.BalanceData) : Z :=
  sum ((λ item, Z.max 0 (BalanceService.net_balance item.2)) <$> balances).

(** What holds before and after every iteration of the two-pointer loop
    started on the creditors [cs0] and the debtors [ds0]. *)
Record settle_invariant (cs0 ds0 : list BalanceService.Entry)
    (st : BalanceService.LoopState) : Prop := {
  inv_creditors_positive :
    Forall (λ x, 0 < BalanceService.en_amount x) (remaining_creditors st);
  inv_debtors_positive :
    Forall (λ x, 0 < BalanceService.en_amount x) (remaining_debtors st);
  inv_settlements_positive :
    Forall (λ s, 0 < BalanceService.amount s) (BalanceService.settlements st);
  inv_creditors_total :
    sum (BalanceService.amount <$> BalanceService.settlements st)
    + sum (BalanceService.en_amount <$> remaining_creditors st)
    = sum (BalanceService.en_amount <$> cs0);
  inv_debtors_total :
    sum (BalanceService.amount <$> BalanceService.settlements st)
    + sum (BalanceService.en_amount <$> remaining_debtors st)
    = sum (BalanceService.en_amount <$> ds0);
  inv_creditors_ids :
    Forall (λ x, BalanceService.en_id x ∈ BalanceService.en_id <$> cs0)
           (remaining_creditors st);
  inv_debtors_ids :
    Forall (λ x, BalanceService.en_id x ∈ BalanceService.en_id <$> ds0)
           (remaining_debtors st);
  inv_settlements_ids :
    Forall (λ s, BalanceService.from_participant_id s ∈ BalanceService.en_id <$> ds0
                 ∧ BalanceService.to_participant_id s ∈ BalanceService.en_id <$> cs0)
           (BalanceService.settlements st)
}.

(** The state of the tables in which the balances of every group are
    conserved: the splits of each expense sum to its amount, and the payers
    and the split participants of a group are participants of the group. *)
Definition db_consistent (db : Session) : Prop :=
  ∀ group_id,
    (∀ e, e ∈ query_expenses group_id db →
          sum (s_amount <$> filter (λ s, s_expense_id s = e_id e) (expense_splits db))
          = e_amount e)
    ∧ (∀ e, e ∈ query_expenses group_id db →
            e_payer_id e ∈ p_id <$> query_participants group_id db)
    ∧ (∀ s, s ∈ query_splits group_id db →
            s_participant_id s ∈ p_id <$> query_participants group_id db).

(** A primary key that no expense has and no split refers to. *)
Definition fresh_expense_id (new_id : UUID) (db : Session) : Prop :=
  (new_id ∉ e_id <$> expenses db) ∧ (new_id ∉ s_expense_id <$> expense_splits db).

(** What a participant paid, and what a participant's share is, over the
    expenses and the splits of a group. *)
Definition paid_by (k group_id : UUID) (db : Session) : Z :=
  sum (e_amount <$> filter (λ e, e_payer_id e = k) (query_expenses group_id db)).

Definition share_of (k group_id : UUID) (db : Session) : Z :=
  sum (s_amount <$> filter (λ s, s_participant_id s = k) (query_splits group_id db)).

(** The part of each list that the two-pointer loop has passed. *)
Definition passed_creditors (st : BalanceService.LoopState) : list BalanceService.Entry :=
  take (BalanceService.i st) (BalanceService.creditors st).

Definition passed_debtors (st : BalanceService.LoopState) : list BalanceService.Entry :=
  take (BalanceService.j st) (BalanceService.debtors st).

(** The amount held under an id in a list of creditors or debtors, and what
    a participant receives and pays in a list of settlements. *)
Definition amount_of (k : UUID) (xs : list BalanceService.Entry) : Z :=
  sum (BalanceService.en_amount <$> filter (λ x, BalanceService.en_id x = k) xs).

Definition received (k : UUID) (plan : list BalanceService.SettlementDict) : Z :=
  sum (BalanceService.amount
         <$> filter (λ s, BalanceService.to_participant_id s = k) plan).

Definition paid (k : UUID) (plan : list BalanceService.SettlementDict) : Z :=
  sum (BalanceService.amount
         <$> filter (λ s, BalanceService.from_participant_id s = k) plan).

(** The per-participant accounts of the two-pointer loop started on [cs0]
    and [ds0]: what an id still holds and what it has received (or paid) make
    up what it held at the start, and the entries passed hold nothing. *)
Record settle_accounts (cs0 ds0 : list BalanceService.Entry)
    (st : BalanceService.LoopState) : Prop := {
  acc_creditors :
    ∀ k, amount_of k (passed_creditors st ++ remaining_creditors st)
         + received k (BalanceService.settlements st)
         = amount_of k cs0;
  acc_debtors :
    ∀ k, amount_of k (passed_debtors st ++ remaining_debtors st)
         + paid k (BalanceService.settlements st)
         = amount_of k ds0;
  acc_passed_creditors :
    Forall (λ x, BalanceService.en_amount x = 0) (passed_creditors st);
  acc_passed_debtors :
    Forall (λ x, BalanceService.en_amount x = 0) (passed_debtors st)
}.

(** All the imbalance beyond the tolerance is on one side. *)
Definition one_sided (balances : dict BalanceService.BalanceData) : Prop :=
  Forall (λ item, BalanceService.net_balance item.2 ≤ 1) balances
  ∨ Forall (λ item, -1 ≤ BalanceService.net_balance item.2) balances.

(** ** Sample data *)

Module Sample.
Import Schemas BalanceService.

Definition group : UUID := 9.

Definition alice := {| p_id := 1; p_group_id := group; p_name := "A" |}.
Definition bob := {| p_id := 2; p_group_id := group; p_name := "B" |}.
Definition carol := {| p_id := 3; p_group_id := group; p_name := "C" |}.
Definition dave := {| p_id := 4; p_group_id := group; p_name := "D" |}.

(** A session holding the group's participants and no expense yet. *)
Definition db0 : Session :=
  {| participants := [alice; bob; carol; dave]; expenses := []; expense_splits := [] |}.

Definition expense (mode : SplitMode) (amount : Z) : Expense :=
  {| e_id := 7; e_group_id := group; e_amount := amount;
     e_payer_id := p_id alice; e_split_mode := mode |}.

Definition split_data (p : Participant) (amount : Z) (percentage : option Z) :=
  {| sc_participant_id := p_id p; sc_amount := amount; sc_percentage := percentage |}.

(** The group after one dinner of 100.00 paid by A and split equally
    between A, B and C, and one taxi of 25.00 paid by B for C and D. *)
Definition db1 : Session :=
  {| participants := [alice; bob; carol; dave];
     expenses :=
       [ {| e_id := 7; e_group_id := group; e_amount := 10000;
            e_payer_id := p_id alice; e_split_mode := EQUAL |};
         {| e_id := 8; e_group_id := group; e_amount := 2500;
            e_payer_id := p_id bob; e_split_mode := CUSTOM_AMOUNT |} ];
     expense_splits :=
       [ {| s_expense_id := 7; s_participant_id := p_id alice;
            s_amount := 3334; s_percentage := None |};
         {| s_expense_id := 7; s_participant_id := p_id bob;
            s_amount := 3333; s_percentage := None |};
         {| s_expense_id := 7; s_participant_id := p_id carol;
            s_amount := 3333; s_percentage := None |};
         {| s_expense_id := 8; s_participant_id := p_id carol;
            s_amount := 1000; s_percentage := None |};
         {| s_expense_id := 8; s_participant_id := p_id dave;
            s_amount := 1500; s_percentage := None |} ] |}.

Definition balance (p : Participant) (net : Z) : UUID * BalanceData :=
  (p_id p, {| participant := p; total_paid := 0; total_share := 0;
              net_balance := net |}).

(** The group with a single expense of 100.00, paid by A for A alone. *)
Definition db2 : Session :=
  {| participants := [alice; bob; carol; dave];
     expenses := [expense CUSTOM_AMOUNT 10000];
     expense_splits :=
       [ {| s_expense_id := 7; s_participant_id := p_id alice; s_amount := 10000;
            s_percentage := None |} ] |}.

(** A request for 10.00 paid by A and split equally between A and B. *)
Definition lunch_request : Expenses.ExpenseCreate :=
  {| Expenses.ec_amount := 1000; Expenses.ec_payer_id := p_id alice;
     Expenses.ec_split_mode := EQUAL;
     Expenses.ec_splits := [split_data alice 1 None; split_data bob 1 None] |}.

(** A request for -5.00 paid by A and split equally between A, B and C. *)
Definition refund_request : Expenses.ExpenseCreate :=
  {| Expenses.ec_amount := -500; Expenses.ec_payer_id := p_id alice;
     Expenses.ec_split_mode := EQUAL;
     Expenses.ec_splits :=
       [split_data alice 1 None; split_data bob 1 None; split_data carol 1 None] |}.

(** The balances {A: +50.00, B: -30.00, C: -20.00}. *)
Definition owed_fifty : dict BalanceData :=
  [balance alice 5000; balance bob (-3000); balance carol (-2000)].

(** The balances {A: +0.03, B: -0.01, C: -0.01, D: -0.01}. *)
Definition three_cents : dict BalanceData :=
  [balance alice 3; balance bob (-1); balance carol (-1); balance dave (-1)].
End Sample.

(** * Properties *)

(** ** Sums *)

Lemma foldl_add_acc (a : Z) (xs : list Z) :
  foldl Z.add a xs = a + foldl Z.add 0 xs.
Proof.
  revert a. induction xs as [|x xs IH]; intros a; simpl; [lia|].
  rewrite (IH (a + x)), (IH (0 + x)). lia.
Qed.

Lemma sum_nil : sum [] = 0.
Proof. reflexivity. Qed.

Lemma sum_cons (x : Z) (xs : list Z) : sum (x :: xs) = x + sum xs.
Proof. unfold sum. simpl. apply foldl_add_acc. Qed.

Lemma sum_app (xs ys : list Z) : sum (xs ++ ys) = sum xs + sum ys.
Proof.
  induction xs as [|x xs IH]; simpl; [by rewrite sum_nil|].
  rewrite !sum_cons, IH. lia.
Qed.

Lemma sum_replicate (n : nat) (x : Z) : sum (replicate n x) = Z.of_nat n * x.
Proof.
  induction n as [|n IH]; simpl; [by rewrite sum_nil|].
  rewrite sum_cons, IH. lia.
Qed.

(** ** Equal split *)

Section equal_split.
Import Helpers.

Lemma split_amount_equally_shares (amount n : Z) :
  1 ≤ n →
  let base := round_decimal amount n in
  split_amount_equally amount n
  = Ok ((base + (amount - n * base)) :: replicate (Z.to_nat n - 1) base).
Proof.
  intros Hn base. unfold split_amount_equally.
  destruct (Z.leb_spec n 0) as [|_]; [lia|].
  fold base. rewrite sum_replicate, Z2Nat.id by lia.
  destruct (Z.to_nat n) as [|m] eqn:Hm; [lia|].
  simpl. rewrite Nat.sub_0_r.
  destruct (Z.eqb_spec (n * base) amount) as [Heq|Hne]; simpl.
  - do 2 f_equal. lia.
  - reflexivity.
Qed.

Lemma split_amount_equally_sum (amount n : Z) :
  1 ≤ n →
  ∃ shares, split_amount_equally amount n = Ok shares
            ∧ length shares = Z.to_nat n ∧ sum shares = amount.
Proof.
  intros Hn. eexists. split; [by apply split_amount_equally_shares|].
  simpl. rewrite length_replicate, sum_cons, sum_replicate.
  split; [lia|]. rewrite Nat2Z.inj_sub, Z2Nat.id by lia. simpl. lia.
Qed.
End equal_split.

(** The docstring's example, and the amounts 10.00 over three. *)
Example split_amount_equally_examples :
  Helpers.split_amount_equally 10000 3 = Ok [3334; 3333; 3333]
  ∧ Helpers.split_amount_equally 1000 3 = Ok [334; 333; 333]
  ∧ Helpers.round_decimal 10125 10 = 1012
  ∧ Helpers.round_decimal 10135 10 = 1014.
Proof. by repeat split. Qed.

(** C4.  For every amount and every n ≥ 1, [split_amount_equally] returns
    exactly n shares, each equal to the half-even rounding of amount / n to
    the cent, except the first, which moreover takes the whole remainder
    amount − n * base; the shares sum to the amount.  For n ≤ 0 the call
    raises the error "Number of participants must be positive". *)
Theorem split_amount_equally_spec (amount n : Z) :
  (1 ≤ n →
   let base := Helpers.round_half_even amount n in
   let shares := (base + (amount - n * base)) :: replicate (Z.to_nat n - 1) base in
   Helpers.split_amount_equally amount n = Ok shares
   ∧ length shares = Z.to_nat n
   ∧ sum shares = amount)
  ∧ (n ≤ 0 →
     Helpers.split_amount_equally amount n
     = Raise (ValueError [Text "Number of participants must be positive"])).
Proof.
  split.
  - intros Hn base shares.
    destruct (split_amount_equally_sum amount n Hn) as (shares' & Heq & Hlen & Hsum).
    pose proof (split_amount_equally_shares amount n Hn) as Hshares.
    simpl in Hshares. rewrite Hshares in Heq. injection Heq as <-.
    by rewrite Hshares.
  - intros Hn. unfold Helpers.split_amount_equally.
    by destruct (Z.leb_spec n 0); [|lia].
Qed.

Lemma split_amount_equally_spec_witness :
  1 ≤ 3
  ∧ Helpers.split_amount_equally 10000 3 = Ok [3334; 3333; 3333]
  ∧ 0 ≤ 0
  ∧ Helpers.split_amount_equally 10000 0
    = Raise (ValueError [Text "Number of participants must be positive"]).
Proof.
  split; [lia|]. split.
  - destruct (split_amount_equally_spec 10000 3) as [H _].
    destruct (H ltac:(lia)) as [Heq _]. exact Heq.
  - split; [lia|].
    destruct (split_amount_equally_spec 10000 0) as [_ H]. apply H. lia.
Defined.

(** ** Non-positive amounts *)

(** C5, as stated, fails: the equal-split allocator does not look at the
    sign of the amount, and returns three zero shares for an amount of zero. *)
Lemma split_amount_equally_accepts_zero_amount :
  Helpers.split_amount_equally 0 3 = Ok [0; 0; 0]
  ∧ ¬ ∃ e, Helpers.split_amount_equally 0 3 = Raise e.
Proof. split; [reflexivity|]. intros [e He]. discriminate He. Qed.

(** C5, amended.  A non-positive amount is refused where the request is
    validated, before any allocator runs: the [amount] field of
    [ExpenseBase] rejects it, its validator raising "Amount must be
    positive", so the route of [create_expense] never calls the function on
    such a request, whatever its other fields and whatever the tables hold:
    it answers with the dependency's exception or with the validation
    errors of the body, among them the one at [amount], and returns
    nothing.  The equal-split allocator itself makes no check of the
    amount: for n ≥ 1 it returns n shares that sum to the amount, whatever
    its sign. *)
Theorem nonpositive_amount_rejected_by_schema (amount n : Z) :
  amount ≤ 0 →
  Schemas.ExpenseBase_amount amount = Raise (ValidationError "amount")
  ∧ Schemas.validate_amount amount = Raise (ValueError [Text "Amount must be positive"])
  ∧ (∀ group_access group_id new_id body db,
       Expenses.ec_amount body = amount →
       let r := Expenses.create_expense_route group_access group_id new_id body db in
       (∀ created, r ≠ Expenses.Returned created)
       ∧ (∀ e, group_access = Raise e → r = Expenses.Raised e)
       ∧ (∀ u, group_access = Ok u →
            r = Expenses.RequestValidationError (Expenses.ExpenseCreate_errors body)
            ∧ [Expenses.Key "body"; Expenses.Key "amount"]
              ∈ Expenses.ExpenseCreate_errors body))
  ∧ (1 ≤ n →
     ∃ shares, Helpers.split_amount_equally amount n = Ok shares
               ∧ length shares = Z.to_nat n ∧ sum shares = amount).
Proof.
  intros Ha.
  assert (Schemas.ExpenseBase_amount amount = Raise (ValidationError "amount"))
    as Hfield.
  { unfold Schemas.ExpenseBase_amount, Schemas.validate_amount.
    destruct (Z.ltb_spec 0 amount); [lia|done]. }
  split; [done|]. split.
  { unfold Schemas.validate_amount. by destruct (Z.leb_spec amount 0); [|lia]. }
  split; [|apply split_amount_equally_sum].
  intros group_access group_id new_id body db Hbody r. subst r.
  unfold Expenses.create_expense_route.
  assert (∃ rest, Expenses.ExpenseCreate_errors body
                  = [Expenses.Key "body"; Expenses.Key "amount"] :: rest)
    as [rest Herrors].
  { unfold Expenses.ExpenseCreate_errors. rewrite Hbody, Hfield. by eexists. }
  destruct group_access as [u|e].
  - rewrite Herrors. split; [done|]. split; [done|]. intros _ _.
    split; [done|]. apply list_elem_of_here.
  - split; [done|]. split; [by intros ? [= <-]|done].
Qed.

Lemma nonpositive_amount_rejected_by_schema_witness :
  -500 ≤ 0
  ∧ Schemas.ExpenseBase_amount (-500) = Raise (ValidationError "amount")
  ∧ Expenses.create_expense_route (Ok ()) Sample.group 7 Sample.refund_request Sample.db0
    = Expenses.RequestValidationError [[Expenses.Key "body"; Expenses.Key "amount"]]
  ∧ (∃ created,
       Expenses.create_expense Sample.group 7 Sample.refund_request Sample.db0
       = Ok created
       ∧ s_amount <$> expense_splits created.2 = [-166; -167; -167])
  ∧ ∃ shares, Helpers.split_amount_equally (-500) 3 = Ok shares
              ∧ length shares = 3%nat ∧ sum shares = -500.
Proof.
  split; [lia|].
  destruct (nonpositive_amount_rejected_by_schema (-500) 3 ltac:(lia))
    as (H1 & _ & Hroute & H2).
  split; [exact H1|]. split.
  { destruct (Hroute (Ok ()) Sample.group 7%N Sample.refund_request Sample.db0 eq_refl)
      as (_ & _ & Hr).
    destruct (Hr () eq_refl) as [-> _]. reflexivity. }
  split; [eexists; split; reflexivity|]. apply H2. lia.
Defined.

(** ** Custom amounts and percentages *)

Section splits.
Import Schemas Expenses.

Lemma check_participants_ok (valid pids : list UUID) :
  Forall (λ pid, pid ∈ valid) pids → check_participants valid pids = Ok ().
Proof.
  induction 1 as [|pid pids Hpid _ IH]; simpl; [done|].
  by rewrite decide_True.
Qed.

Lemma check_participants_splits_data (valid : list UUID) splits_data :
  Forall (λ sd, sc_participant_id sd ∈ valid) splits_data →
  check_participants valid (sc_participant_id <$> splits_data) = Ok ().
Proof.
  intros H. apply check_participants_ok. by rewrite Forall_fmap.
Qed.

Lemma add_custom_splits_rows expense splits_data db :
  let db' := add_custom_splits expense splits_data db in
  participants db' = participants db
  ∧ expenses db' = expenses db
  ∧ expense_splits db'
    = expense_splits db
      ++ ((λ sd, {| s_expense_id := e_id expense;
                    s_participant_id := sc_participant_id sd;
                    s_amount := sc_amount sd;
                    s_percentage := None |}) <$> splits_data).
Proof.
  revert db. induction splits_data as [|sd sds IH]; intros db; simpl.
  - by rewrite app_nil_r.
  - destruct (IH (db_add_split
                    {| s_expense_id := e_id expense;
                       s_participant_id := sc_participant_id sd;
                       s_amount := sc_amount sd;
                       s_percentage := None |} db)) as (Hp & He & Hs).
    simpl in *. rewrite Hp, He, Hs. by rewrite <- app_assoc.
Qed.

Lemma sum_percentages_present (acc : Z) splits_data :
  Forall (λ sd, is_Some (sc_percentage sd)) splits_data →
  sum_percentages acc (sc_percentage <$> splits_data)
  = Ok (acc + sum (omap sc_percentage splits_data)).
Proof.
  intros H. revert acc.
  induction H as [|sd sds [p Hp] _ IH]; intros acc; simpl.
  - rewrite sum_nil. f_equal. lia.
  - rewrite Hp. simpl. rewrite IH, sum_cons. by rewrite Z.add_assoc.
Qed.

Lemma add_percentage_splits_present expense splits_data db :
  Forall (λ sd, is_Some (sc_percentage sd)) splits_data →
  ∃ db', add_percentage_splits expense splits_data db = Ok db'
         ∧ participants db' = participants db
         ∧ expenses db' = expenses db
         ∧ expense_splits db'
           = expense_splits db
             ++ omap (λ sd, percentage ← sc_percentage sd;
                        Some {| s_expense_id := e_id expense;
                                s_participant_id := sc_participant_id sd;
                                s_amount := percentage_amount (e_amount expense) percentage;
                                s_percentage := Some percentage |}) splits_data.
Proof.
  intros H. revert db.
  induction H as [|sd sds [p Hp] _ IH]; intros db; simpl.
  - exists db. by rewrite app_nil_r.
  - rewrite Hp. simpl.
    destruct (IH (db_add_split
                    {| s_expense_id := e_id expense;
                       s_participant_id := sc_participant_id sd;
                       s_amount := percentage_amount (e_amount expense) p;
                       s_percentage := Some p |} db)) as (db' & Heq & Hp' & He & Hs).
    exists db'. simpl in *. rewrite Heq, Hp', He, Hs.
    by rewrite <- app_assoc.
Qed.
End splits.

(** C6.  In the custom-amount mode, with every split participant a member of
    the expense's group, the call succeeds if and only if the provided
    amounts sum exactly to the expense amount.  On success the rows added are
    exactly the provided amounts, in order and with no percentage; on
    failure the error is a 400 whose detail carries the actual sum and the
    expected total. *)
Theorem custom_amount_split_spec expense splits_data db :
  e_split_mode expense = CUSTOM_AMOUNT →
  Forall (λ sd, Schemas.sc_participant_id sd
                ∈ p_id <$> query_participants (e_group_id expense) db) splits_data →
  let actual := sum (Schemas.sc_amount <$> splits_data) in
  let r := Expenses.validate_and_create_splits expense splits_data db in
  ((∃ db', r = Ok db') ↔ actual = e_amount expense)
  ∧ (∀ db', r = Ok db' →
       participants db' = participants db
       ∧ expenses db' = expenses db
       ∧ expense_splits db'
         = expense_splits db
           ++ ((λ sd, {| s_expense_id := e_id expense;
                         s_participant_id := Schemas.sc_participant_id sd;
                         s_amount := Schemas.sc_amount sd;
                         s_percentage := None |}) <$> splits_data))
  ∧ (∀ e, r = Raise e →
       e = HTTPException HTTP_400_BAD_REQUEST
             [Text "Splits sum ("; Dec actual; Text ") doesn't match total (";
              Dec (e_amount expense); Text ")"]).
Proof.
  intros Hmode Hvalid actual r. subst r.
  unfold Expenses.validate_and_create_splits.
  rewrite (check_participants_splits_data _ _ Hvalid), Hmode. simpl.
  unfold Validators.validate_splits_equal_total. fold actual.
  destruct (Z.eqb_spec actual (e_amount expense)) as [Heq|Hne]; simpl.
  - split; [split; [done|eauto]|]. split; [|done].
    intros db' [= <-]. apply add_custom_splits_rows.
  - split; [split; [by intros [? ?]|done]|]. split; [done|].
    by intros e [= <-].
Qed.

Lemma custom_amount_split_spec_witness :
  ∃ db', Expenses.validate_and_create_splits
           (Sample.expense CUSTOM_AMOUNT 10000)
           [Sample.split_data Sample.alice 6000 None;
            Sample.split_data Sample.bob 4000 None] Sample.db0 = Ok db'
         ∧ s_amount <$> expense_splits db' = [6000; 4000].
Proof.
  destruct (custom_amount_split_spec
              (Sample.expense CUSTOM_AMOUNT 10000)
              [Sample.split_data Sample.alice 6000 None;
               Sample.split_data Sample.bob 4000 None] Sample.db0)
    as (Hiff & Hok & _).
  - reflexivity.
  - apply (bool_decide_unpack _). vm_compute. exact I.
  - destruct (proj2 Hiff eq_refl) as [db' Hdb'].
    exists db'. split; [exact Hdb'|].
    destruct (Hok db' Hdb') as (_ & _ & ->). reflexivity.
Defined.

(** C7.  In the percentage mode, with every split participant a member of
    the expense's group and every split carrying a percentage, the call fails
    if and only if the sum of the percentages differs from 100 by more than
    0.01, and then with the 400 error "Percentages must sum to 100"; it is
    accepted exactly when the sum lies in [99.99, 100.01]. *)
Theorem percentage_split_tolerance expense splits_data db :
  e_split_mode expense = PERCENTAGE →
  Forall (λ sd, Schemas.sc_participant_id sd
                ∈ p_id <$> query_participants (e_group_id expense) db) splits_data →
  Forall (λ sd, is_Some (Schemas.sc_percentage sd)) splits_data →
  let total_percentage := sum (omap Schemas.sc_percentage splits_data) in
  let r := Expenses.validate_and_create_splits expense splits_data db in
  ((∃ e, r = Raise e) ↔ Z.abs (total_percentage - 10000) > 1)
  ∧ (∀ e, r = Raise e →
       e = HTTPException HTTP_400_BAD_REQUEST
             [Text "Percentages must sum to 100, got "; Dec total_percentage])
  ∧ ((∃ db', r = Ok db') ↔ 9999 ≤ total_percentage ≤ 10001).
Proof.
  intros Hmode Hvalid Hpresent total_percentage r. subst r.
  unfold Expenses.validate_and_create_splits.
  rewrite (check_participants_splits_data _ _ Hvalid), Hmode. simpl.
  rewrite (sum_percentages_present 0 _ Hpresent), Z.add_0_l. simpl.
  fold total_percentage.
  destruct (Z.gtb_spec (Z.abs (total_percentage - 10000)) 1) as [Hout|Hin].
  - split; [split; [lia|intros _; by eexists]|]. split; [by intros e [= <-]|].
    split; [by intros [? ?]|lia].
  - destruct (add_percentage_splits_present expense splits_data db Hpresent)
      as (db' & -> & _).
    split; [split; [by intros [? ?]|lia]|]. split; [done|].
    split; [lia|intros _; by eexists].
Qed.

Lemma percentage_split_tolerance_witness :
  (∃ db', Expenses.validate_and_create_splits
            (Sample.expense PERCENTAGE 9000)
            [Sample.split_data Sample.alice 1 (Some 5000);
             Sample.split_data Sample.bob 1 (Some 4999)] Sample.db0 = Ok db').
Proof.
  destruct (percentage_split_tolerance
              (Sample.expense PERCENTAGE 9000)
              [Sample.split_data Sample.alice 1 (Some 5000);
               Sample.split_data Sample.bob 1 (Some 4999)] Sample.db0)
    as (_ & _ & Hiff).
  - reflexivity.
  - apply (bool_decide_unpack _). vm_compute. exact I.
  - apply (bool_decide_unpack _). vm_compute. exact I.
  - apply Hiff. vm_compute. split; discriminate.
Defined.

(** C1.  The percentage path stores each rounded line as it is and makes no
    correction: for 90.00 split 50.00% / 49.99%, which passes the tolerance
    check, the shares are 45.00 and 44.99 and sum to 89.99; for 0.03 split
    50% / 50% they are 0.02 and 0.02 and sum to 0.04. *)
Theorem percentage_split_drift :
  (∃ db', Expenses.validate_and_create_splits
            (Sample.expense PERCENTAGE 9000)
            [Sample.split_data Sample.alice 1 (Some 5000);
             Sample.split_data Sample.bob 1 (Some 4999)] Sample.db0 = Ok db'
          ∧ s_amount <$> expense_splits db' = [4500; 4499]
          ∧ sum (s_amount <$> expense_splits db') = 8999
          ∧ sum (s_amount <$> expense_splits db') ≠ 9000)
  ∧ (∃ db', Expenses.validate_and_create_splits
              (Sample.expense PERCENTAGE 3)
              [Sample.split_data Sample.alice 1 (Some 5000);
               Sample.split_data Sample.bob 1 (Some 5000)] Sample.db0 = Ok db'
            ∧ s_amount <$> expense_splits db' = [2; 2]
            ∧ sum (s_amount <$> expense_splits db') ≠ 3).
Proof.
  split; eexists; (split; [vm_compute; reflexivity|]); vm_compute;
    repeat split; discriminate.
Qed.

(** ** Settled check *)

(** C8.  [is_group_settled] answers true if and only if every participant's
    net balance is at most 0.01 in absolute value; the balances
    {A: +0.01, B: -0.01} are settled and {A: +0.02, B: -0.02} are not. *)
Theorem is_group_settled_spec :
  (∀ balances : dict BalanceService.BalanceData,
     BalanceService.is_group_settled balances = true
     ↔ Forall (λ item, Z.abs (BalanceService.net_balance item.2) ≤ 1) balances)
  ∧ BalanceService.is_group_settled
      [Sample.balance Sample.alice 1; Sample.balance Sample.bob (-1)] = true
  ∧ BalanceService.is_group_settled
      [Sample.balance Sample.alice 2; Sample.balance Sample.bob (-2)] = false.
Proof.
  split; [|by split].
  induction balances as [|[k b] rest IH]; simpl.
  - split; [constructor|done].
  - rewrite Forall_cons. simpl.
    destruct (Z.gtb_spec (Z.abs (BalanceService.net_balance b)) 1) as [Hout|Hin].
    + split; [done|lia].
    + rewrite IH. split; [by split|by intros [_ ?]].
Qed.

(** ** Dictionaries *)

Section dict_facts.
Context {V : Type}.
Implicit Types (d : dict V) (k : UUID) (v : V) (f : V → Z).

Lemma dict_set_keys k v d k' :
  k' ∈ (dict_set k v d).*1 ↔ k' = k ∨ k' ∈ d.*1.
Proof.
  induction d as [|[k0 v0] d IH]; simpl.
  - rewrite list_elem_of_singleton, elem_of_nil. tauto.
  - destruct (decide (k0 = k)) as [->|Hne]; simpl.
    + rewrite !elem_of_cons. tauto.
    + rewrite !elem_of_cons, IH. tauto.
Qed.

Lemma dict_set_NoDup k v d : NoDup d.*1 → NoDup (dict_set k v d).*1.
Proof.
  induction d as [|[k0 v0] d IH]; simpl; intros Hnd.
  - apply NoDup_singleton.
  - apply NoDup_cons in Hnd as [Hk0 Hnd].
    destruct (decide (k0 = k)) as [->|Hne]; simpl.
    + by apply NoDup_cons.
    + apply NoDup_cons. split; [|by apply IH].
      rewrite dict_set_keys. intros [?|?]; [congruence|done].
Qed.

Lemma dict_set_Forall (P : V → Prop) k v d :
  P v → Forall (λ item, P item.2) d → Forall (λ item, P item.2) (dict_set k v d).
Proof.
  intros Hv. induction 1 as [|[k0 v0] d H0 Hd IH]; simpl.
  - by repeat constructor.
  - destruct (decide (k0 = k)); constructor; done.
Qed.

Lemma dict_update_keys k (g : V → V) d : (dict_update k g d).*1 = d.*1.
Proof.
  induction d as [|[k0 v0] d IH]; simpl; [done|].
  destruct (decide (k0 = k)); simpl; [done|by f_equal].
Qed.

Lemma dict_update_app k (g : V → V) (pre d : dict V) :
  k ∉ pre.*1 → dict_update k g (pre ++ d) = pre ++ dict_update k g d.
Proof.
  induction pre as [|[k0 v0] pre IH]; simpl; [done|].
  rewrite not_elem_of_cons. intros [Hne Hpre].
  rewrite decide_False by done. by rewrite IH.
Qed.

Lemma dict_total_nil f : dict_total f [] = 0.
Proof. reflexivity. Qed.

Lemma dict_total_cons f k v d : dict_total f ((k, v) :: d) = f v + dict_total f d.
Proof. unfold dict_total. simpl. by rewrite sum_cons. Qed.

(** An in-place update that adds [a] to the field [f] adds [a] to its total. *)
Lemma dict_total_update_add f (g : V → V) (a : Z) k d :
  (∀ v, f (g v) = f v + a) → k ∈ d.*1 →
  dict_total f (dict_update k g d) = dict_total f d + a.
Proof.
  intros Hg. induction d as [|[k0 v0] d IH]; simpl.
  - by intros ?%elem_of_nil.
  - rewrite elem_of_cons. intros Hin.
    destruct (decide (k0 = k)) as [->|Hne].
    + rewrite !dict_total_cons, Hg. lia.
    + rewrite !dict_total_cons, IH; [lia|]. by destruct Hin as [->|?].
Qed.

(** An in-place update that leaves the field [f] alone leaves its total. *)
Lemma dict_total_update_same f (g : V → V) k d :
  (∀ v, f (g v) = f v) → dict_total f (dict_update k g d) = dict_total f d.
Proof.
  intros Hg. induction d as [|[k0 v0] d IH]; simpl; [done|].
  destruct (decide (k0 = k)) as [->|Hne]; rewrite !dict_total_cons.
  - by rewrite Hg.
  - by rewrite IH.
Qed.

Lemma dict_total_zero f d :
  Forall (λ item, f item.2 = 0) d → dict_total f d = 0.
Proof.
  induction 1 as [|[k v] d Hv _ IH]; [done|].
  rewrite dict_total_cons, IH. simpl in Hv. lia.
Qed.

(** Updating every key in turn, on a dictionary, updates every value. *)
Lemma dict_update_all (g : V → V) (pre post : dict V) :
  NoDup (pre ++ post).*1 →
  foldl (λ b k, dict_update k g b) (pre ++ post) post.*1
  = pre ++ (prod_map id g <$> post).
Proof.
  revert pre. induction post as [|[k v] post IH]; intros pre Hnd; simpl; [done|].
  assert (k ∉ pre.*1) as Hk.
  { rewrite fmap_app in Hnd. apply NoDup_app in Hnd as (_ & Hdisj & _).
    intros Hin. apply (Hdisj k Hin). simpl. left. }
  rewrite dict_update_app by done. simpl. rewrite decide_True by done.
  rewrite (cons_middle _ pre post), app_assoc.
  rewrite (cons_middle _ pre), app_assoc in Hnd.
  rewrite IH.
  - by rewrite <- app_assoc.
  - by rewrite !fmap_app in *.
Qed.

Lemma dict_update_every_key (g : V → V) d :
  NoDup d.*1 →
  foldl (λ b k, dict_update k g b) d d.*1 = prod_map id g <$> d.
Proof. intros Hnd. by apply (dict_update_all g [] d). Qed.
End dict_facts.

(** ** Regrouping sums *)

Lemma sum_fmap_add {A} (a b : A → Z) (xs : list A) :
  sum ((λ x, a x + b x) <$> xs) = sum (a <$> xs) + sum (b <$> xs).
Proof.
  induction xs as [|x xs IH]; [done|]. rewrite !fmap_cons, !sum_cons, IH. lia.
Qed.

Lemma sum_fmap_zero {A} (xs : list A) : sum ((λ _, 0) <$> xs) = 0.
Proof. induction xs as [|x xs IH]; [done|]. by rewrite fmap_cons, sum_cons, IH. Qed.

Lemma sum_fmap_ext {A} (a b : A → Z) (xs : list A) :
  (∀ x, x ∈ xs → a x = b x) → sum (a <$> xs) = sum (b <$> xs).
Proof.
  induction xs as [|x xs IH]; intros H; [done|].
  rewrite !fmap_cons, !sum_cons, IH, (H x); [done|left|].
  intros y Hy. apply H. by right.
Qed.

Lemma sum_swap {A B} (g : A → B → Z) (xs : list A) (ys : list B) :
  sum ((λ x, sum (g x <$> ys)) <$> xs)
  = sum ((λ y, sum ((λ x, g x y) <$> xs)) <$> ys).
Proof.
  induction xs as [|x xs IH].
  - by rewrite sum_fmap_zero.
  - rewrite fmap_cons, sum_cons, IH, <- sum_fmap_add.
    apply sum_fmap_ext. intros y _. by rewrite fmap_cons, sum_cons.
Qed.

Lemma sum_fmap_bind {A B} (f : B → Z) (g : A → list B) (xs : list A) :
  sum (f <$> (xs ≫= g)) = sum ((λ x, sum (f <$> g x)) <$> xs).
Proof.
  induction xs as [|x xs IH]; [done|].
  by rewrite bind_cons, fmap_app, sum_app, fmap_cons, sum_cons, IH.
Qed.

Lemma sum_fmap_filter {A} (f : A → Z) (P : A → Prop) `{!∀ x, Decision (P x)}
    (xs : list A) :
  sum (f <$> filter P xs) = sum ((λ x, if decide (P x) then f x else 0) <$> xs).
Proof.
  induction xs as [|x xs IH]; [done|].
  rewrite filter_cons, fmap_cons, sum_cons. destruct (decide (P x)).
  - by rewrite fmap_cons, sum_cons, IH.
  - by rewrite IH.
Qed.

(** ** Balances *)

Section balances.
Import BalanceService.

Section accumulate.
Context {A : Type} (key : A → UUID) (amt : A → Z)
        (g : Z → BalanceData → BalanceData).

Lemma accumulate_keys d rows : (accumulate key amt g d rows).*1 = d.*1.
Proof.
  revert d. induction rows as [|x rows IH]; intros d; simpl; [done|].
  unfold accumulate in *. simpl. rewrite IH.
  destruct (dict_in (key x) d); [apply dict_update_keys|done].
Qed.

Lemma accumulate_total_add (f : BalanceData → Z) d rows :
  (∀ a v, f (g a v) = f v + a) →
  (∀ x, x ∈ rows → key x ∈ d.*1) →
  dict_total f (accumulate key amt g d rows) = dict_total f d + sum (amt <$> rows).
Proof.
  intros Hg. revert d. induction rows as [|x rows IH]; intros d Hin.
  - rewrite fmap_nil, sum_nil. unfold accumulate. simpl. lia.
  - rewrite fmap_cons. unfold accumulate in *. simpl.
    assert (key x ∈ d.*1) as Hx by (apply Hin; left).
    unfold dict_in. rewrite bool_decide_eq_true_2 by done.
    rewrite IH.
    + rewrite (dict_total_update_add f _ (amt x)), sum_cons by done. lia.
    + intros y Hy. rewrite dict_update_keys. apply Hin. by right.
Qed.

Lemma accumulate_total_same (f : BalanceData → Z) d rows :
  (∀ a v, f (g a v) = f v) →
  dict_total f (accumulate key amt g d rows) = dict_total f d.
Proof.
  intros Hg. revert d. induction rows as [|x rows IH]; intros d; simpl; [done|].
  unfold accumulate in *. simpl. rewrite IH.
  destruct (dict_in (key x) d); [by apply dict_total_update_same|done].
Qed.
End accumulate.

Lemma initial_balances_facts (ps : list Participant) (d0 : dict BalanceData) :
  NoDup d0.*1 →
  Forall (λ item, total_paid item.2 = 0 ∧ total_share item.2 = 0) d0 →
  let d := foldl (λ balances participant,
                    dict_set (p_id participant)
                      {| participant := participant; total_paid := 0;
                         total_share := 0; net_balance := 0 |} balances)
                 d0 ps in
  NoDup d.*1
  ∧ (∀ k, k ∈ d.*1 ↔ k ∈ d0.*1 ∨ k ∈ p_id <$> ps)
  ∧ Forall (λ item, total_paid item.2 = 0 ∧ total_share item.2 = 0) d.
Proof.
  revert d0. induction ps as [|p ps IH]; intros d0 Hnd Hz; simpl.
  - split; [done|]. split; [|done]. intros k. rewrite elem_of_nil. tauto.
  - edestruct (IH (dict_set (p_id p)
                    {| participant := p; total_paid := 0;
                       total_share := 0; net_balance := 0 |} d0))
      as (Hnd' & Hkeys & Hz').
    + by apply dict_set_NoDup.
    + by apply (dict_set_Forall (λ v, total_paid v = 0 ∧ total_share v = 0)).
    + split; [done|]. split; [|done].
      intros k. rewrite Hkeys, dict_set_keys, elem_of_cons. tauto.
Qed.

Lemma net_balance_total (d : dict BalanceData) :
  dict_total net_balance (prod_map id set_net_balance <$> d)
  = dict_total total_paid d - dict_total total_share d.
Proof.
  induction d as [|[k v] d IH]; [done|].
  rewrite fmap_cons. unfold prod_map at 1. simpl fst. simpl snd.
  rewrite !dict_total_cons, IH. simpl. lia.
Qed.

(** Under invariant 1 the splits that the joined query returns for a
    group carry, in total, the total of the group's expense amounts. *)
Lemma query_splits_total (group_id : UUID) (db : Session) :
  (∀ e, e ∈ query_expenses group_id db →
        sum (s_amount <$> filter (λ s, s_expense_id s = e_id e) (expense_splits db))
        = e_amount e) →
  sum (s_amount <$> query_splits group_id db)
  = sum (e_amount <$> query_expenses group_id db).
Proof.
  intros Hinv. unfold query_splits.
  rewrite sum_fmap_bind.
  rewrite (sum_fmap_ext _
             (λ s, sum ((λ e, if decide (e_id e = s_expense_id s ∧ e_group_id e = group_id)
                              then s_amount s else 0) <$> expenses db))).
  2:{ intros s _. rewrite sum_fmap_bind. apply sum_fmap_ext. intros e _.
      destruct (decide _); simpl; [by rewrite sum_cons, sum_nil, Z.add_0_r|done]. }
  rewrite (sum_swap (λ s e, if decide (e_id e = s_expense_id s ∧ e_group_id e = group_id)
                            then s_amount s else 0)).
  unfold query_expenses in *. rewrite sum_fmap_filter.
  apply sum_fmap_ext. intros e He.
  destruct (decide (e_group_id e = group_id)) as [Hg|Hg].
  - rewrite <- (Hinv e) by (by apply list_elem_of_filter).
    rewrite sum_fmap_filter. apply sum_fmap_ext. intros s _.
    repeat case_decide; try reflexivity; exfalso;
      match goal with
      | Hc : _ ∧ _, Hn : _ ≠ _ |- _ => destruct Hc as [Hc _]; exact (Hn (eq_sym Hc))
      | Hn : ¬ (_ ∧ _), Hc : _ = e_id _ |- _ => exact (Hn (conj (eq_sym Hc) Hg))
      end.
  - etrans; [|apply (sum_fmap_zero (expense_splits db))].
    apply sum_fmap_ext. intros s _.
    case_decide; [exfalso; tauto|reflexivity].
Qed.
End balances.

(** C2.  If every expense of the group has splits that sum exactly to its
    amount, and every payer and every split participant of the group is one
    of the group's participants, then the net balances computed by
    [calculate_participant_balances] sum to zero, each being the total paid
    minus the total share of its participant. *)
Theorem balances_conservation (group_id : UUID) (db : Session) :
  (∀ e, e ∈ query_expenses group_id db →
        sum (s_amount <$> filter (λ s, s_expense_id s = e_id e) (expense_splits db))
        = e_amount e) →
  (∀ e, e ∈ query_expenses group_id db →
        e_payer_id e ∈ p_id <$> query_participants group_id db) →
  (∀ s, s ∈ query_splits group_id db →
        s_participant_id s ∈ p_id <$> query_participants group_id db) →
  let balances := BalanceService.calculate_participant_balances group_id db in
  dict_total BalanceService.net_balance balances = 0
  ∧ Forall (λ item, BalanceService.net_balance item.2
                    = BalanceService.total_paid item.2
                      - BalanceService.total_share item.2) balances.
Proof.
  intros Hinv Hpayers Hsplits balances. subst balances.
  unfold BalanceService.calculate_participant_balances. cbv zeta.
  destruct (initial_balances_facts (query_participants group_id db) [])
    as (Hnd & Hkeys & Hz); [constructor|constructor|].
  cbv zeta in Hnd, Hkeys, Hz.
  match goal with
  | |- context [foldl ?f [] (query_participants group_id db)] =>
      set (d1 := foldl f [] (query_participants group_id db)) in *
  end.
  match goal with
  | |- context [foldl ?f d1 (query_expenses group_id db)] =>
      set (d2 := foldl f d1 (query_expenses group_id db))
  end.
  assert (d2 = accumulate e_payer_id e_amount BalanceService.add_total_paid d1
                 (query_expenses group_id db)) as Hd2 by reflexivity.
  match goal with
  | |- context [foldl ?f d2 (query_splits group_id db)] =>
      set (d3 := foldl f d2 (query_splits group_id db))
  end.
  assert (d3 = accumulate s_participant_id s_amount BalanceService.add_total_share d2
                 (query_splits group_id db)) as Hd3 by reflexivity.
  assert (d2.*1 = d1.*1) as Hk2 by (rewrite Hd2; apply accumulate_keys).
  assert (d3.*1 = d1.*1) as Hk3 by (rewrite Hd3, accumulate_keys; exact Hk2).
  rewrite (dict_update_every_key BalanceService.set_net_balance d3)
    by (by rewrite Hk3).
  split.
  - rewrite net_balance_total.
    assert (dict_total BalanceService.total_paid d1 = 0) as Hp1.
    { apply dict_total_zero. eapply Forall_impl; [exact Hz|]. by intros ? [? ?]. }
    assert (dict_total BalanceService.total_share d1 = 0) as Hs1.
    { apply dict_total_zero. eapply Forall_impl; [exact Hz|]. by intros ? [? ?]. }
    assert (dict_total BalanceService.total_paid d3
            = sum (e_amount <$> query_expenses group_id db)) as ->.
    { rewrite Hd3, accumulate_total_same by done.
      rewrite Hd2, accumulate_total_add, Hp1; [lia|done|].
      intros e He. apply Hkeys. right. by apply Hpayers. }
    assert (dict_total BalanceService.total_share d3
            = sum (s_amount <$> query_splits group_id db)) as ->.
    { rewrite Hd3, accumulate_total_add; [|done|].
      - rewrite Hd2, accumulate_total_same, Hs1 by done. lia.
      - intros s Hs. rewrite Hk2. apply Hkeys. right. by apply Hsplits. }
    rewrite query_splits_total by done. lia.
  - apply Forall_fmap, Forall_true. by intros [k v].
Qed.

Lemma balances_conservation_witness :
  dict_total BalanceService.net_balance
    (BalanceService.calculate_participant_balances Sample.group Sample.db1) = 0
  ∧ (λ item, BalanceService.net_balance item.2)
      <$> BalanceService.calculate_participant_balances Sample.group Sample.db1
    = [6666; -833; -4333; -1500].
Proof.
  split; [|reflexivity].
  apply (balances_conservation Sample.group Sample.db1).
  - apply Forall_forall, (bool_decide_unpack _). vm_compute. exact I.
  - apply Forall_forall, (bool_decide_unpack _). vm_compute. exact I.
  - apply Forall_forall, (bool_decide_unpack _). vm_compute. exact I.
Defined.

(** ** Settlement suggestions *)

Section settlements.
Import BalanceService.

(** *** Separation and sorting *)

Lemma separate_spec (items : dict BalanceData) (cs ds : list Entry) :
  separate items cs ds = (cs ++ creditors_of items, ds ++ debtors_of items).
Proof.
  revert cs ds. induction items as [|[k b] items IH]; intros cs ds.
  - unfold creditors_of, debtors_of. simpl. by rewrite !app_nil_r.
  - cbn [separate]. unfold creditors_of, debtors_of in *.
    rewrite !filter_cons. cbn [fst snd].
    destruct (Z.gtb_spec (net_balance b) 1) as [Hc|Hc].
    + rewrite IH. rewrite decide_True, decide_False by lia.
      rewrite fmap_cons. cbn [fst snd]. by rewrite <- app_assoc.
    + rewrite decide_False by lia.
      destruct (Z.ltb_spec (net_balance b) (-1)) as [Hd|Hd].
      * rewrite IH, decide_True by lia.
        rewrite fmap_cons. cbn [fst snd]. by rewrite <- app_assoc.
      * rewrite IH, decide_False by lia. done.
Qed.

Lemma insert_desc_Permutation (x : Entry) (xs : list Entry) :
  insert_desc x xs ≡ₚ x :: xs.
Proof.
  induction xs as [|y ys IH]; simpl; [done|].
  destruct (en_amount x <? en_amount y); [|done].
  rewrite IH. apply Permutation_swap.
Qed.

Lemma sort_desc_Permutation (xs : list Entry) : sort_desc xs ≡ₚ xs.
Proof.
  induction xs as [|x xs IH]; simpl; [done|].
  unfold sort_desc in *. simpl. by rewrite insert_desc_Permutation, IH.
Qed.

Lemma insert_desc_Sorted (x : Entry) (xs : list Entry) :
  Sorted (λ a b, en_amount b ≤ en_amount a) xs →
  Sorted (λ a b, en_amount b ≤ en_amount a) (insert_desc x xs).
Proof.
  induction 1 as [|y ys Hys IH Hhd]; simpl; [by repeat constructor|].
  destruct (Z.ltb_spec (en_amount x) (en_amount y)).
  - constructor; [done|].
    destruct Hhd as [|z zs Hz]; simpl; [constructor; lia|].
    destruct (Z.ltb_spec (en_amount x) (en_amount z)); constructor; lia.
  - repeat constructor; [done|done|lia].
Qed.

Lemma sort_desc_Sorted (xs : list Entry) :
  Sorted (λ a b, en_amount b ≤ en_amount a) (sort_desc xs).
Proof.
  induction xs as [|x xs IH]; [constructor|].
  by apply insert_desc_Sorted.
Qed.

(** Items of equal amount keep their order, as [list.sort] guarantees. *)
Example sort_desc_stable :
  en_id <$> sort_desc [ {| en_id := 1; en_name := "A"; en_amount := 20 |};
                        {| en_id := 2; en_name := "B"; en_amount := 50 |};
                        {| en_id := 3; en_name := "C"; en_amount := 20 |};
                        {| en_id := 4; en_name := "D"; en_amount := 50 |} ]
  = [2; 4; 1; 3]%N.
Proof. reflexivity. Qed.

Lemma sum_Permutation (xs ys : list Z) : xs ≡ₚ ys → sum xs = sum ys.
Proof.
  induction 1 as [|x xs ys _ IH|x y xs|xs ys zs _ IH1 _ IH2].
  - done.
  - by rewrite !sum_cons, IH.
  - rewrite !sum_cons. lia.
  - by rewrite IH1.
Qed.

Lemma creditors_of_amounts (balances : dict BalanceData) :
  sum (en_amount <$> creditors_of balances) = owed_to_creditors balances
  ∧ Forall (λ x, 1 < en_amount x) (creditors_of balances).
Proof.
  unfold creditors_of, owed_to_creditors. split.
  - by rewrite <- list_fmap_compose.
  - rewrite Forall_fmap. apply Forall_forall. by intros item [? _]%list_elem_of_filter.
Qed.

Lemma debtors_of_amounts (balances : dict BalanceData) :
  sum (en_amount <$> debtors_of balances) = owed_by_debtors balances
  ∧ Forall (λ x, 1 < en_amount x) (debtors_of balances).
Proof.
  unfold debtors_of, owed_by_debtors. split.
  - rewrite <- list_fmap_compose. apply sum_fmap_ext.
    intros item [? _]%list_elem_of_filter. simpl. lia.
  - rewrite Forall_fmap. apply Forall_forall.
    intros item [? _]%list_elem_of_filter. simpl. lia.
Qed.

(** *** One iteration, seen on the remaining lists *)

Lemma drop_lookup_cons {A} (l : list A) (n : nat) (x : A) :
  l !! n = Some x → drop n l = x :: drop (S n) l.
Proof. intros H. by apply drop_S. Qed.

Lemma drop_insert_here {A} (l : list A) (n : nat) (x y : A) :
  l !! n = Some x → drop n (<[n:=y]> l) = y :: drop (S n) l.
Proof.
  intros H. assert (n < length l)%nat by (by eapply lookup_lt_Some).
  rewrite (drop_lookup_cons (<[n:=y]> l) n y) by (by apply list_lookup_insert_eq).
  by rewrite drop_insert_lt by lia.
Qed.

Lemma iteration_None (st : LoopState) :
  iteration st = None ↔ remaining_creditors st = [] ∨ remaining_debtors st = [].
Proof.
  unfold iteration, remaining_creditors, remaining_debtors.
  destruct (creditors st !! i st) as [c|] eqn:Hc.
  - rewrite (drop_lookup_cons _ _ _ Hc).
    destruct (debtors st !! j st) as [d|] eqn:Hd.
    + rewrite (drop_lookup_cons _ _ _ Hd). split; [done|by intros [?|?]].
    + split; [|done]. intros _. right. apply drop_ge. by apply lookup_ge_None.
  - split; [|done]. intros _. left. apply drop_ge. by apply lookup_ge_None.
Qed.

Lemma iteration_Some (st st' : LoopState) :
  iteration st = Some st' →
  ∃ c cs d ds,
    remaining_creditors st = c :: cs
    ∧ remaining_debtors st = d :: ds
    ∧ let a := Z.min (en_amount c) (en_amount d) in
      settlements st' = settlements st ++ [settlement_of d c a]
      ∧ remaining_creditors st'
        = (if en_amount c - a <? 1 then cs
           else set_amount (en_amount c - a) c :: cs)
      ∧ remaining_debtors st'
        = (if en_amount d - a <? 1 then ds
           else set_amount (en_amount d - a) d :: ds).
Proof.
  unfold iteration, remaining_creditors, remaining_debtors.
  destruct (creditors st !! i st) as [c|] eqn:Hc; [|done].
  destruct (debtors st !! j st) as [d|] eqn:Hd; [|done].
  intros [= <-]. exists c, (drop (S (i st)) (creditors st)),
                   d, (drop (S (j st)) (debtors st)).
  split; [by apply drop_lookup_cons|]. split; [by apply drop_lookup_cons|].
  cbn [settlements creditors debtors i j en_amount set_amount].
  split; [done|]. split.
  - destruct (_ <? 1).
    + by rewrite drop_insert_lt by lia.
    + by eapply drop_insert_here.
  - destruct (_ <? 1).
    + by rewrite drop_insert_lt by lia.
    + by eapply drop_insert_here.
Qed.

(** *** The loop *)

Lemma while_invariant (P : LoopState → Prop) (fuel : nat) (st st' : LoopState) :
  (∀ s s', P s → iteration s = Some s' → P s') →
  P st → while fuel st = Some st' → P st' ∧ iteration st' = None.
Proof.
  intros Hstep. revert st. induction fuel as [|fuel IH]; intros st HP; simpl.
  - destruct (iteration st) eqn:Hit; [done|]. by intros [= <-].
  - destruct (iteration st) as [s|] eqn:Hit.
    + apply IH. by eapply Hstep.
    + by intros [= <-].
Qed.

(** Every iteration passes at least one pointer, so the loop ends within
    as many iterations as there are creditors and debtors left. *)
Lemma while_terminates (fuel : nat) (st : LoopState) :
  (length (remaining_creditors st) + length (remaining_debtors st) ≤ fuel)%nat →
  ∃ st', while fuel st = Some st'.
Proof.
  revert st. induction fuel as [|fuel IH]; intros st Hfuel; simpl.
  - destruct (iteration st) as [s|] eqn:Hit; [|by eexists].
    apply iteration_Some in Hit as (c & cs & d & ds & Hc & Hd & _).
    rewrite Hc, Hd in Hfuel. simpl in Hfuel. lia.
  - destruct (iteration st) as [s|] eqn:Hit; [|by eexists].
    apply IH.
    apply iteration_Some in Hit as (c & cs & d & ds & Hc & Hd & _ & Hc' & Hd').
    rewrite Hc, Hd in Hfuel. rewrite Hc', Hd'. simpl in Hfuel.
    destruct (Z.ltb_spec (en_amount c - Z.min (en_amount c) (en_amount d)) 1);
      destruct (Z.ltb_spec (en_amount d - Z.min (en_amount c) (en_amount d)) 1);
      simpl; lia.
Qed.

(** *** The invariant *)

Lemma sum_nonneg (xs : list Z) : Forall (λ x, 0 < x) xs → 0 ≤ sum xs.
Proof.
  induction 1 as [|x xs Hx _ IH]; [by rewrite sum_nil|]. rewrite sum_cons. lia.
Qed.

Lemma settle_invariant_init (cs0 ds0 : list Entry) :
  Forall (λ x, 1 < en_amount x) cs0 →
  Forall (λ x, 1 < en_amount x) ds0 →
  settle_invariant cs0 ds0
    {| creditors := cs0; debtors := ds0; i := 0; j := 0; settlements := [] |}.
Proof.
  intros Hc Hd.
  split; unfold remaining_creditors, remaining_debtors; simpl;
    rewrite ?sum_nil; try done.
  - eapply Forall_impl; [exact Hc|]. simpl. lia.
  - eapply Forall_impl; [exact Hd|]. simpl. lia.
  - apply Forall_forall. intros x Hx. by apply list_elem_of_fmap_2.
  - apply Forall_forall. intros x Hx. by apply list_elem_of_fmap_2.
Qed.

Lemma settle_invariant_step (cs0 ds0 : list Entry) (st st' : LoopState) :
  settle_invariant cs0 ds0 st → iteration st = Some st' →
  settle_invariant cs0 ds0 st'.
Proof.
  intros [Hcp Hdp Hsp Hct Hdt Hci Hdi Hsi]
         (c & cs & d & ds & Hc & Hd & Hs' & Hc' & Hd')%iteration_Some.
  rewrite Hc in Hcp, Hct, Hci. rewrite Hd in Hdp, Hdt, Hdi.
  apply Forall_cons in Hcp as [Hc0 Hcp]. apply Forall_cons in Hdp as [Hd0 Hdp].
  apply Forall_cons in Hci as [Hcid Hci]. apply Forall_cons in Hdi as [Hdid Hdi].
  rewrite fmap_cons, sum_cons in Hct, Hdt.
  set (a := Z.min (en_amount c) (en_amount d)) in *.
  assert (0 < a ≤ en_amount c ∧ a ≤ en_amount d) as Ha by (unfold a; lia).
  split; rewrite ?Hs', ?Hc', ?Hd', ?fmap_app, ?sum_app; simpl;
    rewrite ?sum_cons, ?sum_nil.
  - destruct (Z.ltb_spec (en_amount c - a) 1); [done|].
    apply Forall_cons. split; [simpl; lia|done].
  - destruct (Z.ltb_spec (en_amount d - a) 1); [done|].
    apply Forall_cons. split; [simpl; lia|done].
  - apply Forall_app. split; [done|]. apply Forall_singleton. simpl. lia.
  - destruct (Z.ltb_spec (en_amount c - a) 1);
      rewrite ?fmap_cons, ?sum_cons; simpl; lia.
  - destruct (Z.ltb_spec (en_amount d - a) 1);
      rewrite ?fmap_cons, ?sum_cons; simpl; lia.
  - destruct (Z.ltb_spec (en_amount c - a) 1); [done|].
    apply Forall_cons. by split.
  - destruct (Z.ltb_spec (en_amount d - a) 1); [done|].
    apply Forall_cons. by split.
  - apply Forall_app. split; [done|]. by apply Forall_singleton.
Qed.

(** The suggestions are produced, and the state they are read from
    satisfies the invariant with one of the two lists used up. *)
Lemma generate_settlement_suggestions_final (balances : dict BalanceData) :
  ∃ st,
    generate_settlement_suggestions balances = Some (settlements st)
    ∧ settle_invariant (sort_desc (creditors_of balances))
                       (sort_desc (debtors_of balances)) st
    ∧ (remaining_creditors st = [] ∨ remaining_debtors st = []).
Proof.
  unfold generate_settlement_suggestions.
  rewrite separate_spec. simpl.
  set (cs0 := sort_desc (creditors_of balances)).
  set (ds0 := sort_desc (debtors_of balances)).
  set (st0 := {| creditors := cs0; debtors := ds0; i := 0; j := 0;
                 settlements := [] |}).
  destruct (while_terminates (length cs0 + length ds0) st0) as [st Hst]; [done|].
  exists st. rewrite Hst. split; [done|].
  assert (settle_invariant cs0 ds0 st0) as Hinit.
  { apply settle_invariant_init; unfold cs0, ds0.
    - rewrite sort_desc_Permutation. apply creditors_of_amounts.
    - rewrite sort_desc_Permutation. apply debtors_of_amounts. }
  destruct (while_invariant (settle_invariant cs0 ds0) _ _ _
              (settle_invariant_step cs0 ds0) Hinit Hst) as [Hinv Hend].
  split; [done|]. by apply iteration_None.
Qed.

Lemma total_amount_sum (settlement_data : list SettlementDict) :
  Balances.total_amount (Balances.build_suggestion settlement_data)
  = sum (amount <$> settlement_data).
Proof.
  unfold Balances.build_suggestion, sum. simpl.
  generalize 0. induction settlement_data as [|s ss IH]; intros z; simpl; [done|].
  apply IH.
Qed.

Lemma dict_value_unique {V} (d : dict V) (k : UUID) (v1 v2 : V) :
  NoDup d.*1 → (k, v1) ∈ d → (k, v2) ∈ d → v1 = v2.
Proof.
  induction d as [|[k0 v0] d IH]; [by intros _ ?%elem_of_nil|].
  rewrite fmap_cons, NoDup_cons, !elem_of_cons. simpl. intros [Hk0 Hnd] H1 H2.
  assert (∀ v, (k0, v) ∈ d → False) as Hno.
  { intros v Hv. apply Hk0. by apply (list_elem_of_fmap_2 fst) in Hv. }
  destruct H1 as [H1|H1], H2 as [H2|H2]; simplify_eq; try done.
  - by destruct (Hno v2).
  - by destruct (Hno v1).
  - by apply IH.
Qed.

Lemma creditors_of_ids (balances : dict BalanceData) (k : UUID) :
  k ∈ en_id <$> sort_desc (creditors_of balances) →
  ∃ b, (k, b) ∈ balances ∧ 1 < net_balance b.
Proof.
  rewrite sort_desc_Permutation. unfold creditors_of.
  rewrite <- list_fmap_compose.
  intros ([k' b] & -> & [Hb Hin]%list_elem_of_filter)%list_elem_of_fmap.
  by exists b.
Qed.

Lemma debtors_of_ids (balances : dict BalanceData) (k : UUID) :
  k ∈ en_id <$> sort_desc (debtors_of balances) →
  ∃ b, (k, b) ∈ balances ∧ net_balance b < -1.
Proof.
  rewrite sort_desc_Permutation. unfold debtors_of.
  rewrite <- list_fmap_compose.
  intros ([k' b] & -> & [Hb Hin]%list_elem_of_filter)%list_elem_of_fmap.
  by exists b.
Qed.

Lemma sorted_amounts_total (xs : list Entry) :
  sum (en_amount <$> sort_desc xs) = sum (en_amount <$> xs).
Proof. apply sum_Permutation. by rewrite sort_desc_Permutation. Qed.

(** Without a balance of exactly 0.01 in absolute value, the creditors are
    the participants with a positive balance and the debtors those with a
    negative one. *)
Lemma owed_without_dust (balances : dict BalanceData) :
  Forall (λ item, Z.abs (net_balance item.2) ≠ 1) balances →
  total_owed balances = owed_to_creditors balances
  ∧ dict_total net_balance balances
    = owed_to_creditors balances - owed_by_debtors balances.
Proof.
  unfold total_owed, owed_to_creditors, owed_by_debtors, dict_total.
  induction 1 as [|[k b] balances Hb _ [IH1 IH2]]; [done|].
  rewrite !filter_cons, !fmap_cons, !sum_cons, IH1, IH2. simpl in *.
  repeat case_decide; rewrite ?fmap_cons, ?sum_cons; simpl; lia.
Qed.
End settlements.

(** The settlements of {A: +50.00, B: -30.00, C: -20.00}: B pays A 30.00,
    then C pays A 20.00. *)
Example settlements_of_owed_fifty :
  BalanceService.generate_settlement_suggestions Sample.owed_fifty
  = Some [settlement_of (BalanceService.Build_Entry 2 "B" 0)
                        (BalanceService.Build_Entry 1 "A" 0) 3000;
          settlement_of (BalanceService.Build_Entry 3 "C" 0)
                        (BalanceService.Build_Entry 1 "A" 0) 2000].
Proof. reflexivity. Qed.

(** C3, as stated, fails: with the balances {A: +0.03, B: -0.01, C: -0.01,
    D: -0.01}, which sum to zero, no participant is below -0.01, so no
    settlement is suggested and the total transferred is 0.00, while
    sum(max(0, net_balance)) is 0.03. *)
Lemma settlement_total_ignores_dust :
  dict_total BalanceService.net_balance Sample.three_cents = 0
  ∧ BalanceService.generate_settlement_suggestions Sample.three_cents = Some []
  ∧ Balances.total_amount (Balances.build_suggestion []) = 0
  ∧ total_owed Sample.three_cents = 3
  ∧ Balances.total_amount (Balances.build_suggestion [])
    ≠ total_owed Sample.three_cents.
Proof. by repeat split. Qed.

(** C3, amended.  For every balance dictionary the suggestions are
    produced, and their total amount is the smaller of what the creditors
    (net balance above 0.01) are owed and what the debtors (net balance below
    -0.01) owe.  When the net balances sum to zero and none of them is
    exactly +0.01 or -0.01, this total is sum(max(0, net_balance)). *)
Theorem settlement_total_amount (balances : dict BalanceService.BalanceData) :
  ∃ plan,
    BalanceService.generate_settlement_suggestions balances = Some plan
    ∧ Balances.total_amount (Balances.build_suggestion plan)
      = Z.min (owed_to_creditors balances) (owed_by_debtors balances)
    ∧ (dict_total BalanceService.net_balance balances = 0 →
       Forall (λ item, Z.abs (BalanceService.net_balance item.2) ≠ 1) balances →
       Balances.total_amount (Balances.build_suggestion plan) = total_owed balances).
Proof.
  destruct (generate_settlement_suggestions_final balances)
    as (st & Hgen & [Hcp Hdp _ Hct Hdt _ _ _] & Hend).
  exists (BalanceService.settlements st). split; [done|].
  rewrite total_amount_sum.
  rewrite sorted_amounts_total in Hct, Hdt.
  rewrite (proj1 (creditors_of_amounts balances)) in Hct.
  rewrite (proj1 (debtors_of_amounts balances)) in Hdt.
  assert (0 ≤ sum (BalanceService.en_amount <$> remaining_creditors st)) as Hc0
    by (apply sum_nonneg; by rewrite Forall_fmap).
  assert (0 ≤ sum (BalanceService.en_amount <$> remaining_debtors st)) as Hd0
    by (apply sum_nonneg; by rewrite Forall_fmap).
  assert (sum (BalanceService.amount <$> BalanceService.settlements st)
          = Z.min (owed_to_creditors balances) (owed_by_debtors balances)) as Hmin.
  { destruct Hend as [Hnil|Hnil]; rewrite Hnil in *;
      rewrite fmap_nil, sum_nil in *; lia. }
  split; [done|]. intros Hzero Hdust.
  destruct (owed_without_dust balances Hdust) as [-> Hnet]. lia.
Qed.

Lemma settlement_total_amount_witness :
  ∃ plan,
    BalanceService.generate_settlement_suggestions Sample.owed_fifty = Some plan
    ∧ Balances.total_amount (Balances.build_suggestion plan) = 5000.
Proof.
  destruct (settlement_total_amount Sample.owed_fifty) as (plan & Hgen & _ & Htotal).
  exists plan. split; [exact Hgen|].
  rewrite Htotal; [reflexivity|reflexivity|].
  apply (bool_decide_unpack _). vm_compute. exact I.
Defined.

(** C9.  For every balance dictionary the suggestions are produced, and
    every one of them has a strictly positive amount. *)
Theorem settlement_amounts_positive (balances : dict BalanceService.BalanceData) :
  ∃ plan,
    BalanceService.generate_settlement_suggestions balances = Some plan
    ∧ Forall (λ s, 0 < BalanceService.amount s) plan.
Proof.
  destruct (generate_settlement_suggestions_final balances)
    as (st & Hgen & Hinv & _).
  exists (BalanceService.settlements st). split; [done|].
  apply (inv_settlements_positive _ _ _ Hinv).
Qed.

(** C10.  For every balance dictionary (its keys being distinct, as the
    keys of a dictionary are) the suggestions are produced, and none of them
    is a transfer from a participant to itself: the payer has a net balance
    below -0.01 and the receiver one above 0.01. *)
Theorem settlement_no_self_transfer (balances : dict BalanceService.BalanceData) :
  NoDup balances.*1 →
  ∃ plan,
    BalanceService.generate_settlement_suggestions balances = Some plan
    ∧ Forall (λ s, BalanceService.from_participant_id s
                   ≠ BalanceService.to_participant_id s
                   ∧ (∃ b, (BalanceService.from_participant_id s, b) ∈ balances
                           ∧ BalanceService.net_balance b < -1)
                   ∧ (∃ b, (BalanceService.to_participant_id s, b) ∈ balances
                           ∧ 1 < BalanceService.net_balance b)) plan.
Proof.
  intros Hnd.
  destruct (generate_settlement_suggestions_final balances)
    as (st & Hgen & Hinv & _).
  exists (BalanceService.settlements st). split; [done|].
  eapply Forall_impl; [apply (inv_settlements_ids _ _ _ Hinv)|].
  intros s [(bd & Hd & Hdneg)%debtors_of_ids (bc & Hc & Hcpos)%creditors_of_ids].
  split; [|split; [by exists bd|by exists bc]]. intros Heq. rewrite Heq in Hd.
  assert (bd = bc) as -> by (by eapply dict_value_unique). lia.
Qed.

Lemma settlement_no_self_transfer_witness :
  ∃ plan,
    BalanceService.generate_settlement_suggestions Sample.owed_fifty = Some plan
    ∧ Forall (λ s, BalanceService.from_participant_id s
                   ≠ BalanceService.to_participant_id s) plan.
Proof.
  destruct (settlement_no_self_transfer Sample.owed_fifty) as (plan & Hgen & Hplan).
  - apply (bool_decide_unpack _). vm_compute. exact I.
  - exists plan. split; [exact Hgen|].
    eapply Forall_impl; [exact Hplan|]. by intros s [? _].
Defined.

(** * Further properties of the code *)

(** ** Rounding, percentages of a total, and the palette *)

(** Half-even rounding returns a nearest integer, and an even one on a tie. *)
Lemma round_half_even_nearest (num den : Z) :
  0 < den →
  let r := Helpers.round_half_even num den in
  2 * Z.abs (den * r - num) ≤ den
  ∧ (2 * Z.abs (den * r - num) = den → Z.even r = true).
Proof.
  intros Hden. unfold Helpers.round_half_even.
  pose proof (Z.div_mod num den ltac:(lia)) as Hdm.
  pose proof (Z.mod_pos_bound num den Hden) as Hm.
  set (q := num / den) in *. set (m := num mod den) in *.
  destruct (Z.ltb_spec (2 * m) den) as [H1|H1]; simpl.
  - split; [nia|]. intros. nia.
  - destruct (Z.ltb_spec den (2 * m)) as [H2|H2]; simpl.
    + split; [nia|]. intros. nia.
    + destruct (Z.even q) eqn:Hq; simpl.
      * split; [nia|done].
      * split; [nia|]. intros _.
        rewrite Z.even_add, Hq. reflexivity.
Qed.

(** [calculate_percentage_amount] raises exactly for a percentage outside
    [0, 100]; otherwise its result is within half a cent of the exact
    share, lies between 0 and the total when the total is not negative, and
    is the amount that the percentage mode of [validate_and_create_splits]
    computes for the same line. *)
Theorem calculate_percentage_amount_spec (total percentage : Z) :
  (0 ≤ percentage ≤ 10000 →
   ∃ a, Helpers.calculate_percentage_amount total percentage = Ok a
        ∧ 2 * Z.abs (10000 * a - total * percentage) ≤ 10000
        ∧ (0 ≤ total → 0 ≤ a ≤ total)
        ∧ a = Expenses.percentage_amount total percentage)
  ∧ (percentage < 0 ∨ 10000 < percentage →
     Helpers.calculate_percentage_amount total percentage
     = Raise (ValueError [Text "Percentage must be between 0 and 100"])).
Proof.
  unfold Helpers.calculate_percentage_amount. split.
  - intros Hp.
    destruct (Z.ltb_spec percentage 0); [lia|].
    destruct (Z.ltb_spec 10000 percentage); [lia|]. simpl.
    eexists. split; [done|].
    destruct (round_half_even_nearest (total * percentage) 10000 ltac:(lia))
      as [Hnear _].
    unfold Helpers.round_decimal. split; [exact Hnear|]. split; [|done].
    intros Ht. nia.
  - intros Hp.
    destruct (Z.ltb_spec percentage 0); [done|].
    destruct (Z.ltb_spec 10000 percentage); [done|lia].
Qed.

Lemma calculate_percentage_amount_spec_witness :
  0 ≤ 3333 ≤ 10000
  ∧ Helpers.calculate_percentage_amount 10000 3333 = Ok 3333
  ∧ Helpers.calculate_percentage_amount 10000 10001
    = Raise (ValueError [Text "Percentage must be between 0 and 100"]).
Proof.
  destruct (calculate_percentage_amount_spec 10000 3333) as [H _].
  destruct (H ltac:(lia)) as (a & Ha & _ & _ & ->).
  split; [lia|]. split; [exact Ha|].
  destruct (calculate_percentage_amount_spec 10000 10001) as [_ H']. apply H'. lia.
Defined.

(** The adjustment of the first share is at most half a cent per
    participant: in [split_amount_equally] every share but the first is the
    amount over n rounded to the cent, and the first differs from it by
    amount - n * base, which is at most n/2 cents in absolute value. *)
Theorem split_amount_equally_adjustment (amount n : Z) :
  1 ≤ n →
  ∃ first base,
    Helpers.split_amount_equally amount n
    = Ok (first :: replicate (Z.to_nat n - 1) base)
    ∧ 2 * Z.abs (n * base - amount) ≤ n
    ∧ first - base = amount - n * base
    ∧ 2 * Z.abs (first - base) ≤ n.
Proof.
  intros Hn.
  pose proof (split_amount_equally_shares amount n Hn) as Hshares.
  simpl in Hshares. unfold Helpers.round_decimal in Hshares.
  destruct (round_half_even_nearest amount n ltac:(lia)) as [Hnear _].
  simpl in Hnear.
  eexists _, _. split; [exact Hshares|]. split; [exact Hnear|]. lia.
Qed.

Lemma split_amount_equally_adjustment_witness :
  1 ≤ 3
  ∧ ∃ first base,
      Helpers.split_amount_equally 10000 3 = Ok (first :: replicate 2 base)
      ∧ 2 * Z.abs (first - base) ≤ 3.
Proof.
  split; [lia|].
  destruct (split_amount_equally_adjustment 10000 3 ltac:(lia))
    as (first & base & Heq & _ & _ & Hb).
  exists first, base. split; [exact Heq|exact Hb].
Defined.

(** For a group of at most four and an amount that is not negative,
    [split_amount_equally] returns no negative share.  (The rounding to the
    even cent on a tie is what keeps the first share of 0.02 over four at
    0.02 rather than -0.01.) *)
Theorem split_amount_equally_nonnegative (amount n : Z) :
  0 ≤ amount → 1 ≤ n ≤ 4 →
  ∃ shares, Helpers.split_amount_equally amount n = Ok shares
            ∧ Forall (λ share, 0 ≤ share) shares.
Proof.
  intros Ha Hn.
  pose proof (split_amount_equally_shares amount n ltac:(lia)) as Hshares.
  simpl in Hshares. unfold Helpers.round_decimal in Hshares.
  destruct (round_half_even_nearest amount n ltac:(lia)) as [Hnear Heven].
  simpl in Hnear, Heven.
  set (base := Helpers.round_half_even amount n) in *.
  eexists. split; [exact Hshares|].
  assert (0 ≤ base) as Hbase by nia.
  apply Forall_cons. split; [|apply Forall_replicate; lia].
  destruct (Z.eq_dec (2 * Z.abs (n * base - amount)) n) as [Htie|Hno].
  - apply Heven in Htie as Hev.
    apply Z.even_spec in Hev as [h Hh]. nia.
  - nia.
Qed.

Lemma split_amount_equally_nonnegative_witness :
  0 ≤ 2 ∧ 1 ≤ 4 ≤ 4
  ∧ ∃ shares, Helpers.split_amount_equally 2 4 = Ok shares
              ∧ Forall (λ share, 0 ≤ share) shares.
Proof.
  split; [lia|]. split; [lia|].
  apply (split_amount_equally_nonnegative 2 4); lia.
Defined.

(** [get_color_for_index] never raises, whatever the sign of the index: it
    returns a colour of the palette, and two indices get the same colour
    exactly when they are congruent modulo four. *)
Theorem get_color_for_index_spec (index index' : Z) :
  (∃ color, Helpers.get_color_for_index index = Ok color
            ∧ color ∈ Helpers.colors)
  ∧ (Helpers.get_color_for_index index = Helpers.get_color_for_index index'
     ↔ index `mod` 4 = index' `mod` 4).
Proof.
  unfold Helpers.get_color_for_index.
  change (Z.of_nat (length Helpers.colors)) with 4.
  pose proof (Z.mod_pos_bound index 4 ltac:(lia)) as Hm.
  pose proof (Z.mod_pos_bound index' 4 ltac:(lia)) as Hm'.
  assert (∀ m, 0 ≤ m < 4 → m = 0 ∨ m = 1 ∨ m = 2 ∨ m = 3) as Hcases by lia.
  destruct (Hcases _ Hm) as [-> | [-> | [-> | ->]]];
    destruct (Hcases _ Hm') as [-> | [-> | [-> | ->]]];
    (split; [eexists; split; [reflexivity|]; apply (bool_decide_unpack _); reflexivity
            |split; [intros H; try reflexivity; discriminate H
                    |intros H; try reflexivity; discriminate H]]).
Qed.

(** ** The rows written by [validate_and_create_splits] *)

Section split_rows.
Import Schemas Expenses.

Lemma check_participants_first_invalid (valid : list UUID) (pre post : list UUID)
    (pid : UUID) :
  Forall (λ p, p ∈ valid) pre → pid ∉ valid →
  check_participants valid (pre ++ pid :: post)
  = Raise (HTTPException HTTP_400_BAD_REQUEST
             [Text "Participant "; Uuid pid; Text " not found in this group"]).
Proof.
  intros Hpre Hpid. induction Hpre as [|p pre Hp _ IH]; simpl.
  - by rewrite decide_False.
  - by rewrite decide_True.
Qed.

Lemma check_participants_Ok_inv (valid pids : list UUID) :
  check_participants valid pids = Ok () → Forall (λ p, p ∈ valid) pids.
Proof.
  induction pids as [|p pids IH]; simpl; [constructor|].
  destruct (decide (p ∈ valid)); [|done]. intros H. constructor; auto.
Qed.

(** What one loop of the three leaves in the session: the rows it appends
    match the request, split by split. *)
Lemma add_equal_splits_Ok expense (shares : list Z) (k : nat) splits_data db db' :
  add_equal_splits expense shares k splits_data db = Ok db' →
  participants db' = participants db
  ∧ expenses db' = expenses db
  ∧ ∃ rows,
      expense_splits db' = expense_splits db ++ rows
      ∧ Forall2 (λ sd row, s_expense_id row = e_id expense
                           ∧ s_participant_id row = sc_participant_id sd
                           ∧ s_percentage row = None) splits_data rows
      ∧ s_amount <$> rows = take (length splits_data) (drop k shares).
Proof.
  revert k db. induction splits_data as [|sd sds IH]; intros k db; simpl.
  - intros [= <-]. split; [done|]. split; [done|]. exists [].
    by rewrite app_nil_r.
  - destruct (shares !! k) as [a|] eqn:Hk; [|done].
    intros (Hp & He & rows & Hs & Hrows & Ha)%IH. simpl in *.
    split; [done|]. split; [done|].
    eexists (_ :: rows). split; [by rewrite Hs, <- app_assoc|].
    split; [by constructor|].
    rewrite (drop_S _ _ _ Hk). simpl. f_equal. exact Ha.
Qed.

Lemma add_equal_splits_enough expense (shares : list Z) (k : nat) splits_data db :
  (length splits_data + k ≤ length shares)%nat →
  ∃ db', add_equal_splits expense shares k splits_data db = Ok db'.
Proof.
  revert k db. induction splits_data as [|sd sds IH]; intros k db Hlen; simpl.
  - by eexists.
  - simpl in Hlen. destruct (lookup_lt_is_Some_2 shares k ltac:(lia)) as [a ->].
    apply IH. lia.
Qed.

Lemma add_custom_splits_Forall2 expense splits_data db :
  ∃ rows,
    expense_splits (add_custom_splits expense splits_data db) = expense_splits db ++ rows
    ∧ Forall2 (λ sd row, s_expense_id row = e_id expense
                         ∧ s_participant_id row = sc_participant_id sd
                         ∧ s_percentage row = None) splits_data rows
    ∧ s_amount <$> rows = sc_amount <$> splits_data.
Proof.
  destruct (add_custom_splits_rows expense splits_data db) as (_ & _ & ->).
  eexists. split; [done|]. split.
  - apply Forall2_fmap_r, Forall_Forall2_diag, Forall_true. by intros sd.
  - by rewrite <- list_fmap_compose.
Qed.

Lemma add_percentage_splits_Ok expense splits_data db db' :
  add_percentage_splits expense splits_data db = Ok db' →
  participants db' = participants db
  ∧ expenses db' = expenses db
  ∧ ∃ rows,
      expense_splits db' = expense_splits db ++ rows
      ∧ Forall2 (λ sd row, s_expense_id row = e_id expense
                           ∧ s_participant_id row = sc_participant_id sd
                           ∧ s_percentage row = sc_percentage sd
                           ∧ ∃ p, sc_percentage sd = Some p
                                  ∧ s_amount row = percentage_amount (e_amount expense) p)
                splits_data rows.
Proof.
  revert db. induction splits_data as [|sd sds IH]; intros db; simpl.
  - intros [= <-]. split; [done|]. split; [done|]. exists [].
    by rewrite app_nil_r.
  - destruct (sc_percentage sd) as [p|] eqn:Hp; [|done].
    intros (Hp' & He & rows & Hs & Hrows)%IH. simpl in *.
    split; [done|]. split; [done|].
    eexists (_ :: rows). split; [by rewrite Hs, <- app_assoc|].
    constructor; [|done]. simpl. rewrite Hp. repeat split. by exists p.
Qed.

Lemma sum_percentages_missing (acc : Z) (percentages : list (option Z)) :
  None ∈ percentages → sum_percentages acc percentages = Raise TypeError.
Proof.
  revert acc. induction percentages as [|[p|] ps IH]; intros acc.
  - by intros ?%elem_of_nil.
  - rewrite elem_of_cons. intros [?|?]; [done|]. simpl. by apply IH.
  - done.
Qed.
End split_rows.

(** A split for a participant who is not in the expense's group is refused,
    in every split mode and before anything is written: the call raises
    the 400 error that names the first such participant of the request. *)
Theorem unknown_participant_rejected expense pre split_data post db :
  Forall (λ sd, Schemas.sc_participant_id sd
                ∈ p_id <$> query_participants (e_group_id expense) db) pre →
  Schemas.sc_participant_id split_data
    ∉ p_id <$> query_participants (e_group_id expense) db →
  Expenses.validate_and_create_splits expense (pre ++ split_data :: post) db
  = Raise (HTTPException HTTP_400_BAD_REQUEST
             [Text "Participant "; Uuid (Schemas.sc_participant_id split_data);
              Text " not found in this group"]).
Proof.
  intros Hpre Hbad. unfold Expenses.validate_and_create_splits. cbv zeta.
  rewrite (fmap_app Schemas.sc_participant_id), (fmap_cons Schemas.sc_participant_id).
  rewrite (check_participants_first_invalid _ _ _ (Schemas.sc_participant_id split_data));
    [done| |done].
  by rewrite Forall_fmap.
Qed.

Lemma unknown_participant_rejected_witness :
  Expenses.validate_and_create_splits (Sample.expense EQUAL 10000)
    [Sample.split_data Sample.alice 1 None;
     {| Schemas.sc_participant_id := 77; Schemas.sc_amount := 1;
        Schemas.sc_percentage := None |};
     Sample.split_data Sample.bob 1 None] Sample.db0
  = Raise (HTTPException HTTP_400_BAD_REQUEST
             [Text "Participant "; Uuid 77; Text " not found in this group"]).
Proof.
  apply (unknown_participant_rejected (Sample.expense EQUAL 10000)
           [Sample.split_data Sample.alice 1 None]
           {| Schemas.sc_participant_id := 77; Schemas.sc_amount := 1;
              Schemas.sc_percentage := None |}
           [Sample.split_data Sample.bob 1 None] Sample.db0).
  - apply (bool_decide_unpack _). vm_compute. exact I.
  - apply (bool_decide_unpack _). vm_compute. exact I.
Defined.

(** In the equal mode, with every split participant in the group, an empty
    request escapes as the [ValueError] of [split_amount_equally] (not as a
    400), and a request of n >= 1 splits appends exactly one row per split,
    in order, for that participant and without a percentage; the amounts of
    the rows are the shares of [split_amount_equally], whatever amounts the
    request carried, and they sum to the expense amount. *)
Theorem equal_mode_rows expense splits_data db :
  e_split_mode expense = EQUAL →
  Forall (λ sd, Schemas.sc_participant_id sd
                ∈ p_id <$> query_participants (e_group_id expense) db) splits_data →
  let r := Expenses.validate_and_create_splits expense splits_data db in
  (splits_data = [] →
   r = Raise (ValueError [Text "Number of participants must be positive"]))
  ∧ (splits_data ≠ [] →
     ∃ db' rows,
       r = Ok db'
       ∧ participants db' = participants db
       ∧ expenses db' = expenses db
       ∧ expense_splits db' = expense_splits db ++ rows
       ∧ Forall2 (λ sd row, s_expense_id row = e_id expense
                            ∧ s_participant_id row = Schemas.sc_participant_id sd
                            ∧ s_percentage row = None) splits_data rows
       ∧ Helpers.split_amount_equally (e_amount expense)
           (Z.of_nat (length splits_data)) = Ok (s_amount <$> rows)
       ∧ sum (s_amount <$> rows) = e_amount expense).
Proof.
  intros Hmode Hvalid r. subst r. unfold Expenses.validate_and_create_splits.
  rewrite (check_participants_splits_data _ _ Hvalid), Hmode. simpl. split.
  - by intros ->.
  - intros Hne.
    assert (1 ≤ Z.of_nat (length splits_data)) as Hn by (destruct splits_data; simpl; [done|lia]).
    destruct (split_amount_equally_sum (e_amount expense) _ Hn)
      as (shares & Hshares & Hlen & Hsum).
    rewrite Hshares. simpl. rewrite Nat2Z.id in Hlen.
    destruct (add_equal_splits_enough expense shares 0 splits_data db ltac:(lia))
      as [db' Hdb'].
    destruct (add_equal_splits_Ok _ _ _ _ _ _ Hdb')
      as (Hp & He & rows & Hs & Hrows & Ha).
    rewrite drop_0, take_ge in Ha by lia.
    exists db', rows. by rewrite Ha.
Qed.

Lemma equal_mode_rows_witness :
  ∃ db' rows,
    Expenses.validate_and_create_splits (Sample.expense EQUAL 10000)
      [Sample.split_data Sample.alice 1 None; Sample.split_data Sample.bob 1 None;
       Sample.split_data Sample.carol 9 None] Sample.db0 = Ok db'
    ∧ expense_splits db' = expense_splits Sample.db0 ++ rows
    ∧ sum (s_amount <$> rows) = 10000.
Proof.
  destruct (equal_mode_rows (Sample.expense EQUAL 10000)
              [Sample.split_data Sample.alice 1 None; Sample.split_data Sample.bob 1 None;
               Sample.split_data Sample.carol 9 None] Sample.db0) as [_ H].
  - reflexivity.
  - apply (bool_decide_unpack _). vm_compute. exact I.
  - destruct (H ltac:(discriminate)) as (db' & rows & Hr & _ & _ & Hs & _ & _ & Hsum).
    exists db', rows. split; [exact Hr|]. split; [exact Hs|exact Hsum].
Defined.

(** In the percentage mode a request in which some split has no percentage
    is not answered with a 400: summing the percentages raises [TypeError]. *)
Theorem percentage_missing_raises_TypeError expense splits_data db :
  e_split_mode expense = PERCENTAGE →
  Forall (λ sd, Schemas.sc_participant_id sd
                ∈ p_id <$> query_participants (e_group_id expense) db) splits_data →
  Exists (λ sd, Schemas.sc_percentage sd = None) splits_data →
  Expenses.validate_and_create_splits expense splits_data db = Raise TypeError.
Proof.
  intros Hmode Hvalid Hmissing. unfold Expenses.validate_and_create_splits.
  rewrite (check_participants_splits_data _ _ Hvalid), Hmode. simpl.
  rewrite sum_percentages_missing; [done|].
  apply Exists_exists in Hmissing as (sd & Hsd & Hnone).
  rewrite <- Hnone. by apply list_elem_of_fmap_2.
Qed.

Lemma percentage_missing_raises_TypeError_witness :
  Expenses.validate_and_create_splits (Sample.expense PERCENTAGE 10000)
    [Sample.split_data Sample.alice 1 (Some 5000); Sample.split_data Sample.bob 1 None]
    Sample.db0 = Raise TypeError.
Proof.
  apply percentage_missing_raises_TypeError.
  - reflexivity.
  - apply (bool_decide_unpack _). vm_compute. exact I.
  - apply Exists_cons_tl, Exists_cons_hd. reflexivity.
Defined.

Lemma percentage_rows_drift (A : Z) splits_data (rows : list ExpenseSplit) :
  Forall2 (λ sd row, ∃ p, Schemas.sc_percentage sd = Some p
                          ∧ s_amount row = Expenses.percentage_amount A p)
          splits_data rows →
  2 * Z.abs (10000 * sum (s_amount <$> rows)
             - A * sum (omap Schemas.sc_percentage splits_data))
  ≤ 10000 * Z.of_nat (length splits_data).
Proof.
  induction 1 as [|sd row sds rows (p & Hp & Hrow) _ IH].
  - simpl. change (sum []) with 0. lia.
  - rewrite fmap_cons, sum_cons, Hrow.
    replace (omap Schemas.sc_percentage (sd :: sds))
      with (p :: omap Schemas.sc_percentage sds) by (simpl; by rewrite Hp).
    rewrite sum_cons, Z.mul_add_distr_l.
    destruct (round_half_even_nearest (A * p) 10000 ltac:(lia)) as [Hline _].
    simpl in Hline. unfold Expenses.percentage_amount.
    rewrite length_cons, Nat2Z.inj_succ. lia.
Qed.

(** In the percentage mode an accepted request appends one row per split
    with the split's percentage, and the rounding of each line to the cent
    moves the total by at most half a cent per split: the sum of the shares
    is within n/2 cents of amount * (sum of percentages) / 100, hence within
    n/2 cents of the amount when the percentages sum to exactly 100. *)
Theorem percentage_rounding_bound expense splits_data db :
  e_split_mode expense = PERCENTAGE →
  Forall (λ sd, Schemas.sc_participant_id sd
                ∈ p_id <$> query_participants (e_group_id expense) db) splits_data →
  Forall (λ sd, is_Some (Schemas.sc_percentage sd)) splits_data →
  let total_percentage := sum (omap Schemas.sc_percentage splits_data) in
  Z.abs (total_percentage - 10000) ≤ 1 →
  ∃ db' rows,
    Expenses.validate_and_create_splits expense splits_data db = Ok db'
    ∧ expense_splits db' = expense_splits db ++ rows
    ∧ Forall2 (λ sd row, s_participant_id row = Schemas.sc_participant_id sd
                         ∧ s_percentage row = Schemas.sc_percentage sd)
              splits_data rows
    ∧ 2 * Z.abs (10000 * sum (s_amount <$> rows)
                 - e_amount expense * total_percentage)
      ≤ 10000 * Z.of_nat (length splits_data)
    ∧ (total_percentage = 10000 →
       2 * Z.abs (sum (s_amount <$> rows) - e_amount expense)
       ≤ Z.of_nat (length splits_data)).
Proof.
  intros Hmode Hvalid Hpresent total_percentage Htol.
  unfold Expenses.validate_and_create_splits.
  rewrite (check_participants_splits_data _ _ Hvalid), Hmode. simpl.
  rewrite (sum_percentages_present 0 _ Hpresent), Z.add_0_l. simpl.
  fold total_percentage.
  destruct (Z.gtb_spec (Z.abs (total_percentage - 10000)) 1) as [|_]; [lia|].
  destruct (add_percentage_splits_present expense splits_data db Hpresent)
    as (db' & Hdb' & _).
  destruct (add_percentage_splits_Ok _ _ _ _ Hdb') as (_ & _ & rows & Hs & Hrows).
  exists db', rows. split; [done|]. split; [done|].
  assert (2 * Z.abs (10000 * sum (s_amount <$> rows)
                     - e_amount expense * total_percentage)
          ≤ 10000 * Z.of_nat (length splits_data)) as Hdrift.
  { apply percentage_rows_drift.
    eapply Forall2_impl; [exact Hrows|]. by intros sd row (_ & _ & _ & ?). }
  split; [|split; [exact Hdrift|]].
  - eapply Forall2_impl; [exact Hrows|]. by intros sd row (_ & ? & ? & _).
  - intros Heq. rewrite Heq in Hdrift. lia.
Qed.

Lemma percentage_rounding_bound_witness :
  ∃ db' rows,
    Expenses.validate_and_create_splits (Sample.expense PERCENTAGE 3)
      [Sample.split_data Sample.alice 1 (Some 5000);
       Sample.split_data Sample.bob 1 (Some 5000)] Sample.db0 = Ok db'
    ∧ expense_splits db' = expense_splits Sample.db0 ++ rows
    ∧ 2 * Z.abs (sum (s_amount <$> rows) - 3) ≤ 2.
Proof.
  destruct (percentage_rounding_bound (Sample.expense PERCENTAGE 3)
              [Sample.split_data Sample.alice 1 (Some 5000);
               Sample.split_data Sample.bob 1 (Some 5000)] Sample.db0)
    as (db' & rows & Hr & Hs & _ & _ & Hb).
  - reflexivity.
  - apply (bool_decide_unpack _). vm_compute. exact I.
  - apply (bool_decide_unpack _). vm_compute. exact I.
  - vm_compute. discriminate.
  - exists db', rows. split; [exact Hr|]. split; [exact Hs|]. apply Hb. reflexivity.
Defined.

Lemma validate_and_create_splits_Ok_rows expense splits_data db db' :
  Expenses.validate_and_create_splits expense splits_data db = Ok db' →
  participants db' = participants db
  ∧ expenses db' = expenses db
  ∧ ∃ rows,
      expense_splits db' = expense_splits db ++ rows
      ∧ Forall2 (λ sd row,
                   s_expense_id row = e_id expense
                   ∧ s_participant_id row = Schemas.sc_participant_id sd
                   ∧ s_participant_id row
                     ∈ p_id <$> query_participants (e_group_id expense) db)
                splits_data rows
      ∧ (e_split_mode expense ≠ PERCENTAGE →
         sum (s_amount <$> rows) = e_amount expense).
Proof.
  unfold Expenses.validate_and_create_splits. cbv zeta.
  destruct (Expenses.check_participants _ _) as [[]|] eqn:Hcheck; [|done].
  apply check_participants_Ok_inv in Hcheck. rewrite Forall_fmap in Hcheck.
  assert (∀ (P : Schemas.ExpenseSplitCreate → ExpenseSplit → Prop) rows,
            Forall2 P splits_data rows →
            (∀ sd row, P sd row →
                       s_expense_id row = e_id expense
                       ∧ s_participant_id row = Schemas.sc_participant_id sd) →
            Forall2 (λ sd row,
                       s_expense_id row = e_id expense
                       ∧ s_participant_id row = Schemas.sc_participant_id sd
                       ∧ s_participant_id row
                         ∈ p_id <$> query_participants (e_group_id expense) db)
                    splits_data rows) as Hrows.
  { intros P rows HF HP. revert Hcheck.
    induction HF as [|sd row sds rows Hsd _ IH]; [constructor|].
    intros [Hin Hrest]%Forall_cons. constructor; [|by apply IH].
    destruct (HP _ _ Hsd) as [? Hid]. rewrite Hid. done. }
  simpl. destruct (e_split_mode expense).
  - destruct (Helpers.split_amount_equally _ _) as [shares|] eqn:Hshares; [|done].
    simpl. intros (Hp & He & rows & Hs & HF & Ha)%add_equal_splits_Ok.
    split; [done|]. split; [done|]. exists rows. split; [done|]. split.
    + eapply Hrows; [exact HF|]. by intros sd row (? & ? & _).
    + intros _. destruct (Z_le_gt_dec 1 (Z.of_nat (length splits_data))) as [Hn|Hn].
      * destruct (split_amount_equally_sum (e_amount expense) _ Hn)
          as (shares' & Hshares' & Hlen & Hsum).
        rewrite Hshares in Hshares'. injection Hshares' as <-.
        rewrite Nat2Z.id in Hlen. rewrite drop_0, take_ge in Ha by lia.
        by rewrite Ha.
      * unfold Helpers.split_amount_equally in Hshares.
        destruct (Z.leb_spec (Z.of_nat (length splits_data)) 0); [done|lia].
  - unfold Validators.validate_splits_equal_total.
    destruct (Z.eqb_spec (sum (Schemas.sc_amount <$> splits_data)) (e_amount expense))
      as [Hsum|]; simpl; [|done].
    intros [= <-].
    destruct (add_custom_splits_rows expense splits_data db) as (Hp & He & _).
    destruct (add_custom_splits_Forall2 expense splits_data db) as (rows & Hs & HF & Ha).
    split; [done|]. split; [done|]. exists rows. split; [done|]. split.
    + eapply Hrows; [exact HF|]. by intros sd row (? & ? & _).
    + intros _. by rewrite Ha.
  - destruct (Expenses.sum_percentages _ _) as [total|]; [|done]. simpl.
    destruct (_ >? 1); [done|].
    intros (Hp & He & rows & Hs & HF)%add_percentage_splits_Ok.
    split; [done|]. split; [done|]. exists rows. split; [done|]. split; [|done].
    eapply Hrows; [exact HF|]. by intros sd row (? & ? & _).
Qed.

(** Whatever the mode, a successful [validate_and_create_splits] leaves the
    participants, the expenses and the splits already present untouched, and
    appends exactly one row per split of the request, in order, each for the
    expense at hand and for the participant of its split, who belongs to the
    expense's group. *)
Theorem splits_appended_for_request expense splits_data db db' :
  Expenses.validate_and_create_splits expense splits_data db = Ok db' →
  participants db' = participants db
  ∧ expenses db' = expenses db
  ∧ ∃ rows,
      expense_splits db' = expense_splits db ++ rows
      ∧ Forall2 (λ sd row,
                   s_expense_id row = e_id expense
                   ∧ s_participant_id row = Schemas.sc_participant_id sd
                   ∧ s_participant_id row
                     ∈ p_id <$> query_participants (e_group_id expense) db)
                splits_data rows.
Proof.
  intros (Hp & He & rows & Hs & HF & _)%validate_and_create_splits_Ok_rows.
  split; [done|]. split; [done|]. by exists rows.
Qed.

Lemma splits_appended_for_request_witness :
  ∃ db' rows,
    Expenses.validate_and_create_splits (Sample.expense CUSTOM_AMOUNT 10000)
      [Sample.split_data Sample.alice 6000 None;
       Sample.split_data Sample.bob 4000 None] Sample.db1 = Ok db'
    ∧ expenses db' = expenses Sample.db1
    ∧ expense_splits db' = expense_splits Sample.db1 ++ rows
    ∧ length rows = 2%nat.
Proof.
  eexists. 
  destruct (splits_appended_for_request (Sample.expense CUSTOM_AMOUNT 10000)
              [Sample.split_data Sample.alice 6000 None;
               Sample.split_data Sample.bob 4000 None] Sample.db1 _ eq_refl)
    as (_ & He & rows & Hs & HF).
  exists rows. split; [reflexivity|]. split; [exact He|]. split; [exact Hs|].
  apply Forall2_length in HF. symmetry. exact HF.
Defined.

(** ** Creating and deleting an expense *)

Section expense_rows.
Import Schemas Expenses.

Lemma elem_of_query_splits (group_id : UUID) (db : Session) (s : ExpenseSplit) :
  s ∈ query_splits group_id db
  ↔ s ∈ expense_splits db
    ∧ ∃ e, e ∈ expenses db ∧ e_id e = s_expense_id s ∧ e_group_id e = group_id.
Proof.
  unfold query_splits. rewrite list_elem_of_bind. split.
  - intros (s' & (e & Hin & He)%list_elem_of_bind & Hs').
    case_decide as Hd; [|by apply elem_of_nil in Hin].
    apply list_elem_of_singleton in Hin as ->. destruct Hd. eauto.
  - intros (Hs & e & He & Hid & Hg). exists s. split; [|done].
    apply list_elem_of_bind. exists e. split; [|done].
    rewrite decide_True by done. by apply list_elem_of_singleton.
Qed.

Lemma filter_none {A} (P : A → Prop) `{!∀ x, Decision (P x)} (xs : list A) :
  (∀ x, x ∈ xs → ¬ P x) → filter P xs = [].
Proof.
  induction xs as [|x xs IH]; intros Hall; [done|].
  rewrite filter_cons, decide_False by (apply Hall; left).
  apply IH. intros y Hy. apply Hall. by right.
Qed.

Lemma filter_all {A} (P : A → Prop) `{!∀ x, Decision (P x)} (xs : list A) :
  (∀ x, x ∈ xs → P x) → filter P xs = xs.
Proof.
  induction xs as [|x xs IH]; intros Hall; [done|].
  rewrite filter_cons, decide_True by (apply Hall; left).
  f_equal. apply IH. intros y Hy. apply Hall. by right.
Qed.

Lemma head_filter_Some {A} (P : A → Prop) `{!∀ x, Decision (P x)} (xs : list A) (x : A) :
  head (filter P xs) = Some x → x ∈ xs ∧ P x.
Proof.
  intros Hhead. assert (x ∈ filter P xs) as Hx.
  { destruct (filter P xs); [done|]. injection Hhead as ->. left. }
  apply list_elem_of_filter in Hx. tauto.
Qed.

(** What a successful [create_expense] did. *)
Lemma create_expense_Ok_inv (group_id new_id : UUID) expense_data db e db' :
  create_expense group_id new_id expense_data db = Ok (e, db') →
  e = {| e_id := new_id; e_group_id := group_id;
         e_amount := ec_amount expense_data;
         e_payer_id := ec_payer_id expense_data;
         e_split_mode := ec_split_mode expense_data |}
  ∧ ec_payer_id expense_data ∈ p_id <$> query_participants group_id db
  ∧ participants db' = participants db
  ∧ expenses db' = expenses db ++ [e]
  ∧ ∃ rows,
      expense_splits db' = expense_splits db ++ rows
      ∧ Forall (λ row, s_expense_id row = new_id
                       ∧ s_participant_id row ∈ p_id <$> query_participants group_id db)
               rows
      ∧ s_participant_id <$> rows = sc_participant_id <$> ec_splits expense_data
      ∧ (ec_split_mode expense_data ≠ PERCENTAGE →
         sum (s_amount <$> rows) = ec_amount expense_data).
Proof.
  unfold create_expense.
  destruct (head _) as [payer|] eqn:Hpayer; [|done].
  apply head_filter_Some in Hpayer as (Hin & Hid & Hg).
  destruct (validate_and_create_splits _ _ _) as [db1|] eqn:Hsplits; [|done].
  simpl. intros [= <- <-].
  apply validate_and_create_splits_Ok_rows in Hsplits
    as (Hp & He & rows & Hs & HF & Hsum). simpl in *.
  split; [done|]. split.
  { rewrite <- Hid. apply list_elem_of_fmap_2. by apply list_elem_of_filter. }
  split; [done|]. split; [done|]. exists rows. split; [done|].
  split; [|split; [|done]].
  - apply Forall_forall. intros row Hrow.
    apply list_elem_of_lookup in Hrow as [k Hk].
    destruct (Forall2_lookup_r _ _ _ _ _ HF Hk) as (sd & _ & ? & _ & ?). done.
  - clear -HF. induction HF as [|sd row sds rows (_ & Hrow & _) _ IH]; [done|].
    by rewrite !fmap_cons, Hrow, IH.
Qed.
End expense_rows.

(** [create_expense] in the equal or the custom-amount mode keeps the tables
    consistent: if, before, the splits of every expense summed to its amount
    and payers and split participants belonged to their groups, and the new
    primary key is fresh, then the same holds after a successful call.  (The
    percentage mode is left out: its rows need not sum to the amount.) *)
Theorem create_expense_keeps_consistency
    (group_id new_id : UUID) expense_data db e db' :
  db_consistent db →
  fresh_expense_id new_id db →
  Expenses.ec_split_mode expense_data ≠ PERCENTAGE →
  Expenses.create_expense group_id new_id expense_data db = Ok (e, db') →
  db_consistent db'.
Proof.
  intros Hcons [Hfe Hfs] Hmode
    (He0 & Hpayer & Hp & He & rows & Hs & Hrows & _ & Hsum)%create_expense_Ok_inv.
  specialize (Hsum Hmode).
  assert (e_id e = new_id ∧ e_group_id e = group_id
          ∧ e_amount e = Expenses.ec_amount expense_data
          ∧ e_payer_id e = Expenses.ec_payer_id expense_data)
    as (Hid & Hgr & Ham & Hpa) by (by rewrite He0).
  clear He0. rewrite Forall_forall in Hrows.
  intros g. destruct (Hcons g) as (H1 & H2 & H3).
  assert (query_participants g db' = query_participants g db) as Hqp
    by (unfold query_participants; by rewrite Hp).
  assert (∀ e', e' ∈ query_expenses g db' →
                e' ∈ query_expenses g db ∨ (e' = e ∧ g = group_id)) as Hqe.
  { intros e'. unfold query_expenses. rewrite !list_elem_of_filter, He, elem_of_app.
    intros [Hg [?| ->%list_elem_of_singleton]]; [by left|right]. by rewrite <- Hg, Hgr. }
  assert (∀ s, s ∈ expense_splits db → s_expense_id s ≠ new_id) as Hold.
  { intros s Hin Heq. apply Hfs. rewrite <- Heq. by apply list_elem_of_fmap_2. }
  assert (∀ e', e' ∈ expenses db → e_id e' ≠ new_id) as Holde.
  { intros e' Hin Heq. apply Hfe. rewrite <- Heq. by apply list_elem_of_fmap_2. }
  rewrite Hqp. split; [|split].
  - intros e' [Hin | [-> ->]]%Hqe; rewrite Hs, filter_app, fmap_app, sum_app.
    + rewrite (filter_none _ rows), fmap_nil, sum_nil, Z.add_0_r; [by apply H1|].
      intros row [Hrow _]%Hrows. rewrite Hrow.
      apply not_eq_sym, Holde. by apply list_elem_of_filter in Hin as [_ ?].
    + rewrite (filter_none _ (expense_splits db)), fmap_nil, sum_nil, Z.add_0_l.
      * rewrite filter_all; [by rewrite Hsum, Ham|].
        intros row [Hrow _]%Hrows. by rewrite Hrow, Hid.
      * intros s Hin. rewrite Hid. by apply Hold.
  - intros e' [Hin | [-> ->]]%Hqe; [by apply H2|]. by rewrite Hpa.
  - intros s (Hsin & e' & He' & Heid & Hg)%elem_of_query_splits.
    rewrite Hs, elem_of_app in Hsin. rewrite He, elem_of_app in He'.
    destruct Hsin as [Hsin|Hsin], He' as [He'| ->%list_elem_of_singleton].
    + apply H3, elem_of_query_splits. eauto.
    + exfalso. apply (Hold s Hsin). by rewrite <- Heid, Hid.
    + exfalso. apply (Holde e' He'). rewrite Heid. by apply Hrows.
    + rewrite <- Hg, Hgr. by apply Hrows.
Qed.

Lemma create_expense_keeps_consistency_witness :
  ∃ e db',
    Expenses.create_expense Sample.group 7 Sample.lunch_request Sample.db0 = Ok (e, db')
    ∧ db_consistent db'.
Proof.
  eexists _, _. split; [reflexivity|].
  eapply (create_expense_keeps_consistency Sample.group 7 Sample.lunch_request Sample.db0).
  - intros g. split; [|split].
    + intros e He. apply list_elem_of_filter in He as [_ He]. inversion He.
    + intros e He. apply list_elem_of_filter in He as [_ He]. inversion He.
    + intros s Hs. inversion Hs.
  - split; apply (bool_decide_unpack _); vm_compute; exact I.
  - discriminate.
  - reflexivity.
Defined.

(** Deleting the expense that [create_expense] has just created, by its
    owner, gives back the tables as they were, row for row, provided the
    primary key drawn for the expense was fresh. *)
Theorem create_then_delete_expense
    (group_id new_id current_user_id : UUID) (owner_id : UUID → UUID)
    expense_data db e db' :
  fresh_expense_id new_id db →
  owner_id group_id = current_user_id →
  Expenses.create_expense group_id new_id expense_data db = Ok (e, db') →
  Expenses.delete_expense new_id current_user_id owner_id db' = Ok db.
Proof.
  intros [Hfe Hfs] Howner
    (He0 & _ & Hp & He & rows & Hs & Hrows & _)%create_expense_Ok_inv.
  assert (e_id e = new_id ∧ e_group_id e = group_id) as [Hid Hgr] by (by rewrite He0).
  rewrite Forall_forall in Hrows.
  assert (∀ s, s ∈ expense_splits db → s_expense_id s ≠ new_id) as Hold.
  { intros s Hin Heq. apply Hfs. rewrite <- Heq. by apply list_elem_of_fmap_2. }
  assert (∀ e', e' ∈ expenses db → e_id e' ≠ new_id) as Holde.
  { intros e' Hin Heq. apply Hfe. rewrite <- Heq. by apply list_elem_of_fmap_2. }
  unfold Expenses.delete_expense.
  rewrite He, filter_app, (filter_none _ (expenses db)) by done.
  rewrite filter_cons, decide_True by done. simpl.
  rewrite decide_False by (rewrite Hgr; intros Hne; by apply Hne).
  f_equal. unfold db_delete_expense.
  rewrite He, Hs, Hp, !filter_app, Hid.
  rewrite (filter_all _ (expenses db)), (filter_all _ (expense_splits db)) by done.
  rewrite (filter_none _ rows) by (intros row [Hrow _]%Hrows Hne; by apply Hne).
  rewrite filter_cons, decide_False by (intros Hne; by apply Hne).
  rewrite filter_nil, !app_nil_r. by destruct db.
Qed.

Lemma create_then_delete_expense_witness :
  ∃ e db',
    Expenses.create_expense Sample.group 11 Sample.lunch_request Sample.db1 = Ok (e, db')
    ∧ Expenses.delete_expense 11 5 (λ _, 5%N) db' = Ok Sample.db1.
Proof.
  eexists _, _. split; [reflexivity|].
  eapply (create_then_delete_expense Sample.group 11 5 (λ _, 5%N)
            Sample.lunch_request Sample.db1).
  - split; apply (bool_decide_unpack _); vm_compute; exact I.
  - reflexivity.
  - reflexivity.
Defined.

(** [delete_expense] answers 404 when no expense has the id, and succeeds
    only for the owner of the group of an expense with that id.  Every
    successful call leaves the participants untouched, removes the expense
    and the splits that point to it and nothing else: the other expenses and
    the splits of the other expenses stay, in their order.  It keeps
    consistent tables consistent, since the splits of the expense go with
    it. *)
Theorem delete_expense_keeps_consistency
    (expense_id current_user_id : UUID) (owner_id : UUID → UUID) db :
  let r := Expenses.delete_expense expense_id current_user_id owner_id db in
  (expense_id ∉ e_id <$> expenses db →
   r = Raise (HTTPException Expenses.HTTP_404_NOT_FOUND [Text "Expense not found"]))
  ∧ (∀ db', r = Ok db' →
       (∃ e, e ∈ expenses db ∧ e_id e = expense_id
             ∧ owner_id (e_group_id e) = current_user_id)
       ∧ participants db' = participants db
       ∧ expenses db' = filter (λ e, e_id e ≠ expense_id) (expenses db)
       ∧ expense_splits db'
         = filter (λ s, s_expense_id s ≠ expense_id) (expense_splits db)
       ∧ (expense_id ∉ e_id <$> expenses db')
       ∧ (expense_id ∉ s_expense_id <$> expense_splits db')
       ∧ (db_consistent db → db_consistent db')).
Proof.
  intros r. subst r. unfold Expenses.delete_expense. split.
  - intros Hno. rewrite filter_none; [done|].
    intros e He Heq. apply Hno. rewrite <- Heq. by apply list_elem_of_fmap_2.
  - intros db'.
    destruct (head _) as [e|] eqn:Hhead; [|done].
    apply head_filter_Some in Hhead as [He Hid].
    case_decide as Hown; [done|]. intros [= <-]. unfold db_delete_expense.
    rewrite Hid. simpl.
    split.
    { exists e. split; [done|]. split; [done|].
      by destruct (decide (owner_id (e_group_id e) = current_user_id)). }
    split; [done|]. split; [done|]. split; [done|].
    split.
    { intros (e' & Heq & [Hne _]%list_elem_of_filter)%list_elem_of_fmap. done. }
    split.
    { intros (s & Heq & [Hne _]%list_elem_of_filter)%list_elem_of_fmap. done. }
    intros Hcons g. destruct (Hcons g) as (H1 & H2 & H3).
    assert (∀ e', e' ∈ query_expenses g
                         {| participants := participants db;
                            expenses := filter (λ e', e_id e' ≠ expense_id) (expenses db);
                            expense_splits :=
                              filter (λ s, s_expense_id s ≠ expense_id) (expense_splits db) |} →
                  e' ∈ query_expenses g db ∧ e_id e' ≠ expense_id) as Hqe.
    { intros e'. unfold query_expenses. simpl. rewrite !list_elem_of_filter. tauto. }
    split; [|split].
    + intros e' [Hin Hne]%Hqe. simpl. rewrite <- (H1 e' Hin).
      rewrite list_filter_filter_l; [done|]. intros s Heq. by rewrite Heq.
    + intros e' [Hin Hne]%Hqe. by apply H2.
    + intros s (Hsin & e' & He' & Heid & Hg)%elem_of_query_splits. simpl in *.
      apply list_elem_of_filter in Hsin as [_ Hsin].
      apply list_elem_of_filter in He' as [_ He'].
      apply H3, elem_of_query_splits. eauto.
Qed.

Lemma delete_expense_keeps_consistency_witness :
  ∃ db', Expenses.delete_expense 8 5 (λ _, 5%N) Sample.db1 = Ok db'
         ∧ participants db' = participants Sample.db1
         ∧ e_id <$> expenses db' = [7%N]
         ∧ s_amount <$> expense_splits db' = [3334; 3333; 3333]
         ∧ db_consistent db'.
Proof.
  eexists. split; [reflexivity|].
  destruct (proj2 (delete_expense_keeps_consistency 8 5 (λ _, 5%N) Sample.db1)
              _ eq_refl) as (_ & Hp & He & Hs & _ & _ & Hcons).
  split; [exact Hp|]. split; [by rewrite He|]. split; [by rewrite Hs|].
  apply Hcons. intros g. split; [|split].
  - intros e [Hg He']%list_elem_of_filter.
    apply elem_of_cons in He' as [->|He']; [reflexivity|].
    apply list_elem_of_singleton in He' as ->. reflexivity.
  - intros e [Hg He']%list_elem_of_filter. unfold query_participants. rewrite <- Hg.
    apply elem_of_cons in He' as [->|He'];
      [|apply list_elem_of_singleton in He' as ->];
      apply (bool_decide_unpack _); vm_compute; exact I.
  - intros s (Hs' & e & He' & _ & Hg)%elem_of_query_splits.
    unfold query_participants. rewrite <- Hg.
    assert (e_group_id e = Sample.group) as ->.
    { apply elem_of_cons in He' as [->|He']; [reflexivity|].
      by apply list_elem_of_singleton in He' as ->. }
    revert s Hs'. apply Forall_forall.
    apply (bool_decide_unpack _). vm_compute. exact I.
Defined.

(** ** The balance of each participant *)

Section participant_balances.
Import BalanceService.

Lemma dict_set_fresh {V} (k : UUID) (v : V) (d : dict V) :
  k ∉ d.*1 → dict_set k v d = d ++ [(k, v)].
Proof.
  induction d as [|[k0 v0] d IH]; [done|].
  rewrite fmap_cons, not_elem_of_cons. simpl. intros [Hne Hd].
  rewrite decide_False by done. by rewrite IH.
Qed.

Lemma dict_update_absent {V} (k : UUID) (f : V → V) (d : dict V) :
  k ∉ d.*1 → dict_update k f d = d.
Proof.
  induction d as [|[k0 v0] d IH]; [done|].
  rewrite fmap_cons, not_elem_of_cons. simpl. intros [Hne Hd].
  rewrite decide_False by done. by rewrite IH.
Qed.

(** On a dictionary, the update of the value at a key, guarded by the
    membership test, is the update of the value of every item with that key. *)
Lemma dict_update_guarded {V} (k : UUID) (f : V → V) (d : dict V) :
  NoDup d.*1 →
  (if dict_in k d then dict_update k f d else d)
  = (λ item, (item.1, if decide (k = item.1) then f item.2 else item.2)) <$> d.
Proof.
  intros Hnd.
  assert (∀ d' : dict V, k ∉ d'.*1 →
            (λ item, (item.1, if decide (k = item.1) then f item.2 else item.2)) <$> d'
            = d') as Hid.
  { induction d' as [|[k0 v0] d' IH]; [done|].
    rewrite !fmap_cons, not_elem_of_cons. simpl. intros [Hne Hd'].
    rewrite decide_False by done. by rewrite IH. }
  assert (dict_update k f d
          = (λ item, (item.1, if decide (k = item.1) then f item.2 else item.2)) <$> d)
    as Hupd.
  { induction d as [|[k0 v0] d IH]; [done|].
    rewrite fmap_cons in Hnd. apply NoDup_cons in Hnd as [Hk0 Hnd].
    rewrite fmap_cons. simpl. destruct (decide (k0 = k)) as [->|Hne].
    - rewrite decide_True by done. by rewrite Hid.
    - rewrite decide_False by done. by rewrite IH. }
  unfold dict_in. case_bool_decide; [done|]. by rewrite Hid.
Qed.

Lemma accumulate_values {A} (key : A → UUID) (amt : A → Z)
    (g : Z → BalanceData → BalanceData) (d : dict BalanceData) (rows : list A) :
  NoDup d.*1 →
  accumulate key amt g d rows
  = (λ item, (item.1,
              foldl (λ v x, if decide (key x = item.1) then g (amt x) v else v)
                    item.2 rows)) <$> d.
Proof.
  revert d. induction rows as [|x rows IH]; intros d Hnd.
  - simpl. unfold accumulate. simpl. induction d as [|[k v] d IHd]; [done|].
    rewrite fmap_cons. simpl. f_equal. apply IHd.
    rewrite fmap_cons in Hnd. by apply NoDup_cons in Hnd as [_ ?].
  - unfold accumulate in *. simpl. rewrite dict_update_guarded by done.
    rewrite IH.
    + rewrite <- list_fmap_compose. by apply list_fmap_ext.
    + rewrite <- list_fmap_compose. simpl. done.
Qed.

Lemma foldl_add_total_paid (k : UUID) (v : BalanceData) (rows : list Expense) :
  foldl (λ v e, if decide (e_payer_id e = k) then add_total_paid (e_amount e) v else v)
        v rows
  = add_total_paid (sum (e_amount <$> filter (λ e, e_payer_id e = k) rows)) v.
Proof.
  revert v. induction rows as [|e rows IH]; intros v; simpl.
  - destruct v. unfold add_total_paid. simpl. f_equal. rewrite sum_nil. lia.
  - rewrite IH, filter_cons. destruct (decide (e_payer_id e = k)); [|done].
    rewrite fmap_cons, sum_cons. unfold add_total_paid. simpl. f_equal. lia.
Qed.

Lemma foldl_add_total_share (k : UUID) (v : BalanceData) (rows : list ExpenseSplit) :
  foldl (λ v s, if decide (s_participant_id s = k) then add_total_share (s_amount s) v else v)
        v rows
  = add_total_share (sum (s_amount <$> filter (λ s, s_participant_id s = k) rows)) v.
Proof.
  revert v. induction rows as [|s rows IH]; intros v; simpl.
  - destruct v. unfold add_total_share. simpl. f_equal. rewrite sum_nil. lia.
  - rewrite IH, filter_cons. destruct (decide (s_participant_id s = k)); [|done].
    rewrite fmap_cons, sum_cons. unfold add_total_share. simpl. f_equal. lia.
Qed.

Lemma initial_balances_items (ps : list Participant) (d0 : dict BalanceData) :
  NoDup (d0.*1 ++ (p_id <$> ps)) →
  foldl (λ balances participant,
           dict_set (p_id participant)
             {| participant := participant; total_paid := 0;
                total_share := 0; net_balance := 0 |} balances)
        d0 ps
  = d0 ++ ((λ p, (p_id p, {| participant := p; total_paid := 0;
                             total_share := 0; net_balance := 0 |})) <$> ps).
Proof.
  revert d0. induction ps as [|p ps IH]; intros d0 Hnd; simpl.
  - by rewrite app_nil_r.
  - rewrite fmap_cons in Hnd.
    assert (p_id p ∉ d0.*1) as Hp.
    { apply NoDup_app in Hnd as (_ & Hdisj & _). intros Hin.
      apply (Hdisj _ Hin). left. }
    rewrite dict_set_fresh by done. rewrite IH.
    + by rewrite <- app_assoc.
    + rewrite fmap_app. simpl. by rewrite <- app_assoc.
Qed.
End participant_balances.

(** [calculate_participant_balances] returns exactly one item per
    participant of the group, in the order of the query and keyed by the
    participant's id: its total paid is the sum of the group's expenses that
    the participant paid, its total share the sum of the group's splits for
    the participant, its net balance their difference.  Payers and split
    participants outside the group get no item and count for nothing. *)
Theorem participant_balances_spec (group_id : UUID) (db : Session) :
  NoDup (p_id <$> query_participants group_id db) →
  BalanceService.calculate_participant_balances group_id db
  = (λ p, (p_id p,
           {| BalanceService.participant := p;
              BalanceService.total_paid := paid_by (p_id p) group_id db;
              BalanceService.total_share := share_of (p_id p) group_id db;
              BalanceService.net_balance :=
                paid_by (p_id p) group_id db - share_of (p_id p) group_id db |}))
    <$> query_participants group_id db.
Proof.
  intros Hnd. unfold BalanceService.calculate_participant_balances. cbv zeta.
  match goal with
  | |- context [foldl ?f [] (query_participants group_id db)] =>
      set (d1 := foldl f [] (query_participants group_id db))
  end.
  assert (d1 = (λ p, (p_id p, {| BalanceService.participant := p;
                                 BalanceService.total_paid := 0;
                                 BalanceService.total_share := 0;
                                 BalanceService.net_balance := 0 |}))
               <$> query_participants group_id db) as Hd1
    by (by apply (initial_balances_items _ [])).
  assert (d1.*1 = p_id <$> query_participants group_id db) as Hk1.
  { rewrite Hd1, <- list_fmap_compose. by apply list_fmap_ext. }
  match goal with
  | |- context [foldl ?f d1 (query_expenses group_id db)] =>
      set (d2 := foldl f d1 (query_expenses group_id db))
  end.
  assert (d2 = accumulate e_payer_id e_amount BalanceService.add_total_paid d1
                 (query_expenses group_id db)) as Hd2 by reflexivity.
  match goal with
  | |- context [foldl ?f d2 (query_splits group_id db)] =>
      set (d3 := foldl f d2 (query_splits group_id db))
  end.
  assert (d3 = accumulate s_participant_id s_amount BalanceService.add_total_share d2
                 (query_splits group_id db)) as Hd3 by reflexivity.
  assert (d2.*1 = d1.*1) as Hk2 by (rewrite Hd2; apply accumulate_keys).
  assert (d3.*1 = d1.*1) as Hk3 by (rewrite Hd3, accumulate_keys; exact Hk2).
  rewrite (dict_update_every_key BalanceService.set_net_balance d3)
    by (by rewrite Hk3, Hk1).
  rewrite Hd3, accumulate_values by (by rewrite Hk2, Hk1).
  rewrite Hd2, accumulate_values by (by rewrite Hk1).
  rewrite Hd1, <- !list_fmap_compose. apply list_fmap_ext. intros _ p _. simpl.
  rewrite foldl_add_total_paid, foldl_add_total_share.
  unfold paid_by, share_of. reflexivity.
Qed.

Lemma participant_balances_spec_witness :
  (BalanceService.calculate_participant_balances Sample.group Sample.db1).*1
  = [1; 2; 3; 4]%N
  ∧ paid_by 2 Sample.group Sample.db1 = 2500
  ∧ share_of 2 Sample.group Sample.db1 = 3333.
Proof.
  rewrite (participant_balances_spec Sample.group Sample.db1).
  - by repeat split.
  - apply (bool_decide_unpack _). vm_compute. exact I.
Defined.

(** ** More on the settlement suggestions *)

Section settlement_runs.
Import BalanceService.

(** The suggestions are the settlements of the state in which the loop,
    run on the sorted creditors and debtors, ends. *)
Lemma generate_settlement_suggestions_run (balances : dict BalanceData) :
  ∃ st,
    generate_settlement_suggestions balances = Some (settlements st)
    ∧ while (length (sort_desc (creditors_of balances))
             + length (sort_desc (debtors_of balances)))
        {| creditors := sort_desc (creditors_of balances);
           debtors := sort_desc (debtors_of balances);
           i := 0; j := 0; settlements := [] |} = Some st.
Proof.
  unfold generate_settlement_suggestions. rewrite separate_spec. simpl.
  set (st0 := {| creditors := _; debtors := _; i := 0; j := 0; settlements := [] |}).
  destruct (while_terminates
              (length (sort_desc (creditors_of balances))
               + length (sort_desc (debtors_of balances))) st0) as [st Hst]; [done|].
  exists st. by rewrite Hst.
Qed.

Lemma creditors_of_nil (balances : dict BalanceData) :
  creditors_of balances = [] ↔ Forall (λ item, net_balance item.2 ≤ 1) balances.
Proof.
  unfold creditors_of. split.
  - intros Hnil%fmap_nil_inv. apply Forall_forall. intros item Hin.
    destruct (Z_le_gt_dec (net_balance item.2) 1) as [|Hgt]; [done|].
    assert (item ∈ filter (λ item, 1 < net_balance item.2) balances) as Hf
      by (apply list_elem_of_filter; split; [lia|done]).
    rewrite Hnil in Hf. by apply elem_of_nil in Hf.
  - intros Hall. rewrite filter_none; [done|]. intros item Hin.
    rewrite Forall_forall in Hall. specialize (Hall item Hin). lia.
Qed.

Lemma debtors_of_nil (balances : dict BalanceData) :
  debtors_of balances = [] ↔ Forall (λ item, -1 ≤ net_balance item.2) balances.
Proof.
  unfold debtors_of. split.
  - intros Hnil%fmap_nil_inv. apply Forall_forall. intros item Hin.
    destruct (Z_le_gt_dec (-1) (net_balance item.2)) as [|Hgt]; [done|].
    assert (item ∈ filter (λ item, net_balance item.2 < -1) balances) as Hf
      by (apply list_elem_of_filter; split; [lia|done]).
    rewrite Hnil in Hf. by apply elem_of_nil in Hf.
  - intros Hall. rewrite filter_none; [done|]. intros item Hin.
    rewrite Forall_forall in Hall. specialize (Hall item Hin). lia.
Qed.

Lemma sort_desc_nil (xs : list Entry) : sort_desc xs = [] ↔ xs = [].
Proof.
  split; [|by intros ->].
  intros Hnil. apply Permutation_nil_r. by rewrite <- Hnil, sort_desc_Permutation.
Qed.

Lemma is_group_settled_Forall (balances : dict BalanceData) :
  is_group_settled balances = true
  ↔ Forall (λ item, Z.abs (net_balance item.2) ≤ 1) balances.
Proof.
  induction balances as [|[k b] rest IH]; simpl.
  - split; [constructor|done].
  - rewrite Forall_cons. simpl.
    destruct (Z.gtb_spec (Z.abs (net_balance b)) 1) as [Hout|Hin].
    + split; [done|lia].
    + rewrite IH. split; [by split|by intros [_ ?]].
Qed.

(** The matrix loops only ever append edges. *)
Lemma for_creditors_edges (debtor : Entry) (cs : list Entry)
    (edges : list BalanceMatrix.Edge) :
  ∃ new, (BalanceMatrix.for_creditors debtor cs edges).2 = edges ++ new
         ∧ (1 < en_amount debtor →
            (∃ c cs', cs = c :: cs' ∧ 1 < en_amount c) → new ≠ []).
Proof.
  revert debtor edges. induction cs as [|c cs IH]; intros debtor edges; simpl.
  - exists []. split; [by rewrite app_nil_r|]. by intros _ (c & cs' & ? & _).
  - destruct ((en_amount debtor >? 1) && (en_amount c >? 1)) eqn:Hguard.
    + match goal with
      | |- context [BalanceMatrix.for_creditors ?d cs ?e] =>
          destruct (IH d e) as (new & Hnew & _);
          destruct (BalanceMatrix.for_creditors d cs e) as [[d' cs'] edges'] eqn:Hrec
      end.
      simpl in *. eexists (_ :: new). split; [by rewrite Hnew, <- app_assoc|done].
    + destruct (IH debtor edges) as (new & Hnew & _).
      destruct (BalanceMatrix.for_creditors debtor cs edges) as [[d' cs'] edges'] eqn:Hrec.
      simpl in *. exists new. split; [done|].
      intros Hd (c0 & cs0 & [= <- <-] & Hc).
      apply andb_false_iff in Hguard as [Hg|Hg];
        [destruct (Z.gtb_spec (en_amount debtor) 1)|destruct (Z.gtb_spec (en_amount c) 1)];
        try done; lia.
Qed.

Lemma for_debtors_edges (ds cs : list Entry) (edges : list BalanceMatrix.Edge) :
  ∃ new, (BalanceMatrix.for_debtors ds cs edges).2 = edges ++ new
         ∧ ((∃ d ds', ds = d :: ds' ∧ 1 < en_amount d) →
            (∃ c cs', cs = c :: cs' ∧ 1 < en_amount c) → new ≠ [])
         ∧ (ds = [] ∨ cs = [] → new = []).
Proof.
  revert cs edges. induction ds as [|d ds IH]; intros cs edges; simpl.
  - exists []. split; [by rewrite app_nil_r|]. split; [by intros (d & ds' & ? & _)|done].
  - destruct (for_creditors_edges d cs edges) as (new1 & Hnew1 & Hne1).
    destruct (BalanceMatrix.for_creditors d cs edges) as [[d' cs'] edges'] eqn:Hrec.
    destruct (IH cs' edges') as (new2 & Hnew2 & _ & Hnil2).
    destruct (BalanceMatrix.for_debtors ds cs' edges') as [[ds'' cs''] edges''] eqn:Hrec2.
    simpl in *. exists (new1 ++ new2). split; [by rewrite Hnew2, Hnew1, <- app_assoc|].
    split.
    + intros (d0 & ds0 & [= <- <-] & Hd) Hc. specialize (Hne1 Hd Hc).
      by destruct new1.
    + intros [? | ->]; [done|]. simpl in Hrec. injection Hrec as <- <- <-.
      assert (new1 = []) as ->.
      { apply (app_inv_head edges). by rewrite app_nil_r, <- Hnew1. }
      by rewrite (Hnil2 (or_intror eq_refl)).
Qed.
End settlement_runs.

Lemma no_settlement_iff (balances : dict BalanceService.BalanceData) :
  BalanceService.generate_settlement_suggestions balances = Some []
  ↔ creditors_of balances = [] ∨ debtors_of balances = [].
Proof.
  destruct (generate_settlement_suggestions_run balances) as (st & Hgen & Hrun).
  rewrite Hgen.
  set (st0 := {| BalanceService.creditors := _ |}) in Hrun.
  assert (remaining_creditors st0 = [] ∨ remaining_debtors st0 = []
          ↔ creditors_of balances = [] ∨ debtors_of balances = []) as Hrem.
  { unfold remaining_creditors, remaining_debtors. simpl.
    by rewrite !drop_0, !sort_desc_nil. }
  rewrite <- Hrem, <- iteration_None. split.
  - intros [= Hnil].
    destruct (BalanceService.iteration st0) as [st1|] eqn:Hit; [exfalso|done].
    assert (BalanceService.settlements st1 ≠ []) as Hst1.
    { apply iteration_Some in Hit as (c & cs & d & ds & _ & _ & Hs & _).
      rewrite Hs. by destruct (BalanceService.settlements st0). }
    assert (∃ fuel, BalanceService.while fuel st1 = Some st) as [fuel Hfuel].
    { destruct (length _ + length _)%nat as [|fuel]; simpl in Hrun;
        rewrite Hit in Hrun; [done|by exists fuel]. }
    destruct (while_invariant (λ s, BalanceService.settlements s ≠ []) _ _ _
                ltac:(intros s s' _ (c & cs & d & ds & _ & _ & Hs & _)%iteration_Some;
                      rewrite Hs; by destruct (BalanceService.settlements s))
                Hst1 Hfuel) as [Hne _].
    done.
  - intros Hit. destruct (length _ + length _)%nat; simpl in Hrun;
      rewrite Hit in Hrun; by injection Hrun as <-.
Qed.

Lemma no_matrix_edge_iff (balances : dict BalanceService.BalanceData) :
  BalanceMatrix.generate_balance_matrix balances = []
  ↔ creditors_of balances = [] ∨ debtors_of balances = [].
Proof.
  unfold BalanceMatrix.generate_balance_matrix. rewrite separate_spec. simpl.
  destruct (for_debtors_edges (debtors_of balances) (creditors_of balances) [])
    as (new & -> & Hne & Hnil). simpl.
  pose proof (proj2 (creditors_of_amounts balances)) as Hc.
  pose proof (proj2 (debtors_of_amounts balances)) as Hd.
  split.
  - intros ->.
    destruct (creditors_of balances) as [|c cs]; [by left|].
    destruct (debtors_of balances) as [|d ds]; [by right|].
    apply Forall_cons in Hc as [Hc _]. apply Forall_cons in Hd as [Hd _].
    exfalso. apply Hne; eauto.
  - intros [?|?]; apply Hnil; [by right|by left].
Qed.

(** A settled group gets no suggestion and an empty matrix.  More
    precisely, the suggestions are empty, and so is the matrix, exactly when
    no participant is above 0.01 or no participant is below -0.01: an
    unsettled group whose imbalance beyond the tolerance is all on one side
    gets none either. *)
Theorem nothing_to_settle (balances : dict BalanceService.BalanceData) :
  (BalanceService.generate_settlement_suggestions balances = Some []
   ↔ one_sided balances)
  ∧ (BalanceMatrix.generate_balance_matrix balances = [] ↔ one_sided balances)
  ∧ (BalanceService.is_group_settled balances = true → one_sided balances).
Proof.
  unfold one_sided. rewrite <- creditors_of_nil, <- debtors_of_nil.
  split; [apply no_settlement_iff|]. split; [apply no_matrix_edge_iff|].
  intros Hs%is_group_settled_Forall. left. apply creditors_of_nil.
  eapply Forall_impl; [exact Hs|]. simpl. lia.
Qed.

Lemma nothing_to_settle_witness :
  BalanceService.is_group_settled Sample.three_cents = false
  ∧ BalanceService.generate_settlement_suggestions Sample.three_cents = Some []
  ∧ BalanceMatrix.generate_balance_matrix Sample.three_cents = [].
Proof.
  split; [reflexivity|].
  destruct (nothing_to_settle Sample.three_cents) as (Hs & Hm & _).
  assert (one_sided Sample.three_cents) as Hone.
  { right. apply (bool_decide_unpack _). vm_compute. exact I. }
  split; [by apply Hs|by apply Hm].
Defined.

Lemma creditors_debtors_length (balances : dict BalanceService.BalanceData) :
  (length (creditors_of balances) + length (debtors_of balances) ≤ length balances)%nat.
Proof.
  unfold creditors_of, debtors_of. rewrite !length_fmap.
  induction balances as [|item balances IH]; [done|].
  rewrite !filter_cons. repeat case_decide; simpl; lia.
Qed.

Lemma settlement_count_le (balances : dict BalanceService.BalanceData) :
  ∃ plan,
    BalanceService.generate_settlement_suggestions balances = Some plan
    ∧ (length plan ≤ length (creditors_of balances) + length (debtors_of balances) - 1)%nat
    ∧ (length plan ≤ length balances - 1)%nat.
Proof.
  destruct (generate_settlement_suggestions_run balances) as (st & Hgen & Hrun).
  exists (BalanceService.settlements st). split; [done|].
  pose proof (creditors_debtors_length balances) as Hlen.
  set (N := (length (creditors_of balances) + length (debtors_of balances))%nat) in *.
  assert (length (BalanceService.sort_desc (creditors_of balances))
          + length (BalanceService.sort_desc (debtors_of balances)) = N)%nat as HN.
  { unfold N. by rewrite !sort_desc_Permutation. }
  set (P := λ s, (length (BalanceService.settlements s)
                  + length (remaining_creditors s)
                  + length (remaining_debtors s) ≤ N
                  ∧ length (BalanceService.settlements s) ≤ N - 1)%nat).
  assert (∀ s s', P s → BalanceService.iteration s = Some s' → P s') as Hstep.
  { intros s s' [H1 H2] (c & cs & d & ds & Hc & Hd & Hs & Hc' & Hd')%iteration_Some.
    unfold P. rewrite Hc, Hd in H1. rewrite Hs, Hc', Hd', length_app. simpl in *.
    destruct (Z.ltb_spec
                (BalanceService.en_amount c
                 - Z.min (BalanceService.en_amount c) (BalanceService.en_amount d)) 1);
      destruct (Z.ltb_spec
                  (BalanceService.en_amount d
                   - Z.min (BalanceService.en_amount c) (BalanceService.en_amount d)) 1);
      simpl; lia. }
  eapply (while_invariant P _ _ _ Hstep) in Hrun as [[_ Hbound] _]; [lia|].
  unfold P, remaining_creditors, remaining_debtors. simpl. rewrite !drop_0. lia.
Qed.

(** The suggestions are always produced, and never more of them than there
    are creditors and debtors together.  When there is any suggestion at
    all, their number is less than the number of creditors and debtors
    together, hence less than the number of participants: every settlement
    but the last uses up a creditor or a debtor, and the last uses up one of
    each side's remaining ones.  (A settled or an empty group has no
    creditor, no debtor and no suggestion.) *)
Theorem settlement_count_bound (balances : dict BalanceService.BalanceData) :
  ∃ plan,
    BalanceService.generate_settlement_suggestions balances = Some plan
    ∧ (length plan ≤ length (creditors_of balances) + length (debtors_of balances))%nat
    ∧ (plan ≠ [] →
       (length plan < length (creditors_of balances) + length (debtors_of balances))%nat
       ∧ (length plan < length balances)%nat).
Proof.
  destruct (settlement_count_le balances) as (plan & Hgen & Hsides & Hall).
  exists plan. split; [done|]. split; [lia|].
  intros Hplan. destruct plan as [|s plan]; [done|]. simpl in *. lia.
Qed.

Lemma settlement_count_bound_witness :
  ∃ plan,
    BalanceService.generate_settlement_suggestions Sample.owed_fifty = Some plan
    ∧ length plan = 2%nat
    ∧ (length plan < length (creditors_of Sample.owed_fifty)
                     + length (debtors_of Sample.owed_fifty))%nat
    ∧ (length plan < length Sample.owed_fifty)%nat.
Proof.
  destruct (settlement_count_bound Sample.owed_fifty) as (plan & Hgen & _ & Hlt).
  exists plan. split; [exact Hgen|].
  assert (length plan = 2%nat) as Hlen.
  { revert Hgen. vm_compute. by intros [= <-]. }
  split; [exact Hlen|]. apply Hlt. intros ->. discriminate Hlen.
Defined.

(** ** The accounts of each participant in the settlement suggestions *)

Section accounts.
Import BalanceService.

Lemma amount_of_app (k : UUID) (xs ys : list Entry) :
  amount_of k (xs ++ ys) = amount_of k xs + amount_of k ys.
Proof. unfold amount_of. by rewrite filter_app, fmap_app, sum_app. Qed.

Lemma amount_of_cons (k : UUID) (x : Entry) (xs : list Entry) :
  amount_of k (x :: xs)
  = (if decide (en_id x = k) then en_amount x else 0) + amount_of k xs.
Proof.
  unfold amount_of. rewrite filter_cons. case_decide; [|done].
  by rewrite fmap_cons, sum_cons.
Qed.

Lemma amount_of_nil (k : UUID) : amount_of k [] = 0.
Proof. reflexivity. Qed.

Lemma amount_of_Permutation (k : UUID) (xs ys : list Entry) :
  xs ≡ₚ ys → amount_of k xs = amount_of k ys.
Proof. intros Hp. unfold amount_of. apply sum_Permutation. by rewrite Hp. Qed.

Lemma amount_of_zero (k : UUID) (xs : list Entry) :
  Forall (λ x, en_amount x = 0) xs → amount_of k xs = 0.
Proof.
  induction 1 as [|x xs Hx _ IH]; [done|].
  rewrite amount_of_cons, IH, Hx. by case_decide.
Qed.

Lemma amount_of_nonneg (k : UUID) (xs : list Entry) :
  Forall (λ x, 0 < en_amount x) xs → 0 ≤ amount_of k xs.
Proof.
  induction 1 as [|x xs Hx _ IH]; [done|].
  rewrite amount_of_cons. case_decide; lia.
Qed.

Lemma received_snoc (k : UUID) (plan : list SettlementDict) (s : SettlementDict) :
  received k (plan ++ [s])
  = received k plan + (if decide (to_participant_id s = k) then amount s else 0).
Proof.
  unfold received. rewrite filter_app, fmap_app, sum_app. f_equal.
  rewrite filter_cons, filter_nil. case_decide; [|done].
  by rewrite fmap_cons, sum_cons, fmap_nil, sum_nil, Z.add_0_r.
Qed.

Lemma paid_snoc (k : UUID) (plan : list SettlementDict) (s : SettlementDict) :
  paid k (plan ++ [s])
  = paid k plan + (if decide (from_participant_id s = k) then amount s else 0).
Proof.
  unfold paid. rewrite filter_app, fmap_app, sum_app. f_equal.
  rewrite filter_cons, filter_nil. case_decide; [|done].
  by rewrite fmap_cons, sum_cons, fmap_nil, sum_nil, Z.add_0_r.
Qed.

Lemma received_nonneg (k : UUID) (plan : list SettlementDict) :
  Forall (λ s, 0 < amount s) plan → 0 ≤ received k plan ∧ 0 ≤ paid k plan.
Proof.
  unfold received, paid.
  induction 1 as [|s plan Hs _ [IH1 IH2]]; [done|].
  rewrite !filter_cons. split; case_decide; rewrite ?fmap_cons, ?sum_cons; lia.
Qed.

(** One iteration, seen on the passed and on the remaining lists. *)
Lemma iteration_Some_passed (st st' : LoopState) :
  iteration st = Some st' →
  ∃ c cs d ds,
    remaining_creditors st = c :: cs
    ∧ remaining_debtors st = d :: ds
    ∧ let a := Z.min (en_amount c) (en_amount d) in
      settlements st' = settlements st ++ [settlement_of d c a]
      ∧ (if en_amount c - a <? 1
         then passed_creditors st' = passed_creditors st ++ [set_amount (en_amount c - a) c]
              ∧ remaining_creditors st' = cs
         else passed_creditors st' = passed_creditors st
              ∧ remaining_creditors st' = set_amount (en_amount c - a) c :: cs)
      ∧ (if en_amount d - a <? 1
         then passed_debtors st' = passed_debtors st ++ [set_amount (en_amount d - a) d]
              ∧ remaining_debtors st' = ds
         else passed_debtors st' = passed_debtors st
              ∧ remaining_debtors st' = set_amount (en_amount d - a) d :: ds).
Proof.
  unfold iteration, remaining_creditors, remaining_debtors,
    passed_creditors, passed_debtors.
  destruct (creditors st !! i st) as [c|] eqn:Hc; [|done].
  destruct (debtors st !! j st) as [d|] eqn:Hd; [|done].
  intros [= <-]. exists c, (drop (S (i st)) (creditors st)),
                   d, (drop (S (j st)) (debtors st)).
  split; [by apply drop_lookup_cons|]. split; [by apply drop_lookup_cons|].
  cbn [settlements creditors debtors i j en_amount set_amount].
  assert (i st < length (creditors st))%nat by (by eapply lookup_lt_Some).
  assert (j st < length (debtors st))%nat by (by eapply lookup_lt_Some).
  split; [done|]. split.
  - destruct (_ <? 1).
    + split; [|by rewrite drop_insert_lt by lia].
      rewrite (take_S_r _ _ (set_amount (en_amount c - Z.min (en_amount c) (en_amount d)) c))
        by (by apply list_lookup_insert_eq).
      by rewrite take_insert_ge by lia.
    + split; [by rewrite take_insert_ge by lia|by eapply drop_insert_here].
  - destruct (_ <? 1).
    + split; [|by rewrite drop_insert_lt by lia].
      rewrite (take_S_r _ _ (set_amount (en_amount d - Z.min (en_amount c) (en_amount d)) d))
        by (by apply list_lookup_insert_eq).
      by rewrite take_insert_ge by lia.
    + split; [by rewrite take_insert_ge by lia|by eapply drop_insert_here].
Qed.

Lemma settle_accounts_init (cs0 ds0 : list Entry) :
  settle_accounts cs0 ds0
    {| creditors := cs0; debtors := ds0; i := 0; j := 0; settlements := [] |}.
Proof.
  split; unfold passed_creditors, passed_debtors, remaining_creditors,
    remaining_debtors; simpl; rewrite ?drop_0; try done.
  - intros k. unfold received. simpl. rewrite sum_nil. lia.
  - intros k. unfold paid. simpl. rewrite sum_nil. lia.
Qed.

Lemma settle_accounts_step (cs0 ds0 : list Entry) (st st' : LoopState) :
  settle_accounts cs0 ds0 st → iteration st = Some st' →
  settle_accounts cs0 ds0 st'.
Proof.
  intros [Hc Hd Hpc Hpd]
         (c & cs & d & ds & Hrc & Hrd & Hs' & Hc' & Hd')%iteration_Some_passed.
  set (a := Z.min (en_amount c) (en_amount d)) in *.
  assert (a ≤ en_amount c ∧ a ≤ en_amount d) as Ha by (unfold a; lia).
  split.
  - intros k. specialize (Hc k). rewrite Hrc, amount_of_app, amount_of_cons in Hc.
    rewrite Hs', received_snoc. simpl.
    destruct (en_amount c - a <? 1); destruct Hc' as [-> ->];
      rewrite ?amount_of_app, ?amount_of_cons, ?amount_of_nil; simpl;
      case_decide; lia.
  - intros k. specialize (Hd k). rewrite Hrd, amount_of_app, amount_of_cons in Hd.
    rewrite Hs', paid_snoc. simpl.
    destruct (en_amount d - a <? 1); destruct Hd' as [-> ->];
      rewrite ?amount_of_app, ?amount_of_cons, ?amount_of_nil; simpl;
      case_decide; lia.
  - destruct (Z.ltb_spec (en_amount c - a) 1); destruct Hc' as [-> _]; [|done].
    apply Forall_app. split; [done|]. apply Forall_singleton. simpl. lia.
  - destruct (Z.ltb_spec (en_amount d - a) 1); destruct Hd' as [-> _]; [|done].
    apply Forall_app. split; [done|]. apply Forall_singleton. simpl. lia.
Qed.
End accounts.

Section accounts_final.
Import BalanceService.

Lemma generate_settlement_suggestions_accounts (balances : dict BalanceData) :
  ∃ st,
    generate_settlement_suggestions balances = Some (settlements st)
    ∧ settle_invariant (sort_desc (creditors_of balances))
                       (sort_desc (debtors_of balances)) st
    ∧ settle_accounts (sort_desc (creditors_of balances))
                      (sort_desc (debtors_of balances)) st
    ∧ (remaining_creditors st = [] ∨ remaining_debtors st = []).
Proof.
  destruct (generate_settlement_suggestions_run balances) as (st & Hgen & Hrun).
  exists st. split; [done|].
  set (cs0 := sort_desc (creditors_of balances)) in *.
  set (ds0 := sort_desc (debtors_of balances)) in *.
  eapply (while_invariant (λ s, settle_invariant cs0 ds0 s ∧ settle_accounts cs0 ds0 s))
    in Hrun as [[Hinv Hacc] Hend].
  - split; [done|]. split; [done|]. by apply iteration_None.
  - intros s s' [? ?] Hit. split.
    + by eapply settle_invariant_step.
    + by eapply settle_accounts_step.
  - split; [|apply settle_accounts_init].
    apply settle_invariant_init; unfold cs0, ds0.
    + rewrite sort_desc_Permutation. apply creditors_of_amounts.
    + rewrite sort_desc_Permutation. apply debtors_of_amounts.
Qed.

Lemma amount_of_creditors_absent (balances : dict BalanceData) (k : UUID) :
  k ∉ balances.*1 →
  amount_of k (creditors_of balances) = 0 ∧ amount_of k (debtors_of balances) = 0.
Proof.
  unfold creditors_of, debtors_of.
  induction balances as [|[k0 v0] balances IH]; [done|].
  rewrite fmap_cons, not_elem_of_cons. cbn [fst snd]. intros [Hne [IH1 IH2]%IH].
  rewrite !filter_cons. cbn [fst snd]. split.
  - destruct (decide (1 < net_balance v0));
      rewrite ?fmap_cons, ?amount_of_cons, IH1; cbn [en_id en_amount fst snd];
      [destruct (decide (k0 = k)); [done|lia]|done].
  - destruct (decide (net_balance v0 < -1));
      rewrite ?fmap_cons, ?amount_of_cons, IH2; cbn [en_id en_amount fst snd];
      [destruct (decide (k0 = k)); [done|lia]|done].
Qed.

Lemma amount_of_creditors_debtors (balances : dict BalanceData) (k : UUID)
    (v : BalanceData) :
  NoDup balances.*1 → (k, v) ∈ balances →
  amount_of k (creditors_of balances)
  = (if decide (1 < net_balance v) then net_balance v else 0)
  ∧ amount_of k (debtors_of balances)
    = (if decide (net_balance v < -1) then - net_balance v else 0).
Proof.
  induction balances as [|[k0 v0] balances IH]; [by intros _ ?%elem_of_nil|].
  rewrite fmap_cons, NoDup_cons, elem_of_cons. cbn [fst snd]. intros [Hk0 Hnd] Hin.
  destruct Hin as [[= -> ->]|Hin].
  - clear IH. destruct (amount_of_creditors_absent balances k0 Hk0) as [Hc Hd].
    unfold creditors_of, debtors_of in *. rewrite !filter_cons. cbn [fst snd]. split.
    + destruct (decide (1 < net_balance v0));
        rewrite ?fmap_cons, ?amount_of_cons, Hc; cbn [en_id en_amount fst snd];
        [destruct (decide (k0 = k0)); [lia|done]|done].
    + destruct (decide (net_balance v0 < -1));
        rewrite ?fmap_cons, ?amount_of_cons, Hd; cbn [en_id en_amount fst snd];
        [destruct (decide (k0 = k0)); [lia|done]|done].
  - assert (k0 ≠ k) as Hne.
    { intros ->. apply Hk0. by apply (list_elem_of_fmap_2 fst) in Hin. }
    destruct (IH Hnd Hin) as [IH1 IH2]. clear IH.
    unfold creditors_of, debtors_of in *. rewrite !filter_cons. cbn [fst snd]. split.
    + destruct (decide (1 < net_balance v0));
        rewrite ?fmap_cons, ?amount_of_cons, IH1; cbn [en_id en_amount fst snd];
        [destruct (decide (k0 = k)); [done|lia]|done].
    + destruct (decide (net_balance v0 < -1));
        rewrite ?fmap_cons, ?amount_of_cons, IH2; cbn [en_id en_amount fst snd];
        [destruct (decide (k0 = k)); [done|lia]|done].
Qed.
End accounts_final.

(** In the suggested settlements nobody receives more than the balance
    they are owed and nobody pays more than the balance they owe; a
    participant within the tolerance of 0.01 neither pays nor receives. *)
Theorem settlement_within_balances (balances : dict BalanceService.BalanceData) :
  NoDup balances.*1 →
  ∃ plan,
    BalanceService.generate_settlement_suggestions balances = Some plan
    ∧ ∀ k v, (k, v) ∈ balances →
        0 ≤ received k plan
          ≤ (if decide (1 < BalanceService.net_balance v)
             then BalanceService.net_balance v else 0)
        ∧ 0 ≤ paid k plan
            ≤ (if decide (BalanceService.net_balance v < -1)
               then - BalanceService.net_balance v else 0).
Proof.
  intros Hnd.
  destruct (generate_settlement_suggestions_accounts balances)
    as (st & Hgen & [Hcp Hdp Hsp _ _ _ _ _] & [Hc Hd Hpc Hpd] & _).
  exists (BalanceService.settlements st). split; [done|]. intros k v Hin.
  destruct (amount_of_creditors_debtors balances k v Hnd Hin) as [Hac Had].
  destruct (received_nonneg k _ Hsp) as [Hr Hp].
  specialize (Hc k). specialize (Hd k).
  rewrite (amount_of_Permutation _ _ _ (sort_desc_Permutation _)), Hac in Hc.
  rewrite (amount_of_Permutation _ _ _ (sort_desc_Permutation _)), Had in Hd.
  rewrite amount_of_app, (amount_of_zero _ _ Hpc) in Hc.
  rewrite amount_of_app, (amount_of_zero _ _ Hpd) in Hd.
  pose proof (amount_of_nonneg k _ Hcp). pose proof (amount_of_nonneg k _ Hdp).
  lia.
Qed.

Lemma settlement_within_balances_witness :
  ∃ plan,
    BalanceService.generate_settlement_suggestions Sample.owed_fifty = Some plan
    ∧ received 1 plan ≤ 5000 ∧ paid 2 plan ≤ 3000.
Proof.
  destruct (settlement_within_balances Sample.owed_fifty) as (plan & Hgen & Hall).
  - apply (bool_decide_unpack _). vm_compute. exact I.
  - exists plan. split; [exact Hgen|]. split.
    + refine (proj2 (proj1 (Hall 1%N (Sample.balance Sample.alice 5000).2 _))). left.
    + refine (proj2 (proj2 (Hall 2%N (Sample.balance Sample.bob (-3000)).2 _))).
      right. left.
Defined.

(** When what the creditors are owed equals what the debtors owe (as it
    does when the net balances sum to zero and none is exactly 0.01 or
    -0.01), carrying out the suggested settlements clears every balance
    beyond the tolerance: each participant's net balance, less what they
    receive, plus what they pay, is zero, and a balance within 0.01 is left
    as it is. *)
Theorem settlement_clears_balances (balances : dict BalanceService.BalanceData) :
  NoDup balances.*1 →
  owed_to_creditors balances = owed_by_debtors balances →
  ∃ plan,
    BalanceService.generate_settlement_suggestions balances = Some plan
    ∧ ∀ k v, (k, v) ∈ balances →
        BalanceService.net_balance v - received k plan + paid k plan
        = (if decide (Z.abs (BalanceService.net_balance v) ≤ 1)
           then BalanceService.net_balance v else 0).
Proof.
  intros Hnd Heq.
  destruct (generate_settlement_suggestions_accounts balances)
    as (st & Hgen & [Hcp Hdp _ Hct Hdt _ _ _] & [Hc Hd Hpc Hpd] & Hend).
  exists (BalanceService.settlements st). split; [done|].
  rewrite sorted_amounts_total in Hct, Hdt.
  rewrite (proj1 (creditors_of_amounts balances)) in Hct.
  rewrite (proj1 (debtors_of_amounts balances)) in Hdt.
  assert (∀ xs : list BalanceService.Entry,
            Forall (λ x, 0 < BalanceService.en_amount x) xs →
            sum (BalanceService.en_amount <$> xs) = 0 → xs = []) as Hnil.
  { intros xs Hpos Hsum. destruct Hpos as [|x xs Hx Hxs]; [done|].
    rewrite fmap_cons, sum_cons in Hsum.
    assert (0 ≤ sum (BalanceService.en_amount <$> xs))
      by (apply sum_nonneg; by rewrite Forall_fmap).
    lia. }
  assert (remaining_creditors st = [] ∧ remaining_debtors st = []) as [Hrc Hrd].
  { destruct Hend as [Hn|Hn]; rewrite Hn in *;
      rewrite fmap_nil, sum_nil in *; (split; [|]); try done; apply Hnil; try done; lia. }
  intros k v Hin.
  destruct (amount_of_creditors_debtors balances k v Hnd Hin) as [Hac Had].
  specialize (Hc k). specialize (Hd k).
  rewrite (amount_of_Permutation _ _ _ (sort_desc_Permutation _)), Hac in Hc.
  rewrite (amount_of_Permutation _ _ _ (sort_desc_Permutation _)), Had in Hd.
  rewrite Hrc, app_nil_r, (amount_of_zero _ _ Hpc) in Hc.
  rewrite Hrd, app_nil_r, (amount_of_zero _ _ Hpd) in Hd.
  repeat case_decide; lia.
Qed.

Lemma settlement_clears_balances_witness :
  ∃ plan,
    BalanceService.generate_settlement_suggestions Sample.owed_fifty = Some plan
    ∧ 5000 - received 1 plan + paid 1 plan = 0
    ∧ -3000 - received 2 plan + paid 2 plan = 0.
Proof.
  destruct (settlement_clears_balances Sample.owed_fifty) as (plan & Hgen & Hall).
  - apply (bool_decide_unpack _). vm_compute. exact I.
  - reflexivity.
  - exists plan. split; [exact Hgen|]. split.
    + refine (Hall 1%N (Sample.balance Sample.alice 5000).2 _). left.
    + refine (Hall 2%N (Sample.balance Sample.bob (-3000)).2 _). right. left.
Defined.

(** ** The balance matrix *)

Section matrix.
Import BalanceService.

Lemma edges_total_nonneg (new : list BalanceMatrix.Edge) :
  Forall (λ e, 1 < BalanceMatrix.amount e) new →
  0 ≤ sum (BalanceMatrix.amount <$> new).
Proof.
  induction 1 as [|e new He _ IH]; [done|]. rewrite fmap_cons, sum_cons. lia.
Qed.

Lemma for_creditors_spec (d : Entry) (cs : list Entry) (edges : list BalanceMatrix.Edge)
    d' cs' edges' :
  Forall (λ c, 0 ≤ en_amount c) cs → 0 ≤ en_amount d →
  BalanceMatrix.for_creditors d cs edges = (d', cs', edges') →
  ∃ new,
    edges' = edges ++ new
    ∧ en_id d' = en_id d
    ∧ Forall2 (λ c c', en_id c' = en_id c ∧ 0 ≤ en_amount c' ≤ en_amount c) cs cs'
    ∧ 0 ≤ en_amount d'
    ∧ en_amount d' + sum (BalanceMatrix.amount <$> new) = en_amount d
    ∧ sum (en_amount <$> cs') + sum (BalanceMatrix.amount <$> new)
      = sum (en_amount <$> cs)
    ∧ Forall (λ e, 1 < BalanceMatrix.amount e
                   ∧ BalanceMatrix.from_participant_id e = en_id d
                   ∧ BalanceMatrix.to_participant_id e ∈ en_id <$> cs) new
    ∧ (en_amount d' ≤ 1 ∨ Forall (λ c', en_amount c' ≤ 1) cs').
Proof.
  intros Hcs. revert d edges d' cs' edges'.
  induction Hcs as [|c cs Hc _ IH]; intros d edges d' cs' edges' Hd;
    cbn [BalanceMatrix.for_creditors].
  - intros [= <- <- <-]. exists []. rewrite app_nil_r.
    split; [done|]. split; [done|]. split; [constructor|]. split; [done|].
    rewrite !fmap_nil, !sum_nil. split; [lia|]. split; [lia|].
    split; [constructor|]. right. constructor.
  - destruct (Z.gtb_spec (en_amount d) 1) as [Hd1|Hd1];
      destruct (Z.gtb_spec (en_amount c) 1) as [Hc1|Hc1]; cbn [andb].
    + set (t := Z.min (en_amount d) (en_amount c)).
      destruct (BalanceMatrix.for_creditors _ cs _) as [[d1 cs1] edges1] eqn:Hrec.
      intros [= <- <- <-].
      apply IH in Hrec as (new & -> & Hid & HF & Hd0 & Hdsum & Hcsum & Hnew & Hor);
        [|simpl; lia].
      cbn [en_amount en_id set_amount] in *. pose proof (edges_total_nonneg new) as Hnn.
      eexists (_ :: new). split; [by rewrite <- app_assoc|]. split; [done|].
      split; [constructor; [cbn [en_amount en_id set_amount]; lia|done]|]. split; [done|].
      rewrite !fmap_cons, !sum_cons.
      cbn [BalanceMatrix.amount en_amount en_id set_amount]. fold t.
      split; [lia|]. split; [lia|]. split.
      * constructor; [cbn [BalanceMatrix.amount BalanceMatrix.from_participant_id
                         BalanceMatrix.to_participant_id]; split; [lia|split; [done|left]]|].
        eapply Forall_impl; [exact Hnew|]. intros e (? & ? & ?). repeat split; try done.
        by right.
      * assert (0 ≤ sum (BalanceMatrix.amount <$> new)) as Hs.
        { apply Hnn. eapply Forall_impl; [exact Hnew|]. by intros e [? _]. }
        destruct (Z_le_gt_dec (en_amount d) (en_amount c)).
        -- left. lia.
        -- destruct Hor as [?|Hall]; [by left|right].
           constructor; [cbn [en_amount set_amount]; lia|done].
    + destruct (BalanceMatrix.for_creditors d cs edges) as [[d1 cs1] edges1] eqn:Hrec.
      intros [= <- <- <-].
      apply IH in Hrec as (new & -> & Hid & HF & Hd0 & Hdsum & Hcsum & Hnew & Hor);
        [|done].
      exists new. split; [done|]. split; [done|].
      split; [constructor; [lia|done]|]. split; [done|].
      rewrite !fmap_cons, !sum_cons. split; [lia|]. split; [lia|]. split.
      * eapply Forall_impl; [exact Hnew|]. intros e (? & ? & ?). repeat split; try done.
        by right.
      * destruct Hor as [?|Hall]; [by left|right]. constructor; [lia|done].
    + destruct (BalanceMatrix.for_creditors d cs edges) as [[d1 cs1] edges1] eqn:Hrec.
      intros [= <- <- <-].
      apply IH in Hrec as (new & -> & Hid & HF & Hd0 & Hdsum & Hcsum & Hnew & Hor);
        [|done].
      pose proof (edges_total_nonneg new) as Hnn.
      exists new. split; [done|]. split; [done|].
      split; [constructor; [lia|done]|]. split; [done|].
      rewrite !fmap_cons, !sum_cons. split; [lia|]. split; [lia|]. split.
      * eapply Forall_impl; [exact Hnew|]. intros e (? & ? & ?). repeat split; try done.
        by right.
      * left. assert (0 ≤ sum (BalanceMatrix.amount <$> new)) as Hs; [|lia].
        apply Hnn. eapply Forall_impl; [exact Hnew|]. by intros e [? _].
    + destruct (BalanceMatrix.for_creditors d cs edges) as [[d1 cs1] edges1] eqn:Hrec.
      intros [= <- <- <-].
      apply IH in Hrec as (new & -> & Hid & HF & Hd0 & Hdsum & Hcsum & Hnew & Hor);
        [|done].
      pose proof (edges_total_nonneg new) as Hnn.
      exists new. split; [done|]. split; [done|].
      split; [constructor; [lia|done]|]. split; [done|].
      rewrite !fmap_cons, !sum_cons. split; [lia|]. split; [lia|]. split.
      * eapply Forall_impl; [exact Hnew|]. intros e (? & ? & ?). repeat split; try done.
        by right.
      * left. assert (0 ≤ sum (BalanceMatrix.amount <$> new)) as Hs; [|lia].
        apply Hnn. eapply Forall_impl; [exact Hnew|]. by intros e [? _].
Qed.

Lemma shrunk_nonneg (cs cs' : list Entry) :
  Forall2 (λ c c', en_id c' = en_id c ∧ 0 ≤ en_amount c' ≤ en_amount c) cs cs' →
  Forall (λ c, 0 ≤ en_amount c) cs'
  ∧ en_id <$> cs' = en_id <$> cs
  ∧ (Forall (λ c, en_amount c ≤ 1) cs → Forall (λ c, en_amount c ≤ 1) cs').
Proof.
  induction 1 as [|c c' cs cs' (Hid & H0 & Hle) _ (IH1 & IH2 & IH3)].
  - by repeat split.
  - split; [by constructor|]. split; [by rewrite !fmap_cons, Hid, IH2|].
    intros [Hc Hcs]%Forall_cons. constructor; [lia|by apply IH3].
Qed.

Lemma shrunk_trans (cs cs1 cs2 : list Entry) :
  Forall2 (λ c c', en_id c' = en_id c ∧ 0 ≤ en_amount c' ≤ en_amount c) cs cs1 →
  Forall2 (λ c c', en_id c' = en_id c ∧ 0 ≤ en_amount c' ≤ en_amount c) cs1 cs2 →
  Forall2 (λ c c', en_id c' = en_id c ∧ 0 ≤ en_amount c' ≤ en_amount c) cs cs2.
Proof.
  apply Forall2_trans. intros x y z (? & ? & ?) (? & ? & ?).
  split; [congruence|lia].
Qed.

Lemma for_debtors_spec (ds cs : list Entry) (edges : list BalanceMatrix.Edge)
    ds' cs' edges' :
  Forall (λ d, 0 ≤ en_amount d) ds → Forall (λ c, 0 ≤ en_amount c) cs →
  BalanceMatrix.for_debtors ds cs edges = (ds', cs', edges') →
  ∃ new,
    edges' = edges ++ new
    ∧ Forall2 (λ c c', en_id c' = en_id c ∧ 0 ≤ en_amount c' ≤ en_amount c) cs cs'
    ∧ length ds' = length ds
    ∧ Forall (λ d, 0 ≤ en_amount d) ds'
    ∧ sum (en_amount <$> ds') + sum (BalanceMatrix.amount <$> new)
      = sum (en_amount <$> ds)
    ∧ sum (en_amount <$> cs') + sum (BalanceMatrix.amount <$> new)
      = sum (en_amount <$> cs)
    ∧ Forall (λ e, 1 < BalanceMatrix.amount e
                   ∧ BalanceMatrix.from_participant_id e ∈ en_id <$> ds
                   ∧ BalanceMatrix.to_participant_id e ∈ en_id <$> cs) new
    ∧ (Forall (λ d, en_amount d ≤ 1) ds' ∨ Forall (λ c, en_amount c ≤ 1) cs').
Proof.
  intros Hds. revert cs edges ds' cs' edges'.
  induction Hds as [|d ds Hd _ IH]; intros cs edges ds' cs' edges' Hcs;
    cbn [BalanceMatrix.for_debtors].
  - intros [= <- <- <-]. exists []. rewrite app_nil_r.
    split; [done|]. split; [apply Forall_Forall2_diag; eapply Forall_impl; [exact Hcs|]|].
    { intros c Hc. cbn beta in Hc. split; [done|lia]. }
    split; [done|]. split; [constructor|].
    rewrite !fmap_nil, !sum_nil. split; [lia|]. split; [lia|].
    split; [constructor|]. left. constructor.
  - destruct (BalanceMatrix.for_creditors d cs edges) as [[d1 cs1] edges1] eqn:Hin.
    destruct (BalanceMatrix.for_debtors ds cs1 edges1) as [[ds2 cs2] edges2] eqn:Hout.
    intros [= <- <- <-].
    apply for_creditors_spec in Hin
      as (new1 & -> & Hid1 & HF1 & Hd1 & Hdsum1 & Hcsum1 & Hnew1 & Hor1); [|done..].
    destruct (shrunk_nonneg _ _ HF1) as (Hcs1 & Hids1 & Hle1).
    apply IH in Hout
      as (new2 & -> & HF2 & Hlen2 & Hds2 & Hdsum2 & Hcsum2 & Hnew2 & Hor2); [|done].
    destruct (shrunk_nonneg _ _ HF2) as (_ & _ & Hle2).
    exists (new1 ++ new2). split; [by rewrite <- app_assoc|].
    split; [by eapply shrunk_trans|]. split; [by rewrite !length_cons, Hlen2|].
    split; [by constructor|].
    rewrite !fmap_cons, !fmap_app, !sum_cons, !sum_app.
    split; [lia|]. split; [lia|]. split.
    + apply Forall_app. split.
      * eapply Forall_impl; [exact Hnew1|]. intros e (? & Hfrom & ?).
        split; [done|]. split; [rewrite Hfrom; left|done].
      * eapply Forall_impl; [exact Hnew2|]. intros e (? & ? & Hto).
        split; [done|]. split; [by right|by rewrite <- Hids1].
    + destruct Hor1 as [Hd1'|Hall1].
      * destruct Hor2 as [?|?]; [left; by constructor|by right].
      * right. by apply Hle2, Hall1.
Qed.

Lemma creditors_of_member (balances : dict BalanceData) (k : UUID) :
  k ∈ en_id <$> creditors_of balances →
  ∃ b, (k, b) ∈ balances ∧ 1 < net_balance b.
Proof.
  intros Hin. apply creditors_of_ids. by rewrite sort_desc_Permutation.
Qed.

Lemma debtors_of_member (balances : dict BalanceData) (k : UUID) :
  k ∈ en_id <$> debtors_of balances →
  ∃ b, (k, b) ∈ balances ∧ net_balance b < -1.
Proof.
  intros Hin. apply debtors_of_ids. by rewrite sort_desc_Permutation.
Qed.

(** The matrix as the edges that the two loops append, with what is left of
    the creditors and of the debtors. *)
Lemma generate_balance_matrix_spec (balances : dict BalanceData) :
  ∃ ds' cs',
    let edges := BalanceMatrix.generate_balance_matrix balances in
    length ds' = length (debtors_of balances)
    ∧ length cs' = length (creditors_of balances)
    ∧ Forall (λ d, 0 ≤ en_amount d) ds'
    ∧ Forall (λ c, 0 ≤ en_amount c) cs'
    ∧ sum (en_amount <$> ds') + sum (BalanceMatrix.amount <$> edges)
      = owed_by_debtors balances
    ∧ sum (en_amount <$> cs') + sum (BalanceMatrix.amount <$> edges)
      = owed_to_creditors balances
    ∧ Forall (λ e, 1 < BalanceMatrix.amount e
                   ∧ BalanceMatrix.from_participant_id e ∈ en_id <$> debtors_of balances
                   ∧ BalanceMatrix.to_participant_id e ∈ en_id <$> creditors_of balances)
             edges
    ∧ (Forall (λ d, en_amount d ≤ 1) ds' ∨ Forall (λ c, en_amount c ≤ 1) cs').
Proof.
  unfold BalanceMatrix.generate_balance_matrix. rewrite separate_spec. simpl.
  destruct (BalanceMatrix.for_debtors _ _ _) as [[ds' cs'] edges] eqn:Hrun.
  destruct (creditors_of_amounts balances) as [Hcsum Hcpos].
  destruct (debtors_of_amounts balances) as [Hdsum Hdpos].
  apply for_debtors_spec in Hrun
    as (new & -> & HF & Hlen & Hds & Hd & Hc & Hnew & Hor).
  - destruct (shrunk_nonneg _ _ HF) as (Hcs & _ & _).
    exists ds', cs'. simpl. rewrite <- Hcsum, <- Hdsum.
    split; [done|]. split; [symmetry; by eapply Forall2_length|]. done.
  - eapply Forall_impl; [exact Hdpos|]. intros d Hd. cbn beta in *. lia.
  - eapply Forall_impl; [exact Hcpos|]. intros c Hc. cbn beta in *. lia.
Qed.
End matrix.

(** Every edge of the balance matrix carries more than 0.01, from a
    participant whose net balance is below -0.01 to one whose net balance is
    above 0.01; so no edge goes from a participant to itself. *)
Theorem matrix_edges_wellformed (balances : dict BalanceService.BalanceData) :
  NoDup balances.*1 →
  Forall (λ e, 1 < BalanceMatrix.amount e
               ∧ BalanceMatrix.from_participant_id e ≠ BalanceMatrix.to_participant_id e
               ∧ (∃ b, (BalanceMatrix.from_participant_id e, b) ∈ balances
                       ∧ BalanceService.net_balance b < -1)
               ∧ (∃ b, (BalanceMatrix.to_participant_id e, b) ∈ balances
                       ∧ 1 < BalanceService.net_balance b))
         (BalanceMatrix.generate_balance_matrix balances).
Proof.
  intros Hnd.
  destruct (generate_balance_matrix_spec balances)
    as (ds' & cs' & _ & _ & _ & _ & _ & _ & Hedges & _).
  eapply Forall_impl; [exact Hedges|].
  intros e (Ha & (bd & Hd & Hdneg)%debtors_of_member & (bc & Hc & Hcpos)%creditors_of_member).
  split; [done|]. split; [|split; [by exists bd|by exists bc]].
  intros Heq. rewrite Heq in Hd.
  assert (bd = bc) as -> by (by eapply dict_value_unique). lia.
Qed.

Lemma matrix_edges_wellformed_witness :
  Forall (λ e, 1 < BalanceMatrix.amount e
               ∧ BalanceMatrix.from_participant_id e ≠ BalanceMatrix.to_participant_id e)
         (BalanceMatrix.generate_balance_matrix Sample.owed_fifty).
Proof.
  eapply Forall_impl.
  - apply (matrix_edges_wellformed Sample.owed_fifty).
    apply (bool_decide_unpack _). vm_compute. exact I.
  - intros e (? & ? & _). by split.
Defined.

Lemma amounts_le_length (xs : list BalanceService.Entry) :
  Forall (λ x, BalanceService.en_amount x ≤ 1) xs →
  sum (BalanceService.en_amount <$> xs) ≤ Z.of_nat (length xs).
Proof.
  induction 1 as [|x xs Hx _ IH]; [done|].
  rewrite fmap_cons, sum_cons, length_cons, Nat2Z.inj_succ. lia.
Qed.

Lemma amounts_nonneg (xs : list BalanceService.Entry) :
  Forall (λ x, 0 ≤ BalanceService.en_amount x) xs →
  0 ≤ sum (BalanceService.en_amount <$> xs).
Proof.
  induction 1 as [|x xs Hx _ IH]; [done|]. rewrite fmap_cons, sum_cons. lia.
Qed.

(** The balance matrix never assigns more than is owed: the total of its
    edges is at most what the creditors are owed and at most what the debtors
    owe.  And it assigns nearly all of the smaller of the two: what it leaves
    unassigned is at most 0.01 per debtor on the debtors' side, or at most
    0.01 per creditor on the creditors' side. *)
Theorem matrix_total (balances : dict BalanceService.BalanceData) :
  let total :=
    sum (BalanceMatrix.amount <$> BalanceMatrix.generate_balance_matrix balances) in
  0 ≤ total
  ∧ total ≤ owed_to_creditors balances
  ∧ total ≤ owed_by_debtors balances
  ∧ (owed_by_debtors balances - total ≤ Z.of_nat (length (debtors_of balances))
     ∨ owed_to_creditors balances - total ≤ Z.of_nat (length (creditors_of balances))).
Proof.
  destruct (generate_balance_matrix_spec balances)
    as (ds' & cs' & Hld & Hlc & Hds & Hcs & Hd & Hc & Hedges & Hor).
  cbv zeta in *.
  pose proof (amounts_nonneg _ Hds). pose proof (amounts_nonneg _ Hcs).
  assert (0 ≤ sum (BalanceMatrix.amount
                     <$> BalanceMatrix.generate_balance_matrix balances)).
  { apply edges_total_nonneg. eapply Forall_impl; [exact Hedges|]. by intros e [? _]. }
  split; [done|]. split; [lia|]. split; [lia|].
  destruct Hor as [Hall|Hall]; apply amounts_le_length in Hall; [left|right]; lia.
Qed.

(** ** Adding a participant *)

(** [add_participant] refuses a fifth participant with the 400 error
    "Maximum 4 participants allowed per group".  When it succeeds, the group
    has one participant more, the new one last, and still at most four; the
    names of the group stay distinct if they were; other groups keep their
    participants; and a participant added without a colour gets the palette
    colour at the index of the group's previous size. *)
Theorem add_participant_keeps_limit (group_id new_id : UUID)
    (participant_data : Schemas.ParticipantCreate) (db : Session) :
  let r := Participants.add_participant group_id new_id participant_data db in
  let group_before := query_participants group_id db in
  ((4 ≤ length group_before)%nat →
   r = Raise (HTTPException HTTP_400_BAD_REQUEST
                [Text "Maximum "; Text "4"; Text " participants allowed per group"]))
  ∧ (∀ p color db',
       r = Ok (p, color, db') →
       p = {| p_id := new_id; p_group_id := group_id;
              p_name := Schemas.pc_name participant_data |}
       ∧ query_participants group_id db' = group_before ++ [p]
       ∧ (length (query_participants group_id db') ≤ 4)%nat
       ∧ (NoDup (p_name <$> group_before) →
          NoDup (p_name <$> query_participants group_id db'))
       ∧ (∀ g, g ≠ group_id → query_participants g db' = query_participants g db)
       ∧ expenses db' = expenses db ∧ expense_splits db' = expense_splits db
       ∧ (Schemas.pc_color participant_data = None →
          Helpers.get_color_for_index (Z.of_nat (length group_before)) = Ok color)).
Proof.
  intros r group_before. subst r. unfold Participants.add_participant.
  fold group_before. unfold Validators.validate_participant_limit.
  destruct (Z.leb_spec 4 (Z.of_nat (length group_before))) as [Hfull|Hroom].
  - split; [done|]. intros p color db' Hr. done.
  - split; [lia|]. intros p color db'.
    destruct (head _) as [existing|] eqn:Hexisting; [done|].
    assert (Schemas.pc_name participant_data ∉ p_name <$> group_before) as Hnew.
    { intros (q & Hname & [Hg Hq]%list_elem_of_filter)%list_elem_of_fmap.
      assert (q ∈ filter (λ p, p_group_id p = group_id
                               ∧ p_name p = Schemas.pc_name participant_data)
                         (participants db)) as Hin
        by (by apply list_elem_of_filter).
      destruct (filter _ (participants db)); [by apply elem_of_nil in Hin|done]. }
    destruct (match Schemas.pc_color participant_data with
              | Some c => Ok c
              | None => Helpers.get_color_for_index (Z.of_nat (length group_before))
              end) as [c|] eqn:Hcolor; [|done].
    simpl. intros [= <- <- <-]. split; [done|].
    assert (query_participants group_id
              (db_add_participant
                 {| p_id := new_id; p_group_id := group_id;
                    p_name := Schemas.pc_name participant_data |} db)
            = group_before ++ [{| p_id := new_id; p_group_id := group_id;
                                  p_name := Schemas.pc_name participant_data |}]) as Hq.
    { unfold query_participants. simpl.
      by rewrite filter_app, filter_cons, decide_True, filter_nil. }
    split; [done|]. rewrite Hq. split; [rewrite length_app; simpl; lia|].
    split.
    { intros Hnd. rewrite fmap_app. apply NoDup_app. split; [done|].
      split; [|apply NoDup_singleton].
      intros name Hname ->%list_elem_of_singleton. done. }
    split.
    { intros g Hg. unfold query_participants. simpl.
      rewrite filter_app, filter_cons, decide_False, filter_nil, app_nil_r by done.
      done. }
    split; [done|]. split; [done|].
    intros Hnone. by rewrite Hnone in Hcolor.
Qed.

Lemma add_participant_keeps_limit_witness :
  Participants.add_participant Sample.group 10
    {| Schemas.pc_name := "E"; Schemas.pc_color := None; Schemas.pc_avatar_url := None |}
    Sample.db0
  = Raise (HTTPException HTTP_400_BAD_REQUEST
             [Text "Maximum "; Text "4"; Text " participants allowed per group"])
  ∧ ∃ p color db',
      Participants.add_participant Sample.group 10
        {| Schemas.pc_name := "E"; Schemas.pc_color := None;
           Schemas.pc_avatar_url := None |}
        {| participants := [Sample.alice; Sample.bob]; expenses := [];
           expense_splits := [] |} = Ok (p, color, db')
      ∧ (length (query_participants Sample.group db') ≤ 4)%nat
      ∧ color = "#F43F5E".
Proof.
  split.
  - apply (add_participant_keeps_limit Sample.group 10 _ Sample.db0). simpl. lia.
  - eexists _, _, _. split; [reflexivity|].
    destruct (add_participant_keeps_limit Sample.group 10
                {| Schemas.pc_name := "E"; Schemas.pc_color := None;
                   Schemas.pc_avatar_url := None |}
                {| participants := [Sample.alice; Sample.bob]; expenses := [];
                   expense_splits := [] |}) as [_ H].
    destruct (H _ _ _ eq_refl) as (_ & _ & Hlen & _). split; [exact Hlen|reflexivity].
Defined.

Lemma get_color_for_index_Ok (index : Z) :
  ∃ color, Helpers.get_color_for_index index = Ok color.
Proof.
  unfold Helpers.get_color_for_index.
  change (Z.of_nat (length Helpers.colors)) with 4.
  pose proof (Z.mod_pos_bound index 4 ltac:(lia)) as Hm.
  assert (∀ m, 0 ≤ m < 4 → m = 0 ∨ m = 1 ∨ m = 2 ∨ m = 3) as Hcases by lia.
  destruct (Hcases _ Hm) as [-> | [-> | [-> | ->]]]; by eexists.
Qed.

(** While the group has fewer than four participants, [add_participant]
    succeeds exactly when no participant of the group already bears the
    requested name; the only error is then the 400 error that quotes the
    name.  A participant of another group with the same name is no
    obstacle. *)
Theorem add_participant_name_unique (group_id new_id : UUID)
    (participant_data : Schemas.ParticipantCreate) (db : Session) :
  (length (query_participants group_id db) < 4)%nat →
  let r := Participants.add_participant group_id new_id participant_data db in
  ((∃ out, r = Ok out)
   ↔ Schemas.pc_name participant_data ∉ p_name <$> query_participants group_id db)
  ∧ (∀ e, r = Raise e →
       e = HTTPException HTTP_400_BAD_REQUEST
             [Text "Participant with name '"; Text (Schemas.pc_name participant_data);
              Text "' already exists in this group"]).
Proof.
  intros Hroom r. subst r. unfold Participants.add_participant.
  unfold Validators.validate_participant_limit.
  destruct (Z.leb_spec 4 (Z.of_nat (length (query_participants group_id db))))
    as [Hfull|_]; [lia|].
  destruct (head _) as [existing|] eqn:Hexisting.
  - split; [|by intros e [= <-]]. split; [by intros [? ?]|]. intros Hnew.
    destruct Hnew. apply head_Some_elem_of in Hexisting.
    apply list_elem_of_filter in Hexisting as [[Hg Hname] Hin].
    apply list_elem_of_fmap. exists existing. split; [done|].
    by apply list_elem_of_filter.
  - destruct (get_color_for_index_Ok
                (Z.of_nat (length (query_participants group_id db)))) as [c Hc].
    assert (∃ color,
              match Schemas.pc_color participant_data with
              | Some c => Ok c
              | None => Helpers.get_color_for_index
                          (Z.of_nat (length (query_participants group_id db)))
              end = Ok color) as [color Hcolor].
    { destruct (Schemas.pc_color participant_data); by eexists. }
    rewrite Hcolor. simpl. split; [|done]. split; [|intros _; by eexists].
    intros _ (q & Hname & [Hg Hq]%list_elem_of_filter)%list_elem_of_fmap.
    assert (q ∈ filter (λ p, p_group_id p = group_id
                             ∧ p_name p = Schemas.pc_name participant_data)
                       (participants db)) as Hin
      by (by apply list_elem_of_filter).
    destruct (filter _ (participants db)); [by apply elem_of_nil in Hin|done].
Qed.

Lemma add_participant_name_unique_witness :
  ∃ out,
    Participants.add_participant Sample.group 10
      {| Schemas.pc_name := "E"; Schemas.pc_color := None;
         Schemas.pc_avatar_url := None |}
      {| participants := [Sample.alice; Sample.bob]; expenses := [];
         expense_splits := [] |} = Ok out.
Proof.
  apply (add_participant_name_unique Sample.group 10
           {| Schemas.pc_name := "E"; Schemas.pc_color := None;
              Schemas.pc_avatar_url := None |}
           {| participants := [Sample.alice; Sample.bob]; expenses := [];
              expense_splits := [] |}).
  - simpl. lia.
  - apply (bool_decide_unpack _). vm_compute. exact I.
Defined.

(** ** The percentage validator and the endpoint *)

(** [validate_percentage_total] accepts exactly the lists that sum to 100 and
    otherwise raises a [ValueError] that carries the sum.  It is stricter
    than the check of the expense endpoint: a request it accepts is accepted
    in the percentage mode, and a request the endpoint accepts while the
    validator would refuse it has percentages summing to 99.99 or 100.01. *)
Theorem validate_percentage_total_stricter expense splits_data db :
  e_split_mode expense = PERCENTAGE →
  Forall (λ sd, Schemas.sc_participant_id sd
                ∈ p_id <$> query_participants (e_group_id expense) db) splits_data →
  Forall (λ sd, is_Some (Schemas.sc_percentage sd)) splits_data →
  let percentages := omap Schemas.sc_percentage splits_data in
  let v := Validators.validate_percentage_total percentages in
  let r := Expenses.validate_and_create_splits expense splits_data db in
  (v = Ok true ↔ sum percentages = 10000)
  ∧ (∀ e, v = Raise e →
       e = ValueError [Text "Percentages must sum to 100, got "; Dec (sum percentages)])
  ∧ (v = Ok true → ∃ db', r = Ok db')
  ∧ (∀ db', r = Ok db' → v ≠ Ok true →
       sum percentages = 9999 ∨ sum percentages = 10001).
Proof.
  intros Hmode Hvalid Hpresent percentages v r. subst v r.
  unfold Validators.validate_percentage_total, Expenses.validate_and_create_splits.
  rewrite (check_participants_splits_data _ _ Hvalid), Hmode. simpl.
  rewrite (sum_percentages_present 0 _ Hpresent), Z.add_0_l. simpl.
  fold percentages.
  destruct (add_percentage_splits_present expense splits_data db Hpresent)
    as (db1 & -> & _).
  destruct (Z.eqb_spec (sum percentages) 10000) as [Heq|Hne]; simpl.
  - rewrite Heq. simpl. split; [done|]. split; [done|].
    split; [intros _; by eexists|]. by intros db' _ [].
  - split; [split; [done|lia]|]. split; [by intros e [= <-]|]. split; [done|].
    intros db' Hr _.
    destruct (Z.gtb_spec (Z.abs (sum percentages - 10000)) 1); [done|lia].
Qed.

Lemma validate_percentage_total_stricter_witness :
  Validators.validate_percentage_total [5000; 4999]
  = Raise (ValueError [Text "Percentages must sum to 100, got "; Dec 9999])
  ∧ ∃ db', Expenses.validate_and_create_splits
             (Sample.expense PERCENTAGE 9000)
             [Sample.split_data Sample.alice 1 (Some 5000);
              Sample.split_data Sample.bob 1 (Some 5000)] Sample.db0 = Ok db'.
Proof.
  split; [reflexivity|].
  destruct (validate_percentage_total_stricter
              (Sample.expense PERCENTAGE 9000)
              [Sample.split_data Sample.alice 1 (Some 5000);
               Sample.split_data Sample.bob 1 (Some 5000)] Sample.db0)
    as (_ & _ & Hok & _).
  - reflexivity.
  - apply (bool_decide_unpack _). vm_compute. exact I.
  - apply (bool_decide_unpack _). vm_compute. exact I.
  - apply Hok. reflexivity.
Defined.
